(** * Retrieval-and-training core of the government-scheme chatbot

    A shallow embedding of
      - [backend/services/dataScraper.js]  (acquisition, deduplication),
      - [backend/services/vectorDB.js]     (embedding, vector index, search),
      - [backend/services/ragTrainer.js]   (training pipeline, retraining),
      - the scheduled-training service     (mutual exclusion flag),
    together with the properties stated about them.

    Conventions.  JavaScript values are the inductive [jsval] (numbers among
    them are integers); scheme records are objects, finite maps from field
    names to values, an absent field reading as [undefined].  Strings are
    byte strings.  Where statements read what [toLowerCase] and [trim]
    compute (the deduplication), the two are parameters: whatever the engine
    computes, on all of Unicode.  Elsewhere they and the whitespace class act
    on the ASCII range, which the sample inputs stay in.  Embeddings and
    scores are IEEE-754 doubles.  A synchronous
    function that may throw returns an [outcome]; an [async] function that
    also touches the module state, the data directory or an external service
    is a computation in the monad [M], which threads a [World] and yields a
    [res].  What the services, the clock and the file system answer is not
    decided by the code: it is read from an [Env], any [Env].

    The file has three parts: the model, translated from the source; the
    vocabulary of the statements, with sample inputs; the proofs. *)

From Stdlib Require Import Ascii String Floats Reals Lra ZArith Lia.
From stdpp Require Import gmap strings list pretty sorting.




(** ** Errors and outcomes *)

Inductive error :=
  | TypeError (msg : string)
  | Error (msg : string).

Inductive outcome (A : Type) :=
  | Return (a : A)
  | Throw (e : error).
Arguments Return {A} a.
Arguments Throw {A} e.

#[global] Instance outcome_ret : MRet outcome := λ A a, Return a.
#[global] Instance outcome_bind : MBind outcome := λ A B f m,
  match m with
  | Return a => f a
  | Throw e => Throw e
  end.

#[global] Instance outcome_fmap : FMap outcome := λ A B f m,
  match m with
  | Return a => Return (f a)
  | Throw e => Throw e
  end.

(** A left fold whose step is a computation. *)
Fixpoint foldlM {F : Type → Type} `{MBind F, MRet F} {A B}
    (f : A → B → F A) (a : A) (l : list B) : F A :=
  match l with
  | [] => mret a
  | x :: r => a' ← f a x; foldlM f a' r
  end.

Definition returns {A} (m : outcome A) : Prop := ∃ a, m = Return a.
Definition throws {A} (m : outcome A) : Prop := ∃ e, m = Throw e.

(** ** JavaScript values *)

Module JS.

#[warnings="-register-all"]
Inductive jsval :=
  | JUndefined
  | JNull
  | JBool (b : bool)
  | JNum (n : Z)
  | JStr (s : string)
  | JArr (l : list jsval).

Abbreviation jsobj := (gmap string jsval).

(** [o.f]: an absent property reads as [undefined]. *)
Definition getField (o : jsobj) (f : string) : jsval := default JUndefined (o !! f).

(** ToBoolean. *)
Definition truthy (v : jsval) : bool :=
  match v with
  | JUndefined | JNull => false
  | JBool b => b
  | JNum n => negb (n =? 0)%Z
  | JStr s => negb (bool_decide (s = ""))
  | JArr _ => true
  end.

(** [a || b] *)
Definition jsOr (a b : jsval) : jsval := if truthy a then a else b.

Definition isArray (v : jsval) : bool :=
  match v with JArr _ => true | _ => false end.

Definition isString (v : jsval) : bool :=
  match v with JStr _ => true | _ => false end.

(** [Array.isArray(v) ? v : []] *)
Definition arrayOrEmpty (v : jsval) : jsval := if isArray v then v else JArr [].

(** Calling a [String.prototype] method [m] on [v]: reading a property of
    [undefined] or [null] is a TypeError, and so is calling a method that the
    value does not have. *)
Definition stringMethod (m : string) (f : string → string) (v : jsval) : outcome string :=
  match v with
  | JStr s => Return (f s)
  | JUndefined | JNull =>
      Throw (TypeError ("Cannot read properties of undefined (reading '" +:+ m +:+ "')"))
  | _ => Throw (TypeError (m +:+ " is not a function"))
  end.

Definition lowerChar (c : ascii) : ascii :=
  let n := Ascii.N_of_ascii c in
  if ((65 <=? n) && (n <=? 90))%N then Ascii.ascii_of_N (n + 32) else c.

Fixpoint lower (s : string) : string :=
  match s with
  | EmptyString => EmptyString
  | String c r => String (lowerChar c) (lower r)
  end.

Fixpoint trimStart (s : string) : string :=
  match s with
  | String c r => if Ascii.is_space c then trimStart r else s
  | EmptyString => EmptyString
  end.

Definition trimString (s : string) : string :=
  String.rev (trimStart (String.rev (trimStart s))).

Definition toLowerCase : jsval → outcome string := stringMethod "toLowerCase" lower.
Definition trim : jsval → outcome string := stringMethod "trim" trimString.

End JS.
Import JS.

(** ** Data acquisition: [GovernmentDataScraper.cleanAndDeduplicateData] *)

Module DataScraper.

Section Clean.
(** What [String.prototype.toLowerCase] and [String.prototype.trim] compute
    on a string is the engine's business (case mapping and white space of
    all of Unicode): [lowerOf] and [trimOf] are any two functions. *)
Variable lowerOf : string → string.
Variable trimOf : string → string.
(** [genId i] is the string [`scheme-${Date.now()}-${Math.random()...}`]
    and [stamp i] the string [new Date().toISOString()] evaluated while
    the record at position [i] of the input is cleaned. *)
Variable genId : nat → string.
Variable stamp : nat → string.

(** The template literal
    [`${scheme.name.toLowerCase()}-${scheme.category.toLowerCase()}`]. *)
Definition schemeKey (scheme : jsobj) : outcome string :=
  n ← stringMethod "toLowerCase" lowerOf (getField scheme "name");
  c ← stringMethod "toLowerCase" lowerOf (getField scheme "category");
  mret (n +:+ "-" +:+ c).

Definition textOr (scheme : jsobj) (f d : string) : string * jsval :=
  (f, jsOr (getField scheme f) (JStr d)).
Definition listOf (scheme : jsobj) (f : string) : string * jsval :=
  (f, arrayOrEmpty (getField scheme f)).

(** The object literal [cleanedScheme], field by field. *)
Definition cleanedFields (i : nat) (scheme : jsobj) (name : string)
    : list (string * jsval) :=
  [ ("id", jsOr (getField scheme "id") (JStr (genId i)));
    ("name", JStr name);
    textOr scheme "nameHindi" "";
    textOr scheme "nameTamil" "";
    textOr scheme "category" "General";
    textOr scheme "categoryHindi" "";
    textOr scheme "categoryTamil" "";
    textOr scheme "objective" "";
    textOr scheme "objectiveHindi" "";
    textOr scheme "objectiveTamil" "";
    listOf scheme "eligibility";
    listOf scheme "eligibilityHindi";
    listOf scheme "eligibilityTamil";
    listOf scheme "documentsRequired";
    listOf scheme "documentsRequiredHindi";
    listOf scheme "documentsRequiredTamil";
    listOf scheme "applicationProcedure";
    listOf scheme "applicationProcedureHindi";
    listOf scheme "applicationProcedureTamil";
    textOr scheme "benefits" "";
    textOr scheme "benefitsHindi" "";
    textOr scheme "benefitsTamil" "";
    textOr scheme "deadline" "Ongoing";
    textOr scheme "deadlineHindi" "";
    textOr scheme "deadlineTamil" "";
    textOr scheme "contactInfo" "";
    textOr scheme "contactInfoHindi" "";
    textOr scheme "contactInfoTamil" "";
    textOr scheme "website" "";
    textOr scheme "source" "Unknown";
    ("lastUpdated", JStr (stamp i));
    listOf scheme "tags" ].

Definition cleanedScheme (i : nat) (scheme : jsobj) (name : string) : jsobj :=
  list_to_map (cleanedFields i scheme name).

(** One iteration of the [forEach] callback on the record at position [i]:
    [None] when the record is skipped, [Some (key, cleaned)] when it is
    pushed. *)
Definition cleanStep (seen : gset string) (i : nat) (scheme : jsobj)
    : outcome (option (string * jsobj)) :=
  key ← schemeKey scheme;
  if bool_decide (key ∈ seen) then mret None
  else if negb (truthy (getField scheme "name")) then mret None
  else
    trimmed ← stringMethod "trim" trimOf (getField scheme "name");
    if truthy (JStr trimmed)
    then mret (Some (key, cleanedScheme i scheme trimmed))
    else mret None.

Fixpoint cleanLoop (i : nat) (schemes : list jsobj) (seen : gset string)
    (cleaned : list jsobj) : outcome (list jsobj) :=
  match schemes with
  | [] => mret cleaned
  | scheme :: rest =>
      r ← cleanStep seen i scheme;
      match r with
      | Some (key, c) => cleanLoop (S i) rest ({[key]} ∪ seen) (cleaned ++ [c])
      | None => cleanLoop (S i) rest seen cleaned
      end
  end.

Definition cleanAndDeduplicateData (schemes : list jsobj) : outcome (list jsobj) :=
  cleanLoop 0 schemes ∅ [].

End Clean.

(** The names of the fields of a cleaned record. *)
Definition cleanedFieldNames : list string :=
  (cleanedFields (λ _, "") (λ _, "") 0 ∅ "").*1.

End DataScraper.

(** ** More of JavaScript: conversions, arrays, 32-bit integers *)

Module JSLib.

Definition newline : string := String (ascii_of_nat 10) "".

Definition joinStrings (sep : string) (l : list string) : string :=
  match l with
  | [] => ""
  | x :: r => fold_left (λ acc y, acc +:+ sep +:+ y) r x
  end.

(** ToString; inside [Array.prototype.join] the elements [undefined] and
    [null] give the empty string. *)
Fixpoint toStr (v : jsval) : string :=
  match v with
  | JUndefined => "undefined"
  | JNull => "null"
  | JBool true => "true"
  | JBool false => "false"
  | JNum n => pretty n
  | JStr s => s
  | JArr l =>
      joinStrings ","
        (List.map (λ x, match x with JUndefined | JNull => "" | _ => toStr x end) l)
  end.

Definition elemStr (v : jsval) : string :=
  match v with JUndefined | JNull => "" | _ => toStr v end.

(** [arr.join(sep)] *)
Definition join (sep : string) (l : list jsval) : string :=
  joinStrings sep (elemStr <$> l).

(** [v?.join(sep)]: the optional chain yields [undefined] on [undefined] and
    [null]; on any other value without a [join] method the call is a
    TypeError. *)
Definition optJoin (sep : string) (v : jsval) : outcome jsval :=
  match v with
  | JUndefined | JNull => Return JUndefined
  | JArr l => Return (JStr (join sep l))
  | _ => Throw (TypeError "join is not a function")
  end.

(** [v.join(sep)] on a value that was not tested for being an array. *)
Definition mustJoin (sep : string) (v : jsval) : outcome string :=
  match v with
  | JArr l => Return (join sep l)
  | JUndefined | JNull =>
      Throw (TypeError "Cannot read properties of undefined (reading 'join')")
  | _ => Throw (TypeError "join is not a function")
  end.

(** [arr.slice(start, end)] with relative (negative) indices. *)
Definition sliceIndex (len i : Z) : Z :=
  if (i <? 0)%Z then Z.max (len + i) 0 else Z.min i len.

Definition slice {A} (l : list A) (start stop : Z) : list A :=
  let len := Z.of_nat (length l) in
  let from := sliceIndex len start in
  let to := sliceIndex len stop in
  take (Z.to_nat (to - from)) (drop (Z.to_nat from) l).

(** [text.split(/\s+/)] *)
Fixpoint splitWhitespace (cur : string) (inGap : bool) (s : string) : list string :=
  match s with
  | EmptyString => [String.rev cur]
  | String c r =>
      if Ascii.is_space c
      then (if inGap then splitWhitespace cur true r
            else String.rev cur :: splitWhitespace "" true r)
      else splitWhitespace (String c cur) false r
  end.

(** [text.split(' ')] *)
Fixpoint splitSpace (cur : string) (s : string) : list string :=
  match s with
  | EmptyString => [String.rev cur]
  | String c r =>
      if bool_decide (c = " "%char)
      then String.rev cur :: splitSpace "" r
      else splitSpace (String c cur) r
  end.

Fixpoint isPrefix (p s : string) : bool :=
  match p, s with
  | EmptyString, _ => true
  | String a p', String b s' => bool_decide (a = b) && isPrefix p' s'
  | String _ _, EmptyString => false
  end.

(** [s.includes(p)] on strings *)
Fixpoint includes (s p : string) : bool :=
  isPrefix p s || match s with EmptyString => false | String _ r => includes r p end.

(** ToInt32 *)
Definition toInt32 (z : Z) : Z := ((z + 2 ^ 31) mod 2 ^ 32 - 2 ^ 31)%Z.

Definition charCode (c : ascii) : Z := Z.of_N (N_of_ascii c).

Fixpoint chars (s : string) : list ascii :=
  match s with
  | EmptyString => []
  | String c r => c :: chars r
  end.

End JSLib.
Import JSLib.

(** ** Numbers: the arithmetic [cosineSimilarity] is written in

    The code runs on IEEE-754 doubles ([float]); the same text read over the
    real numbers is the exact-arithmetic function it approximates. *)

Class Arith (T : Type) := {
  num_zero : T;
  num_add : T → T → T;
  num_mul : T → T → T;
  num_div : T → T → T;
  num_sqrt : T → T;
  (** [x === 0] *)
  num_is_zero : T → bool
}.

#[global] Instance float_arith : Arith float := {|
  num_zero := 0%float;
  num_add := PrimFloat.add;
  num_mul := PrimFloat.mul;
  num_div := PrimFloat.div;
  num_sqrt := PrimFloat.sqrt;
  num_is_zero x := PrimFloat.eqb x 0%float
|}.

#[global] Instance real_arith : Arith R := {|
  num_zero := 0%R;
  num_add := Rplus;
  num_mul := Rmult;
  num_div := Rdiv;
  num_sqrt := R_sqrt.sqrt;
  num_is_zero x := if Req_dec_T x 0%R then true else false
|}.

Section Cosine.
Context {T : Type} `{Arith T}.

(** The body of the [for] loop, on the triple
    [(dotProduct, normA, normB)]. *)
Definition cosineStep (acc : T * T * T) (ab : T * T) : T * T * T :=
  let '(dotProduct, normA, normB) := acc in
  let '(a, b) := ab in
  (num_add dotProduct (num_mul a b),
   num_add normA (num_mul a a),
   num_add normB (num_mul b b)).

Definition cosineSimilarity (vecA vecB : list T) : outcome T :=
  if negb (length vecA =? length vecB)
  then Throw (Error "Vectors must have the same length")
  else
    let '(dotProduct, normA, normB) :=
      fold_left cosineStep (zip vecA vecB) (num_zero, num_zero, num_zero) in
    let normA := num_sqrt normA in
    let normB := num_sqrt normB in
    if num_is_zero normA || num_is_zero normB
    then Return num_zero
    else Return (num_div dotProduct (num_mul normA normB)).
End Cosine.

(** ** The process state and the outside world *)

Definition vec := list float.

(** The metadata object stored with each vector. *)
Record Metadata := mkMetadata {
  md_id : jsval;
  md_name : jsval;
  md_category : jsval;
  md_tags : jsval;
  md_language : string
}.

(** An element of [inMemoryVectors]. *)
Record VectorEntry := mkVectorEntry {
  ve_id : jsval;
  ve_text : string;
  ve_metadata : Metadata
}.

(** The argument of one [collection.add] call. *)
Record AddCall := mkAddCall {
  add_documents : list string;
  add_metadatas : list Metadata;
  add_ids : list jsval;
  add_embeddings : list vec
}.

(** What [collection.query] resolves to; a metadata entry may be [null]. *)
Record QueryResult := mkQueryResult {
  qr_metadatas : list (list (option Metadata));
  qr_distances : list (list float)
}.

(** A search result. *)
Record Hit := mkHit {
  hit_id : jsval;
  hit_name : jsval;
  hit_category : jsval;
  hit_score : float;
  hit_metadata : Metadata
}.

Record ValidationResults := mkValidationResults {
  totalTestQueries : nat;
  successfulRetrievals : nat;
  averageRelevanceScore : float;
  responseTime : Z
}.

(** The object written to [training_results.json]. *)
Record TrainingResults := mkTrainingResults {
  tr_totalSchemes : nat;
  tr_trainingAccuracy : float;
  tr_lastTrainingDate : string;
  tr_modelVersion : string;
  tr_validationResults : ValidationResults
}.

Record TrainingExample := mkTrainingExample {
  ex_query : string;
  ex_language : string;
  ex_expectedScheme : jsval;
  ex_expectedResponse : string;
  ex_difficulty : string;
  ex_category : string
}.

(** Files of the data directory, by what was serialised into them.  A file
    is kept as the value that [JSON.stringify] was given: parsing it back
    yields that value again for all that the code reads from it (ids and
    timestamps of cleaned records, which are defined primitives). *)
Inductive FileContent :=
  | FSchemes (schemes : list jsobj)
  | FScrapingMetadata (totalSchemes : nat) (lastUpdated : string)
      (sources categories : list jsval)
  | FExamples (examples : list TrainingExample)
  | FResults (results : TrainingResults).

Definition scrapedSchemesFile : string := "scraped_schemes.json".
Definition scrapingMetadataFile : string := "scraping_metadata.json".
Definition trainingExamplesFile : string := "training_examples.json".
Definition trainingResultsFile : string := "training_results.json".

(** The module-level variables of [vectorDB.js], the data directory, and two
    ghost fields: [tick] counts the interactions with the outside world so
    far, and [addCalls] records the [collection.add] calls issued. *)
Record World := mkWorld {
  tick : nat;
  collection : bool;
  inMemoryVectors : list VectorEntry;
  inMemoryEmbeddings : list vec;
  addCalls : list AddCall;
  files : gmap string FileContent
}.

(** Everything the code does not decide: each field answers the interaction
    made at a given tick, so that any behaviour of the services, of the
    clock and of the file system, however erratic, is some [Env]. *)
Record Env := mkEnv {
  (** [localLLM.generateEmbedding(text)] *)
  llmEmbedding : nat → jsval → outcome vec;
  (** [collection.add(...)] *)
  chromaAdd : nat → AddCall → outcome unit;
  (** [collection.query({queryEmbeddings: [q], nResults})] *)
  chromaQuery : nat → vec → Z → outcome QueryResult;
  (** [axios.get(baseUrl + '/api/schemes')]: [response.data.schemes], if any *)
  mySchemeApi : nat → outcome (option (list jsobj));
  (** the scheme objects extracted by [scrapeMySchemeWebsite] from the page *)
  mySchemePage : nat → outcome (list jsobj);
  (** [new Date().toISOString()] and [Date.now()] *)
  nowISO : nat → string;
  nowMs : nat → Z;
  (** [`scheme-${Date.now()}-${Math.random()...}`] *)
  randomId : nat → string;
  (** [fs.mkdir] and [fs.writeFile] on a path *)
  fsMkdir : nat → outcome unit;
  fsWrite : nat → string → outcome unit;
  (** [process.env.USE_LOCAL_DATA === 'true'], and the array parsed from the
      local JSON or CSV file ([None] when reading or parsing fails or the
      result is not an array) *)
  useLocalData : bool;
  localData : nat → option (list jsobj);
  (** [parseInt(process.env.BATCH_SIZE || '500')], taken to be an integer
      (for a [BATCH_SIZE] that is no number it is NaN, which is left out) *)
  defaultBatchSize : Z
}.

(** The result of running an [async] function: it resolves, it rejects, or
    (a loop that never ends) it does neither. *)
Inductive res (A : Type) :=
  | Ret (a : A) (w : World)
  | Err (e : error) (w : World)
  | Hang.
Arguments Ret {A} a w.
Arguments Err {A} e w.
Arguments Hang {A}.

Definition M (A : Type) : Type := World → res A.

#[global] Instance M_ret : MRet M := λ A a w, Ret a w.
#[global] Instance M_bind : MBind M := λ A B f m w,
  match m w with
  | Ret a w' => f a w'
  | Err e w' => Err e w'
  | Hang => Hang
  end.

Module Run.

Definition getWorld : M World := λ w, Ret w w.
Definition modify (f : World → World) : M unit := λ w, Ret tt (f w).
Definition hang {A} : M A := λ _, Hang.
Definition throw {A} (e : error) : M A := λ w, Err e w.

Definition liftO {A} (o : outcome A) : M A := λ w,
  match o with
  | Return a => Ret a w
  | Throw e => Err e w
  end.

(** [try { m } catch (error) { h error }] *)
Definition tryCatch {A} (m : M A) (h : error → M A) : M A := λ w,
  match m w with
  | Err e w' => h e w'
  | r => r
  end.

Definition bump (n : nat) (w : World) : World :=
  mkWorld (n + tick w) (collection w) (inMemoryVectors w) (inMemoryEmbeddings w)
          (addCalls w) (files w).

(** One interaction with the outside world. *)
Definition ask {A} (f : nat → outcome A) : M A := λ w,
  match f (tick w) with
  | Return a => Ret a (bump 1 w)
  | Throw e => Err e (bump 1 w)
  end.

Definition logAdd (call : AddCall) (w : World) : World :=
  mkWorld (tick w) (collection w) (inMemoryVectors w) (inMemoryEmbeddings w)
          (addCalls w ++ [call]) (files w).

Definition pushVector (entry : VectorEntry) (embedding : vec) (w : World) : World :=
  mkWorld (tick w) (collection w) (inMemoryVectors w ++ [entry])
          (inMemoryEmbeddings w ++ [embedding]) (addCalls w) (files w).

Definition putFile (path : string) (c : FileContent) (w : World) : World :=
  mkWorld (tick w) (collection w) (inMemoryVectors w) (inMemoryEmbeddings w)
          (addCalls w) (<[path := c]> (files w)).

(** [for (const x of xs) { await body x }] *)
Fixpoint forEachM {A} (body : A → M unit) (xs : list A) : M unit :=
  match xs with
  | [] => mret tt
  | x :: r => _ ← body x; forEachM body r
  end.

End Run.
Import Run.

(** ** [vectorDB.js] *)

Module VectorDB.

(** [generateSimpleEmbedding]: the hash-based fallback. *)
Definition hashStep (a : Z) (b : ascii) : Z :=
  toInt32 (toInt32 (a * 2 ^ 5) - a + charCode b).

Definition wordHash (word : string) : Z := fold_left hashStep (chars word) 0%Z.

Definition hashEmbedding (dim : nat) (text : string) : vec :=
  fold_left
    (λ embedding word,
       alter (λ x, PrimFloat.add x 1%float)
             (Z.to_nat (Z.abs (wordHash word) mod Z.of_nat dim)) embedding)
    (splitWhitespace "" false (lower text))
    (replicate dim 0%float).

Definition generateSimpleEmbedding (text : jsval) : outcome vec :=
  lowered ← toLowerCase text;
  mret (hashEmbedding 1536 lowered).

(** [SimpleLocalLLMService.generateEmbedding], the provider chosen by
    default: the same hash on 384 dimensions. *)
Definition simpleLocalLLM (text : jsval) : outcome vec :=
  lowered ← toLowerCase text;
  mret (hashEmbedding 384 lowered).

(** [createSchemeText]: the template literal, then [trim()]. *)
Definition createSchemeText (scheme : jsobj) : outcome string :=
  eligibility ← optJoin ", " (getField scheme "eligibility");
  documents ← optJoin ", " (getField scheme "documentsRequired");
  procedure ← optJoin ", " (getField scheme "applicationProcedure");
  tags ← optJoin ", " (getField scheme "tags");
  let line (label : string) (v : jsval) := newline +:+ "    " +:+ label +:+ toStr v in
  mret (trimString (
    line "Scheme Name: " (getField scheme "name") +:+
    line "Category: " (getField scheme "category") +:+
    line "Objective: " (getField scheme "objective") +:+
    line "Eligibility: " eligibility +:+
    line "Documents Required: " documents +:+
    line "Application Procedure: " procedure +:+
    line "Benefits: " (getField scheme "benefits") +:+
    line "Contact Info: " (getField scheme "contactInfo") +:+
    line "Website: " (getField scheme "website") +:+
    line "Tags: " tags +:+
    newline +:+ "  ")).

(** The metadata literal; [tags: scheme.tags?.join(', ') || '']. *)
Definition schemeMetadata (scheme : jsobj) : outcome Metadata :=
  tags ← optJoin ", " (getField scheme "tags");
  mret (mkMetadata (getField scheme "id") (getField scheme "name")
          (getField scheme "category") (jsOr tags (JStr "")) "en").

Definition slotHit (score : float) (id : jsval) (metadata : Metadata) : Hit :=
  mkHit id (md_name metadata) (md_category metadata) score metadata.

(** The comparator [(a, b) => b.similarity - a.similarity] is negative when
    [a] goes first.  [Array.prototype.sort] is stable; the model inserts the
    elements one by one, each behind those it does not strictly precede.
    (With a NaN among the similarities the comparator is inconsistent and
    the order JavaScript produces is implementation-defined.) *)
Definition goesFirst (a b : nat * float) : bool :=
  PrimFloat.ltb (PrimFloat.sub b.2 a.2) 0%float.

Fixpoint insertSorted (x : nat * float) (l : list (nat * float)) : list (nat * float) :=
  match l with
  | [] => [x]
  | y :: r => if goesFirst x y then x :: y :: r else y :: insertSorted x r
  end.

Definition sortBySimilarity (l : list (nat * float)) : list (nat * float) :=
  fold_left (λ acc x, insertSorted x acc) l [].

Section WithEnv.
Variable env : Env.

(** [generateEmbedding]: the provider, and on its failure the fallback. *)
Definition generateEmbedding (text : jsval) : M vec :=
  tryCatch (ask (λ t, llmEmbedding env t text))
           (λ _, liftO (generateSimpleEmbedding text)).

Definition collectionAdd (call : AddCall) : M unit :=
  _ ← modify (logAdd call);
  ask (λ t, chromaAdd env t call).

Definition collectionQuery (q : vec) (nResults : Z) : M QueryResult :=
  ask (λ t, chromaQuery env t q nResults).

(** [searchInMemoryVectors] *)
Definition searchInMemoryVectors (w : World) (queryEmbedding : vec) (limit : Z)
    : outcome (list Hit) :=
  similarities ←
    mapM (λ p : nat * vec,
            similarity ← cosineSimilarity queryEmbedding p.2;
            mret (p.1, similarity))
         (imap (λ index embedding, (index, embedding)) (inMemoryEmbeddings w));
  mapM (λ item : nat * float,
          match inMemoryVectors w !! item.1 with
          | Some vector =>
              Return (slotHit item.2 (ve_id vector) (ve_metadata vector))
          | None =>
              Throw (TypeError "Cannot read properties of undefined (reading 'id')")
          end)
       (slice (sortBySimilarity similarities) 0 limit).

(** The [map] over [results.metadatas[0]] on the ChromaDB path. *)
Definition chromaHits (results : QueryResult) : outcome (list Hit) :=
  match qr_metadatas results !! 0 with
  | None => Throw (TypeError "Cannot read properties of undefined (reading 'map')")
  | Some metadatas =>
      mapM (λ p : nat * option Metadata,
              match p.2 with
              | None => Throw (TypeError "Cannot read properties of null (reading 'id')")
              | Some metadata =>
                  match qr_distances results !! 0 with
                  | None => Throw (TypeError "Cannot read properties of undefined")
                  | Some distances =>
                      Return (slotHit
                                (PrimFloat.sub 1%float (default nan (distances !! p.1)))
                                (md_id metadata) metadata)
                  end
              end)
           (imap (λ index metadata, (index, metadata)) metadatas)
  end.

(** The body of the [try] block of [searchSimilarSchemes]. *)
Definition searchBody (query : jsval) (limit : Z) : M (list Hit) :=
  queryEmbedding ← generateEmbedding query;
  w ← getWorld;
  if collection w then
    results ← collectionQuery queryEmbedding limit;
    liftO (chromaHits results)
  else
    liftO (searchInMemoryVectors w queryEmbedding limit).

Definition searchSimilarSchemes (query : jsval) (limit : Z) : M (list Hit) :=
  tryCatch (searchBody query limit) (λ _, mret []).

(** [addSchemeToVectorDB] *)
Definition addSchemeBody (scheme : jsobj) : M unit :=
  schemeText ← liftO (createSchemeText scheme);
  embedding ← generateEmbedding (JStr schemeText);
  metadata ← liftO (schemeMetadata scheme);
  w ← getWorld;
  if collection w then
    collectionAdd (mkAddCall [schemeText] [metadata] [getField scheme "id"] [embedding])
  else
    modify (pushVector (mkVectorEntry (getField scheme "id") schemeText metadata) embedding).

Definition addSchemeToVectorDB (scheme : jsobj) : M unit :=
  tryCatch (addSchemeBody scheme) (λ _, mret tt).

(** The inner [for (const scheme of batch)] of the ChromaDB path. *)
Fixpoint embedBatch (batch : list jsobj) (acc : AddCall) : M AddCall :=
  match batch with
  | [] => mret acc
  | scheme :: rest =>
      schemeText ← liftO (createSchemeText scheme);
      embedding ← generateEmbedding (JStr schemeText);
      metadata ← liftO (schemeMetadata scheme);
      embedBatch rest
        (mkAddCall (add_documents acc ++ [schemeText])
                   (add_metadatas acc ++ [metadata])
                   (add_ids acc ++ [getField scheme "id"])
                   (add_embeddings acc ++ [embedding]))
  end.

(** The outer [for (let start = 0; start < schemes.length; start += batchSize)].
    Each iteration spends one unit of [fuel].  With [batchSize >= 1] the loop
    runs at most [schemes.length] times, which is the fuel it is given; with
    [batchSize <= 0] the loop of the source goes on for as long as its calls
    succeed, and the model stops following it when the fuel is spent. *)
Fixpoint chunkLoop (fuel : nat) (schemes : list jsobj) (batchSize start : Z) : M unit :=
  if (start <? Z.of_nat (length schemes))%Z then
    match fuel with
    | 0 => hang
    | S fuel' =>
        call ← embedBatch (slice schemes start (start + batchSize)) (mkAddCall [] [] [] []);
        _ ← collectionAdd call;
        chunkLoop fuel' schemes batchSize (start + batchSize)%Z
    end
  else mret tt.

(** [addSchemesToVectorDB]; its [catch] logs and rethrows. *)
Definition addSchemesToVectorDB (schemes : list jsobj) (batchSize : Z) : M unit :=
  tryCatch
    (match schemes with
     | [] => mret tt
     | _ =>
         w ← getWorld;
         if collection w then chunkLoop (length schemes) schemes batchSize 0
         else
           forEachM (λ scheme,
               schemeText ← liftO (createSchemeText scheme);
               embedding ← generateEmbedding (JStr schemeText);
               metadata ← liftO (schemeMetadata scheme);
               modify (pushVector (mkVectorEntry (getField scheme "id") schemeText metadata)
                                  embedding))
             schemes
     end)
    (λ error, throw error).

End WithEnv.
End VectorDB.

(** ** [dataScraper.js]: fetching, saving, loading *)

Module Acquisition.
Import DataScraper.

(** The records built into [fetchNSPData] and [fetchPMKisanData]. *)
Definition nspMeritScholarship (lastUpdated : string) : jsobj :=
  list_to_map [
    ("id", JStr "nsp-merit-scholarship");
    ("name", JStr "Merit Scholarship Scheme");
    ("nameHindi", JStr "मेरिट छात्रवृत्ति योजना");
    ("nameTamil", JStr "மெரிட் உதவித்தொகை திட்டம்");
    ("category", JStr "Education");
    ("categoryHindi", JStr "शिक्षा");
    ("categoryTamil", JStr "கல்வி");
    ("objective", JStr "To provide financial assistance to meritorious students from economically weaker sections");
    ("objectiveHindi", JStr "आर्थिक रूप से कमजोर वर्ग के मेधावी छात्रों को वित्तीय सहायता प्रदान करना");
    ("objectiveTamil", JStr "பொருளாதார ரீதியாக பலவீனமான பிரிவின் மேதையான மாணவர்களுக்கு நிதி உதவி வழங்க");
    ("eligibility", JArr [JStr "Students from economically weaker sections";
          JStr "Minimum 50% marks in previous examination";
          JStr "Family income less than ₹2.5 lakh per annum"]);
    ("eligibilityHindi", JArr [JStr "आर्थिक रूप से कमजोर वर्ग के छात्र";
          JStr "पिछली परीक्षा में न्यूनतम 50% अंक";
          JStr "पारिवारिक आय ₹2.5 लाख प्रति वर्ष से कम"]);
    ("eligibilityTamil", JArr [JStr "பொருளாதார ரீதியாக பலவீனமான பிரிவின் மாணவர்கள்";
          JStr "முந்தைய தேர்வில் குறைந்தது 50% மதிப்பெண்கள்";
          JStr "குடும்ப வருமானம் ஆண்டுக்கு ₹2.5 லட்சத்திற்கு குறைவு"]);
    ("benefits", JStr "₹10,000 to ₹20,000 per annum based on course");
    ("benefitsHindi", JStr "कोर्स के आधार पर प्रति वर्ष ₹10,000 से ₹20,000");
    ("benefitsTamil", JStr "பாடத்தின் அடிப்படையில் ஆண்டுக்கு ₹10,000 முதல் ₹20,000 வரை");
    ("contactInfo", JStr "NSP Helpline: 0120-6619540");
    ("contactInfoHindi", JStr "एनएसपी हेल्पलाइन: 0120-6619540");
    ("contactInfoTamil", JStr "என்.எஸ்.பி உதவி வரி: 0120-6619540");
    ("website", JStr "https://scholarships.gov.in");
    ("source", JStr "NSP");
    ("lastUpdated", JStr lastUpdated);
    ("tags", JArr [JStr "education"; JStr "scholarship"; JStr "merit"; JStr "nsp"]) ].

Definition pmKisanSammanNidhi (lastUpdated : string) : jsobj :=
  list_to_map [
    ("id", JStr "pm-kisan-samman-nidhi");
    ("name", JStr "PM Kisan Samman Nidhi");
    ("nameHindi", JStr "पीएम किसान सम्मान निधि");
    ("nameTamil", JStr "பி.எம். किसान सम्मान निधि");
    ("category", JStr "Agriculture");
    ("categoryHindi", JStr "कृषि");
    ("categoryTamil", JStr "விவசாயம்");
    ("objective", JStr "To provide income support to all landholding farmers families in the country");
    ("objectiveHindi", JStr "देश के सभी भूमिधारक किसान परिवारों को आय सहायता प्रदान करना");
    ("objectiveTamil", JStr "நாட்டின் அனைத்து நில உரிமையாளர் விவசாயி குடும்பங்களுக்கும் வருமான ஆதரவு வழங்க");
    ("eligibility", JArr [JStr "All landholding farmers families";
          JStr "Small and marginal farmers";
          JStr "Family should have cultivable land"]);
    ("eligibilityHindi", JArr [JStr "सभी भूमिधारक किसान परिवार";
          JStr "छोटे और सीमांत किसान";
          JStr "परिवार के पास खेती योग्य भूमि होनी चाहिए"]);
    ("eligibilityTamil", JArr [JStr "அனைத்து நில உரிமையாளர் விவசாயி குடும்பங்கள்";
          JStr "சிறிய மற்றும் விளிம்பு விவசாயிகள்";
          JStr "குடும்பத்திற்கு விவசாயம் செய்யக்கூடிய நிலம் இருக்க வேண்டும்"]);
    ("documentsRequired", JArr [JStr "Land records";
          JStr "Aadhaar card";
          JStr "Bank account details";
          JStr "Mobile number"]);
    ("documentsRequiredHindi", JArr [JStr "भूमि रिकॉर्ड";
          JStr "आधार कार्ड";
          JStr "बैंक खाता विवरण";
          JStr "मोबाइल नंबर"]);
    ("documentsRequiredTamil", JArr [JStr "நில பதிவுகள்";
          JStr "ஆதார் அட்டை";
          JStr "வங்கி கணக்கு விவரங்கள்";
          JStr "மொபைல் எண்"]);
    ("applicationProcedure", JArr [JStr "Visit nearest Common Service Centre (CSC)";
          JStr "Submit required documents";
          JStr "Fill the application form";
          JStr "Get application receipt"]);
    ("applicationProcedureHindi", JArr [JStr "निकटतम कॉमन सर्विस सेंटर (CSC) पर जाएं";
          JStr "आवश्यक दस्तावेज जमा करें";
          JStr "आवेदन पत्र भरें";
          JStr "आवेदन रसीद प्राप्त करें"]);
    ("applicationProcedureTamil", JArr [JStr "அருகிலுள்ள பொது சேவை மையத்திற்குச் செல்லுங்கள்";
          JStr "தேவையான ஆவணங்களை சமர்ப்பிக்கவும்";
          JStr "விண்ணப்ப படிவத்தை நிரப்பவும்";
          JStr "விண்ணப்ப ரசீதைப் பெறவும்"]);
    ("benefits", JStr "₹6,000 per year in three equal installments of ₹2,000 each");
    ("benefitsHindi", JStr "प्रति वर्ष ₹6,000 तीन समान किस्तों में ₹2,000 प्रत्येक");
    ("benefitsTamil", JStr "ஆண்டுக்கு ₹6,000 மூன்று சமமான தவணைகளில் ₹2,000 ஒவ்வொன்றும்");
    ("deadline", JStr "Ongoing");
    ("deadlineHindi", JStr "चल रहा है");
    ("deadlineTamil", JStr "நடந்து கொண்டிருக்கிறது");
    ("contactInfo", JStr "PM-KISAN Helpline: 1800-180-1551");
    ("contactInfoHindi", JStr "पीएम-किसान हेल्पलाइन: 1800-180-1551");
    ("contactInfoTamil", JStr "பி.எம்.-किसान उतावी वरि: 1800-180-1551");
    ("website", JStr "https://pmkisan.gov.in");
    ("source", JStr "PM Kisan");
    ("lastUpdated", JStr lastUpdated);
    ("tags", JArr [JStr "agriculture"; JStr "farmer"; JStr "income support"; JStr "pm kisan"]) ].

Definition mySchemeBaseUrl : string := "https://www.myscheme.gov.in".

(** [processMySchemeAPIResponse]; [stampAt index] is [new Date().toISOString()]
    as evaluated for the element at [index]. *)
Definition processMySchemeAPIResponse (stampAt : nat → string) (schemes : list jsobj)
    : list jsobj :=
  imap (λ index scheme,
      list_to_map [
        ("id", JStr ("myscheme-api-" +:+ pretty index));
        ("name", jsOr (getField scheme "schemeName") (getField scheme "name"));
        ("category", jsOr (getField scheme "category") (JStr "General"));
        ("objective", jsOr (getField scheme "description") (getField scheme "objective"));
        ("eligibility", jsOr (getField scheme "eligibility") (JArr []));
        ("benefits", jsOr (getField scheme "benefits") (JStr ""));
        ("contactInfo", jsOr (getField scheme "contactInfo") (JStr ""));
        ("website", jsOr (getField scheme "website") (JStr mySchemeBaseUrl));
        ("source", JStr "MyScheme.gov.in (API)");
        ("lastUpdated", JStr (stampAt index));
        ("tags", jsOr (getField scheme "tags") (JArr [])) ])
    schemes.

(** [===] between a value of the fresh data and a value parsed from a file:
    primitives compare by value, and two arrays are never the same object. *)
Definition strictEq (a b : jsval) : bool :=
  match a, b with
  | JUndefined, JUndefined | JNull, JNull => true
  | JBool x, JBool y => bool_decide (x = y)
  | JNum x, JNum y => bool_decide (x = y)
  | JStr x, JStr y => bool_decide (x = y)
  | _, _ => false
  end.

(** [[...new Set(values)]] *)
Definition distinctValues (values : list jsval) : list jsval :=
  fold_left (λ acc v, if existsb (strictEq v) acc then acc else acc ++ [v]) values [].

Section WithEnv.
Variable env : Env.

(** [new Date().toISOString()] *)
Definition isoNow : M string := ask (λ t, Return (nowISO env t)).
(** [Date.now()] *)
Definition msNow : M Z := ask (λ t, Return (nowMs env t)).

(** [fs.writeFile(path, JSON.stringify(content))] *)
Definition writeFile (path : string) (content : FileContent) : M unit :=
  _ ← ask (λ t, fsWrite env t path);
  modify (putFile path content).

Definition scrapeMySchemeWebsite : M (list jsobj) :=
  tryCatch (ask (mySchemePage env)) (λ _, mret []).

Definition fetchMySchemeData : M (list jsobj) :=
  tryCatch
    (fromApi ←
       tryCatch
         (schemes ← ask (mySchemeApi env);
          match schemes with
          | Some schemes =>
              w ← getWorld;
              _ ← modify (bump (length schemes));
              mret (Some (processMySchemeAPIResponse (λ i, nowISO env (tick w + i)) schemes))
          | None => mret None
          end)
         (λ _, mret None);
     match fromApi with
     | Some schemes => mret schemes
     | None => scrapeMySchemeWebsite
     end)
    (λ _, mret []).

Definition fetchNSPData : M (list jsobj) :=
  tryCatch (lastUpdated ← isoNow; mret [nspMeritScholarship lastUpdated]) (λ _, mret []).

Definition fetchPMKisanData : M (list jsobj) :=
  tryCatch (lastUpdated ← isoNow; mret [pmKisanSammanNidhi lastUpdated]) (λ _, mret []).

(** [saveDataToFile]; its [catch] logs and rethrows. *)
Definition saveDataToFile (schemes : list jsobj) : M unit :=
  tryCatch
    (_ ← ask (fsMkdir env);
     _ ← writeFile scrapedSchemesFile (FSchemes schemes);
     lastUpdated ← isoNow;
     writeFile scrapingMetadataFile
       (FScrapingMetadata (length schemes) lastUpdated
          (distinctValues ((λ s, getField s "source") <$> schemes))
          (distinctValues ((λ s, getField s "category") <$> schemes))))
    (λ error, throw error).

(** [fetchAllSchemeData]; its [catch] logs and rethrows.  The clock and the
    random source read while the record at position [i] is cleaned are
    those of tick [tick + i].  Runs of the pipeline clean with the ASCII
    [lower] and [trimString]; what is stated of them reads neither. *)
Definition fetchAllSchemeData : M (list jsobj) :=
  tryCatch
    (myschemeData ← fetchMySchemeData;
     nspData ← fetchNSPData;
     pmkisanData ← fetchPMKisanData;
     let allSchemes := myschemeData ++ nspData ++ pmkisanData in
     w ← getWorld;
     cleanedData ← liftO (cleanAndDeduplicateData lower trimString
                            (λ i, randomId env (tick w + i))
                            (λ i, nowISO env (tick w + i)) allSchemes);
     _ ← modify (bump (length allSchemes));
     _ ← saveDataToFile cleanedData;
     mret cleanedData)
    (λ error, throw error).

(** [loadScrapedData]: the parsed file, or [[]] when it cannot be read. *)
Definition loadScrapedData : M (list jsobj) :=
  w ← getWorld;
  match files w !! scrapedSchemesFile with
  | Some (FSchemes schemes) => mret schemes
  | _ => mret []
  end.

End WithEnv.
End Acquisition.

(** ** [ragTrainer.js]: the training pipeline *)

Module RAGTrainer.
Import VectorDB Acquisition.

(** What [trainRAGModel] and [retrainModel] resolve to. *)
Inductive TrainingReturn :=
  | TrainingCompleted (totalSchemes trainingExamples : nat)
      (validationResults : ValidationResults)
  | NoRetrainingNeeded.

(** *** Step 2: processing *)

Definition createSearchableText (scheme : jsobj) : outcome string :=
  eligibility ← optJoin " " (getField scheme "eligibility");
  tags ← optJoin " " (getField scheme "tags");
  let textParts :=
    List.filter truthy
      [ getField scheme "name"; getField scheme "category"; getField scheme "objective";
        eligibility; getField scheme "benefits"; tags ] in
  mret (lower (join " " textParts)).

Definition stopWords : list string :=
  [ "the"; "a"; "an"; "and"; "or"; "but"; "in"; "on"; "at"; "to"; "for";
    "of"; "with"; "by"; "is"; "are"; "was"; "were"; "be"; "been"; "have";
    "has"; "had"; "do"; "does"; "did"; "will"; "would"; "could"; "should" ].

Definition isStopWord (word : string) : bool :=
  bool_decide (lower word ∈ stopWords).

(** [v?.includes(keyword)], as a condition. *)
Definition optIncludes (v : jsval) (keyword : string) : outcome bool :=
  match v with
  | JUndefined | JNull => Return false
  | JStr s => Return (includes s keyword)
  | JArr l => Return (existsb (strictEq (JStr keyword)) l)
  | _ => Throw (TypeError "includes is not a function")
  end.

(** [keywords.add(word)] on a [Set], kept in insertion order. *)
Definition addKeyword (keywords : list string) (word : string) : list string :=
  if bool_decide (word ∈ keywords) then keywords else keywords ++ [word].

Definition commonKeywords : list string :=
  [ "government"; "scheme"; "benefit"; "support"; "assistance";
    "welfare"; "subsidy"; "grant"; "loan"; "scholarship" ].

Definition extractKeywords (scheme : jsobj) : outcome (list string) :=
  category ← toLowerCase (getField scheme "category");
  let keywords := addKeyword [] category in
  name ← toLowerCase (getField scheme "name");
  let keywords :=
    fold_left (λ ks word, if 3 <? String.length word then addKeyword ks word else ks)
              (splitSpace "" name) keywords in
  objectiveWords ←
    match getField scheme "objective" with
    | JUndefined | JNull => Return []
    | objective => splitSpace "" <$> toLowerCase objective
    end;
  let keywords :=
    fold_left (λ ks word,
                 if (4 <? String.length word) && negb (isStopWord word)
                 then addKeyword ks word else ks)
              objectiveWords keywords in
  foldlM (λ ks keyword,
            found ← optIncludes (getField scheme "searchableText") keyword;
            mret (if found : bool then addKeyword ks keyword else ks))
         keywords commonKeywords.

(** [v && v.length > n] *)
Definition longerThan (v : jsval) (n : nat) : bool :=
  match v with
  | JArr l => n <? length l
  | JStr s => n <? String.length s
  | _ => false
  end.

Definition calculateComplexity (scheme : jsobj) : Z :=
  let complexity := 1%Z in
  let complexity :=
    if longerThan (getField scheme "eligibility") 3 then (complexity + 1)%Z else complexity in
  let complexity :=
    if longerThan (getField scheme "documentsRequired") 5 then (complexity + 1)%Z else complexity in
  let complexity :=
    if longerThan (getField scheme "applicationProcedure") 4 then (complexity + 1)%Z else complexity in
  Z.min complexity 5.

(** [keywords.some(test)], stopping at the first hit. *)
Fixpoint someM (test : string → outcome bool) (keywords : list string) : outcome bool :=
  match keywords with
  | [] => Return false
  | k :: r => hit ← test k; if hit : bool then Return true else someM test r
  end.

Definition highPriorityKeywords : list string :=
  [ "pm kisan"; "mgnrega"; "pmay"; "ayushman"; "jan dhan" ].
Definition mediumPriorityKeywords : list string :=
  [ "scholarship"; "education"; "health"; "employment" ].

Definition calculatePriority (scheme : jsobj) : outcome Z :=
  high ← someM (λ keyword,
                  name ← toLowerCase (getField scheme "name");
                  if includes name keyword then Return true
                  else optIncludes (getField scheme "searchableText") keyword)
               highPriorityKeywords;
  medium ← someM (optIncludes (getField scheme "searchableText")) mediumPriorityKeywords;
  let priority := 1%Z in
  let priority := if high : bool then (priority + 2)%Z else priority in
  let priority := if medium : bool then (priority + 1)%Z else priority in
  mret (Z.min priority 5).

(** [{ ...scheme, searchableText, keywords, complexity, priority }] *)
Definition enhanceScheme (scheme : jsobj) : outcome jsobj :=
  searchableText ← createSearchableText scheme;
  keywords ← extractKeywords scheme;
  let complexity := calculateComplexity scheme in
  priority ← calculatePriority scheme;
  mret (<["priority" := JNum priority]>
        (<["complexity" := JNum complexity]>
        (<["keywords" := JArr (JStr <$> keywords)]>
        (<["searchableText" := JStr searchableText]> scheme)))).

Definition processTrainingData (schemes : list jsobj) : outcome (list jsobj) :=
  mapM enhanceScheme schemes.

(** *** Step 3: training examples *)

Record Query := mkQuery {
  q_text : string;
  q_language : string;
  q_difficulty : string;
  q_category : string
}.

Definition generateQueriesForScheme (scheme : jsobj) : list Query :=
  let name := toStr (getField scheme "name") in
  [ mkQuery ("What is " +:+ name +:+ "?") "en" "easy" "general";
    mkQuery (name +:+ " के बारे में बताएं") "hi" "easy" "general";
    mkQuery (name +:+ " பற்றி சொல்லுங்கள்") "ta" "easy" "general";
    mkQuery ("Who is eligible for " +:+ name +:+ "?") "en" "medium" "eligibility";
    mkQuery (name +:+ " के लिए कौन पात्र है?") "hi" "medium" "eligibility";
    mkQuery ("What are the benefits of " +:+ name +:+ "?") "en" "easy" "benefits";
    mkQuery ("How to apply for " +:+ name +:+ "?") "en" "hard" "procedure";
    mkQuery ("Tell me about " +:+ toStr (getField scheme "category") +:+ " schemes")
            "en" "medium" "category" ].

(** [language === 'hi' ? base + 'Hindi' : language === 'ta' ? base + 'Tamil' : base] *)
Definition localized (base language : string) : string :=
  if bool_decide (language = "hi") then base +:+ "Hindi"
  else if bool_decide (language = "ta") then base +:+ "Tamil"
  else base.

Definition generateGeneralResponse (scheme : jsobj) (language : string) : string :=
  toStr (jsOr (getField scheme (localized "name" language)) (getField scheme "name"))
  +:+ " is a government scheme. "
  +:+ toStr (jsOr (getField scheme (localized "objective" language))
                  (getField scheme "objective")).

Definition generateEligibilityResponse (scheme : jsobj) (language : string) : outcome string :=
  eligibility ←
    mustJoin ", " (jsOr (jsOr (getField scheme (localized "eligibility" language))
                              (getField scheme "eligibility")) (JArr []));
  mret ("Eligibility criteria: " +:+ eligibility).

Definition generateBenefitsResponse (scheme : jsobj) (language : string) : string :=
  "Benefits: " +:+
  toStr (jsOr (getField scheme (localized "benefits" language)) (getField scheme "benefits")).

Definition generateProcedureResponse (scheme : jsobj) (language : string) : outcome string :=
  procedure ←
    mustJoin ", " (jsOr (jsOr (getField scheme (localized "applicationProcedure" language))
                              (getField scheme "applicationProcedure")) (JArr []));
  mret ("Application procedure: " +:+ procedure).

Definition generateCategoryResponse (scheme : jsobj) (language : string) : string :=
  toStr (jsOr (getField scheme (localized "category" language)) (getField scheme "category"))
  +:+ " scheme: " +:+ toStr (getField scheme "name").

Definition generateExpectedResponse (scheme : jsobj) (query : Query) : outcome string :=
  let language := q_language query in
  if bool_decide (q_category query = "general")
  then Return (generateGeneralResponse scheme language)
  else if bool_decide (q_category query = "eligibility")
  then generateEligibilityResponse scheme language
  else if bool_decide (q_category query = "benefits")
  then Return (generateBenefitsResponse scheme language)
  else if bool_decide (q_category query = "procedure")
  then generateProcedureResponse scheme language
  else if bool_decide (q_category query = "category")
  then Return (generateCategoryResponse scheme language)
  else Return (generateGeneralResponse scheme language).

Definition examplesForScheme (scheme : jsobj) : outcome (list TrainingExample) :=
  mapM (λ query,
          expectedResponse ← generateExpectedResponse scheme query;
          mret (mkTrainingExample (q_text query) (q_language query) (getField scheme "id")
                  expectedResponse (q_difficulty query) (q_category query)))
       (generateQueriesForScheme scheme).

Definition allExamples (schemes : list jsobj) : outcome (list TrainingExample) :=
  (@List.concat TrainingExample) <$> mapM examplesForScheme schemes.

(** *** Step 5: the canonical test queries *)

Definition testQueries : list string :=
  [ "What is PM Kisan scheme?";
    "Tell me about agriculture schemes";
    "How to apply for MGNREGA?";
    "What are the benefits of PMAY?" ].

Definition natToFloat (n : nat) : float := PrimFloat.of_uint63 (Uint63.of_Z (Z.of_nat n)).

(** [results.reduce((sum, result) => sum + result.score, 0) / results.length] *)
Definition averageScore (results : list Hit) : float :=
  PrimFloat.div (fold_left (λ sum result, PrimFloat.add sum (hit_score result)) results 0%float)
                (natToFloat (length results)).

Section WithEnv.
Variable env : Env.

Definition saveTrainingExamples (examples : list TrainingExample) : M unit :=
  tryCatch (writeFile env trainingExamplesFile (FExamples examples)) (λ _, mret tt).

Definition generateTrainingExamples (schemes : list jsobj) : M (list TrainingExample) :=
  trainingExamples ← liftO (allExamples schemes);
  _ ← saveTrainingExamples trainingExamples;
  mret trainingExamples.

(** Step 4 *)
Definition trainVectorDatabase (schemes : list jsobj) : M unit :=
  tryCatch
    (addSchemesToVectorDB env schemes (defaultBatchSize env))
    (λ _, forEachM (λ scheme, tryCatch (addSchemeToVectorDB env scheme) (λ _, mret tt))
                   schemes).

(** The body of the loop over [testQueries], on the pair
    [(successfulRetrievals, averageRelevanceScore)]. *)
Definition validateQuery (acc : nat * float) (query : string) : M (nat * float) :=
  tryCatch
    (results ← searchSimilarSchemes env (JStr query) 3;
     match results with
     | [] => mret acc
     | _ => mret (S acc.1, PrimFloat.add acc.2 (averageScore results))
     end)
    (λ _, mret acc).

Definition validateTraining : M ValidationResults :=
  startTime ← msNow env;
  acc ← foldlM validateQuery (0, 0%float) testQueries;
  endTime ← msNow env;
  mret (mkValidationResults (length testQueries) acc.1
          (PrimFloat.div acc.2 (natToFloat (length testQueries)))
          (endTime - startTime)).

(** Step 6: [validationResults.totalSchemes || 0] is [0], the results
    object having no such field. *)
Definition saveTrainingResults (validationResults : ValidationResults) : M unit :=
  tryCatch
    (lastTrainingDate ← isoNow env;
     writeFile env trainingResultsFile
       (FResults (mkTrainingResults 0
          (PrimFloat.div (natToFloat (successfulRetrievals validationResults))
                         (natToFloat (totalTestQueries validationResults)))
          lastTrainingDate "1.0.0" validationResults)))
    (λ _, mret tt).

(** The optional override of step 1 by a local dataset. *)
Definition localOverride (scrapedData : list jsobj) : M (list jsobj) :=
  if useLocalData env then
    w ← getWorld;
    _ ← modify (bump 1);
    match localData env (tick w) with
    | Some (scheme :: rest) => mret (scheme :: rest)
    | _ => mret scrapedData
    end
  else mret scrapedData.

(** Steps 1 to 5. *)
Definition stagesBeforeSave : M (nat * nat * ValidationResults) :=
  scrapedData ← fetchAllSchemeData env;
  scrapedData ← localOverride scrapedData;
  processedData ← liftO (processTrainingData scrapedData);
  trainingExamples ← generateTrainingExamples processedData;
  _ ← trainVectorDatabase processedData;
  validationResults ← validateTraining;
  mret (length processedData, length trainingExamples, validationResults).

(** [trainRAGModel]; its [catch] logs and rethrows. *)
Definition trainRAGModel : M TrainingReturn :=
  tryCatch
    ('(totalSchemes, trainingExamples, validationResults) ← stagesBeforeSave;
     _ ← saveTrainingResults validationResults;
     mret (TrainingCompleted totalSchemes trainingExamples validationResults))
    (λ error, throw error).

(** [hasDataChanged] *)
Definition hasDataChanged (newData existingData : list jsobj) : bool :=
  if negb (length newData =? length existingData) then true
  else
    existsb (λ newScheme,
        match List.find (λ s, strictEq (getField s "id") (getField newScheme "id"))
                        existingData with
        | None => true
        | Some existingScheme =>
            negb (strictEq (getField existingScheme "lastUpdated")
                           (getField newScheme "lastUpdated"))
        end)
      newData.

(** [retrainModel]; its [catch] logs and rethrows. *)
Definition retrainModel : M TrainingReturn :=
  tryCatch
    (freshData ← fetchAllSchemeData env;
     existingData ← loadScrapedData;
     if hasDataChanged freshData existingData
     then trainRAGModel
     else mret NoRetrainingNeeded)
    (λ error, throw error).

End WithEnv.
End RAGTrainer.

(** ** The scheduled-training service

    JavaScript runs one piece of code at a time: an [async] method executes
    without interruption up to its next [await], and other callbacks run only
    while it is suspended there.  The service is modelled by its state and
    the invocations that have passed the guard and are suspended, with one
    transition per uninterrupted piece of [performScheduledTraining] and
    [forceTraining]. *)

Module Scheduler.

(** Where a suspended invocation waits. *)
Inductive Running :=
  | ScheduledChecking      (** [await this.checkIfRetrainingNeeded()] *)
  | ScheduledRetraining    (** [await this.trainer.retrainModel()] *)
  | ForcedTraining.        (** [await this.trainer.trainRAGModel()] *)

Record State := mkState {
  isTraining : bool;
  lastTrainingTime : option Z;
  running : list Running
}.

(** The constructor. *)
Definition initial : State := mkState false None [].

(** What a trigger does before its first [await]. *)
Inductive Answer :=
  | Started
  | Skipped                 (** [return] *)
  | Rejected (e : error).   (** [throw] *)

(** [performScheduledTraining], up to [await this.checkIfRetrainingNeeded()]. *)
Definition performScheduledTraining (s : State) : State * Answer :=
  if isTraining s then (s, Skipped)
  else (mkState true (lastTrainingTime s) (running s ++ [ScheduledChecking]), Started).

(** [forceTraining], up to [await this.trainer.trainRAGModel()]. *)
Definition forceTraining (s : State) : State * Answer :=
  if isTraining s then (s, Rejected (Error "Training already in progress"))
  else (mkState true (lastTrainingTime s) (running s ++ [ForcedTraining]), Started).

(** How an awaited promise settles; [now] is [new Date()]. *)
Inductive Settled :=
  | Needs (needsRetraining : bool)
  | Resolved (now : Z)
  | Rejects (e : error).

(** The rest of the invocation at position [i], resumed when what it awaits
    settles.  Every way out of the [try] passes through
    [finally { this.isTraining = false }]. *)
Definition resume (s : State) (i : nat) (how : Settled) : option State :=
  match running s !! i, how with
  | Some ScheduledChecking, Needs true =>
      Some (mkState (isTraining s) (lastTrainingTime s) (<[i := ScheduledRetraining]> (running s)))
  | Some ScheduledChecking, Needs false =>
      Some (mkState false (lastTrainingTime s) (delete i (running s)))
  | Some ScheduledRetraining, Resolved now
  | Some ForcedTraining, Resolved now =>
      Some (mkState false (Some now) (delete i (running s)))
  | Some ScheduledRetraining, Rejects _
  | Some ForcedTraining, Rejects _ =>
      Some (mkState false (lastTrainingTime s) (delete i (running s)))
  | _, _ => None
  end.

Inductive step : State → State → Prop :=
  | step_scheduled s : step s (performScheduledTraining s).1
  | step_forced s : step s (forceTraining s).1
  | step_resume s i how s' : resume s i how = Some s' → step s s'.

Inductive reachable : State → Prop :=
  | reachable_initial : reachable initial
  | reachable_step s s' : reachable s → step s s' → reachable s'.

(** The invocations that are inside the training pipeline. *)
Definition inPipeline (r : Running) : bool :=
  match r with ScheduledChecking => false | _ => true end.

Definition activeRuns (s : State) : list Running := List.filter inPipeline (running s).

End Scheduler.

(** ** [ragTrainer.js]: local CSV datasets *)

Module Csv.

Definition dquote : ascii := ascii_of_nat 34.
Definition comma : ascii := ","%char.
Definition lf : ascii := ascii_of_nat 10.
Definition cr : ascii := ascii_of_nat 13.

(** [field += char] *)
Definition addChar (field : string) (char : ascii) : string := field +:+ String char "".

(** The [for] loop of [parseCSV] over the rest of the text, on
    [(rows, row, field, inQuotes)]; the doubled quote advances by two. *)
Fixpoint parseLoop (text : string) (rows : list (list string)) (row : list string)
    (field : string) (inQuotes : bool) : list (list string) * list string * string :=
  match text with
  | EmptyString => (rows, row, field)
  | String char rest =>
      if inQuotes then
        if bool_decide (char = dquote) then
          match rest with
          | String next rest' =>
              if bool_decide (next = dquote)
              then parseLoop rest' rows row (addChar field dquote) true
              else parseLoop rest rows row field false
          | EmptyString => parseLoop rest rows row field false
          end
        else parseLoop rest rows row (addChar field char) true
      else
        if bool_decide (char = dquote) then parseLoop rest rows row field true
        else if bool_decide (char = comma) then parseLoop rest rows (row ++ [field]) "" false
        else if bool_decide (char = lf) then parseLoop rest (rows ++ [row ++ [field]]) [] "" false
        else if bool_decide (char = cr) then parseLoop rest rows row field false
        else parseLoop rest rows row (addChar field char) false
  end.

(** [parseCSV] *)
Definition parseCSV (text : string) : list (list string) :=
  let '(rows, row, field) := parseLoop text [] [] "" false in
  let row := row ++ [field] in
  if (1 <? length row) || negb (bool_decide (head row = Some ""))
  then rows ++ [row] else rows.

(** [header.indexOf(key)], [None] standing for [-1]. *)
Fixpoint indexOf (key : string) (header : list string) : option nat :=
  match header with
  | [] => None
  | h :: r => if bool_decide (h = key) then Some 0 else S <$> indexOf key r
  end.

(** [get(cols, i)] *)
Definition get (cols : list string) (i : option nat) : string :=
  match i with
  | Some i => default "" (cols !! i)
  | None => ""
  end.

(** [String(s || d)] on a string [s] *)
Definition orElse (s d : string) : string := if bool_decide (s = "") then d else s.

Section Parse.
(** What the engine computes for [toLowerCase()], for [trim()] and for
    [split(/\s*[|;]\s*/)]: any three functions. *)
Variable lowerOf : string → string.
Variable trimOf : string → string.
Variable splitOf : string → list string.
(** [genId r] is [`scheme-${Date.now()}-${Math.random()...}`] and [stamp r]
    is [new Date().toISOString()], as evaluated for row [r]. *)
Variable genId : nat → string.
Variable stamp : nat → string.

Definition strings (l : list string) : jsval := JArr (JStr <$> l).

(** [listify] *)
Definition listify (s : string) : list string :=
  if bool_decide (s = "") then []
  else List.filter (λ x, negb (bool_decide (x = ""))) (trimOf <$> splitOf s).

(** One iteration of the loop over the data rows: the record that row [r]
    gives, if its name is not blank. *)
Definition schemeOfRow (header : list string) (r : nat) (cols : list string) : option jsobj :=
  let at_ key := get cols (indexOf key header) in
  let name := trimOf (at_ "name") in
  if bool_decide (name = "") then None
  else Some (list_to_map [
    ("id", JStr (orElse (at_ "id") (genId r)));
    ("name", JStr name);
    ("category", JStr (orElse (at_ "category") "General"));
    ("objective", JStr (at_ "objective"));
    ("eligibility", strings (listify (at_ "eligibility")));
    ("documentsRequired", strings (listify (at_ "documentsrequired")));
    ("applicationProcedure", strings (listify (at_ "applicationprocedure")));
    ("benefits", JStr (at_ "benefits"));
    ("contactInfo", JStr (at_ "contactinfo"));
    ("website", JStr (at_ "website"));
    ("tags", strings (listify (at_ "tags")));
    ("lastUpdated", JStr (orElse (at_ "lastupdated") (stamp r)));
    ("source", JStr "Local CSV") ]).

(** [parseCsvToSchemes] *)
Definition parseCsvToSchemes (csvText : string) : list jsobj :=
  match parseCSV csvText with
  | [] => []
  | first :: dataRows =>
      let header := (λ h, lowerOf (trimOf h)) <$> first in
      omap (λ p : nat * list string, schemeOfRow header p.1 p.2)
           (imap (λ i cols, (S i, cols)) dataRows)
  end.

End Parse.
End Csv.

(** ** [vectorDB.js]: start-up *)

Module Startup.
Import VectorDB Acquisition.

(** What start-up meets besides what [Env] describes: the answers of the
    ChromaDB client, and the schemes that [getAllSchemes()] of
    [database.js] returns. *)
Record InitEnv := mkInitEnv {
  (** [chromaClient.getCollection({name})] *)
  getCollection : nat → outcome unit;
  (** [chromaClient.createCollection({name, metadata})] *)
  createCollection : nat → outcome unit;
  (** [collection.count()] *)
  countCollection : nat → outcome Z;
  getAllSchemes : list jsobj
}.

(** [collection = ...], once the promise has resolved. *)
Definition setCollection (w : World) : World :=
  mkWorld (tick w) true (inMemoryVectors w) (inMemoryEmbeddings w) (addCalls w) (files w).

Section WithEnv.
Variable env : Env.
Variable init : InitEnv.

(** [populateVectorDB]: every scheme embedded, then one [collection.add]. *)
Definition populateVectorDB : M unit :=
  call ← embedBatch env (getAllSchemes init) (mkAddCall [] [] [] []);
  collectionAdd env call.

(** [populateInMemoryVectorDB] *)
Definition populateInMemoryVectorDB : M unit :=
  forEachM (λ scheme,
      schemeText ← liftO (createSchemeText scheme);
      embedding ← generateEmbedding env (JStr schemeText);
      metadata ← liftO (schemeMetadata scheme);
      modify (pushVector (mkVectorEntry (getField scheme "id") schemeText metadata)
                         embedding))
    (getAllSchemes init).

Definition initializeInMemoryVectorDB : M unit := populateInMemoryVectorDB.

(** [initializeVectorDB]; the client is constructed without any
    interaction. *)
Definition initializeVectorDB : M unit :=
  tryCatch
    (_ ← tryCatch
           (_ ← ask (getCollection init); modify setCollection)
           (λ _, _ ← isoNow env; _ ← ask (createCollection init); modify setCollection);
     count ← ask (countCollection init);
     if (count =? 0)%Z then populateVectorDB else mret tt)
    (λ _, initializeInMemoryVectorDB).

End WithEnv.
End Startup.


(** * The vocabulary of the statements, and sample inputs *)

(** ** Deduplication *)

Module DedupSpec.
Import DataScraper.

(** A record on which building the composite key throws. *)
Definition badRecord (scheme : jsobj) : Prop :=
  isString (getField scheme "name") = false ∨ isString (getField scheme "category") = false.

(** The name and the category of a source record, when they are strings. *)
Definition nameOf (scheme : jsobj) : string :=
  match getField scheme "name" with JStr n => n | _ => "" end.

Definition categoryOf (scheme : jsobj) : string :=
  match getField scheme "category" with JStr c => c | _ => "" end.

Section Key.
(** The engine's [toLowerCase] and [trim]. *)
Variable lowerOf : string → string.
Variable trimOf : string → string.

(** The composite key [lower(name) + '-' + lower(category)] of a source
    record. *)
Definition rawKey (scheme : jsobj) : string :=
  lowerOf (nameOf scheme) +:+ "-" +:+ lowerOf (categoryOf scheme).

(** The name is blank: it is empty, or [trim()] leaves nothing of it. *)
Definition blankName (scheme : jsobj) : bool :=
  bool_decide (nameOf scheme = "") || bool_decide (trimOf (nameOf scheme) = "").

(** [firstSeen seen schemes k scheme]: position [k] holds [scheme], whose name
    is not blank and whose key is neither in [seen] nor carried by an
    earlier record with a non-blank name. *)
Definition firstSeen (seen : gset string) (schemes : list jsobj) (k : nat) (scheme : jsobj)
    : Prop :=
  schemes !! k = Some scheme ∧ blankName scheme = false ∧ (rawKey scheme ∉ seen) ∧
  ∀ j s, j < k → schemes !! j = Some s → blankName s = false → rawKey s ≠ rawKey scheme.

(** The positions that survive the loop, started at position [i] with the
    keys [seen] already taken. *)
Fixpoint keptFrom (i : nat) (schemes : list jsobj) (seen : gset string)
    : list (nat * jsobj) :=
  match schemes with
  | [] => []
  | scheme :: rest =>
      if bool_decide (rawKey scheme ∈ seen) || blankName scheme
      then keptFrom (S i) rest seen
      else (i, scheme) :: keptFrom (S i) rest ({[rawKey scheme]} ∪ seen)
  end.

(** The record that position [p.1] contributes when it is kept. *)
Definition cleanedOf (genId stamp : nat → string) (p : nat * jsobj) : jsobj :=
  cleanedScheme genId stamp p.1 p.2 (trimOf (nameOf p.2)).

End Key.

(** Sample records. *)
Definition record (id name category : string) : jsobj :=
  list_to_map [("id", JStr id); ("name", JStr name); ("category", JStr category)].

Definition sampleGenId (i : nat) : string := "scheme-" +:+ pretty i.
Definition sampleStamp (i : nat) : string := "2024-01-01T00:00:00." +:+ pretty i +:+ "Z".

Definition sampleSchemes : list jsobj :=
  [ record "s1" "PM Kisan" "Agriculture";
    record "s2" "pm kisan" "agriculture";
    record "s3" "   " "Health" ].

Definition sampleCleaned : list jsobj :=
  [cleanedOf trimString sampleGenId sampleStamp (0, record "s1" "PM Kisan" "Agriculture")].

End DedupSpec.

(** ** Cosine similarity as the specification writes it *)

Module CosineSpec.

(** On doubles a sum depends on the order in which it is taken: [dotF a b]
    is the sum of the products of the components, taken from [0] in index
    order, each operation rounded; [normF a] is the square root of
    [dotF a a]. *)
Definition dotF (a b : list float) : float :=
  fold_left (λ sum xy, PrimFloat.add sum (PrimFloat.mul xy.1 xy.2)) (zip a b) 0%float.

Definition normF (a : list float) : float := PrimFloat.sqrt (dotF a a).

(** [x === 0]: [x] is one of the two zeros. *)
Definition isZeroF (x : float) : bool := PrimFloat.eqb x 0%float.

(** [dot(a,b) / (||a|| * ||b||)], and [0] when a norm is [0]. *)
Definition cosineF (a b : list float) : float :=
  if isZeroF (normF a) || isZeroF (normF b) then 0%float
  else PrimFloat.div (dotF a b) (PrimFloat.mul (normF a) (normF b)).

Local Open Scope R_scope.

(** The same in exact arithmetic: dot(a,b) *)
Fixpoint dot (a b : list R) : R :=
  match a, b with
  | x :: a', y :: b' => x * y + dot a' b'
  | _, _ => 0
  end.

(** ||a|| *)
Definition norm (a : list R) : R := R_sqrt.sqrt (dot a a).

End CosineSpec.

(** ** Observations on runs, environments and states to run them in *)

Module RunSpec.
Import VectorDB RAGTrainer.

Definition idOf (scheme : jsobj) : jsval := getField scheme "id".

(** The record's text can be built: no list-valued field holds a value
    without a [join] method. *)
Definition textOk (scheme : jsobj) : Prop := returns (createSchemeText scheme).

(** [w'] differs from [w] at most in the ghost fields. *)
Definition sameStore (w w' : World) : Prop :=
  collection w' = collection w ∧
  inMemoryVectors w' = inMemoryVectors w ∧
  inMemoryEmbeddings w' = inMemoryEmbeddings w ∧
  files w' = files w.

(** The batches as the specification counts them: [c] records at a time. *)
Fixpoint chunksOf {A} (fuel c : nat) (l : list A) : list (list A) :=
  match fuel with
  | 0 => []
  | S fuel' =>
      match l with
      | [] => []
      | _ => take c l :: chunksOf fuel' c (drop c l)
      end
  end.

(** [n / c] full batches, then the remainder if there is one. *)
Definition chunkSizes (n c : nat) : list nat :=
  replicate (n / c) c ++ (if n mod c =? 0 then [] else [n mod c]).

(** The batches of [c] records that a list of records is cut into. *)
Definition batchesOf (c : nat) (schemes : list jsobj) : list (list jsobj) :=
  chunksOf (length schemes) c schemes.

(** The metadata that go into the index with a record. *)
Definition metaOf (scheme : jsobj) : Metadata :=
  mkMetadata (getField scheme "id") (getField scheme "name") (getField scheme "category")
    (match optJoin ", " (getField scheme "tags") with
     | Return tags => jsOr tags (JStr "")
     | Throw _ => JStr ""
     end)
    "en".

(** [call] is the [collection.add] call for the records [batch]: their ids
    and metadata, in order, and a text and an embedding for each. *)
Definition carries (batch : list jsobj) (call : AddCall) : Prop :=
  add_ids call = idOf <$> batch ∧
  add_metadatas call = metaOf <$> batch ∧
  length (add_documents call) = length batch ∧
  length (add_embeddings call) = length batch.

(** [a] is what the vector service answered to [call]. *)
Definition answered (env : Env) (call : AddCall) (a : outcome unit) : Prop :=
  ∃ t, chromaAdd env t call = a.

(** The persisted TrainingRun snapshot. *)
Definition snapshot (w : World) : option FileContent := files w !! trainingResultsFile.

(** [keeps m]: however [m] ends, it leaves the snapshot as it found it. *)
Definition keeps {A} (m : M A) : Prop :=
  ∀ w, match m w with
       | Ret _ w' | Err _ w' => snapshot w' = snapshot w
       | Hang => True
       end.

(** [resolves m]: [m] resolves, in every state. *)
Definition resolves {A} (m : M A) : Prop := ∀ w, ∃ a w', m w = Ret a w'.

(** What is seen of a training run from outside: what it resolved to,
    whether a snapshot exists, how many vectors the in-memory index holds
    and how many training examples were saved. *)
Definition observed (r : res TrainingReturn)
    : option (option (nat * nat) * bool * nat * option nat) :=
  match r with
  | Ret a w =>
      Some (match a with
            | TrainingCompleted n m _ => Some (n, m)
            | NoRetrainingNeeded => None
            end,
            bool_decide (is_Some (snapshot w)),
            length (inMemoryVectors w),
            match files w !! trainingExamplesFile with
            | Some (FExamples l) => Some (length l)
            | _ => None
            end)
  | _ => None
  end.

(** An environment in which every service answers: the default provider
    embeds, the vector service accepts and reports no neighbours, the
    MyScheme site is unreachable, and the file system and clock work. *)
Definition quietEnv : Env := {|
  llmEmbedding := λ _ text, simpleLocalLLM text;
  chromaAdd := λ _ _, Return tt;
  chromaQuery := λ _ _ _, Return (mkQueryResult [[]] [[]]);
  mySchemeApi := λ _, Throw (Error "connect ECONNREFUSED");
  mySchemePage := λ _, Throw (Error "connect ECONNREFUSED");
  nowISO := λ t, "2024-01-01T00:00:00." +:+ pretty t +:+ "Z";
  nowMs := λ t, Z.of_nat t;
  randomId := λ t, "scheme-" +:+ pretty t;
  fsMkdir := λ _, Return tt;
  fsWrite := λ _ _, Return tt;
  useLocalData := false;
  localData := λ _, None;
  defaultBatchSize := 500
|}.

(** Neither the embedding provider nor the vector service answers. *)
Definition failingEnv : Env := {|
  llmEmbedding := λ _ _, Throw (Error "model unavailable");
  chromaAdd := chromaAdd quietEnv;
  chromaQuery := λ _ _ _, Throw (Error "connect ECONNREFUSED");
  mySchemeApi := mySchemeApi quietEnv;
  mySchemePage := mySchemePage quietEnv;
  nowISO := nowISO quietEnv;
  nowMs := nowMs quietEnv;
  randomId := randomId quietEnv;
  fsMkdir := fsMkdir quietEnv;
  fsWrite := fsWrite quietEnv;
  useLocalData := false;
  localData := localData quietEnv;
  defaultBatchSize := 500
|}.

(** A vector service that refuses a call carrying more than one record;
    batches of two. *)
Definition oneAtATimeEnv : Env := {|
  llmEmbedding := llmEmbedding quietEnv;
  chromaAdd := λ _ call,
    if 1 <? length (add_ids call) then Throw (Error "payload too large") else Return tt;
  chromaQuery := chromaQuery quietEnv;
  mySchemeApi := mySchemeApi quietEnv;
  mySchemePage := mySchemePage quietEnv;
  nowISO := nowISO quietEnv;
  nowMs := nowMs quietEnv;
  randomId := randomId quietEnv;
  fsMkdir := fsMkdir quietEnv;
  fsWrite := fsWrite quietEnv;
  useLocalData := false;
  localData := localData quietEnv;
  defaultBatchSize := 2
|}.

(** A vector service that refuses every call holding the record [s2];
    batches of one. *)
Definition pickyEnv : Env := {|
  llmEmbedding := llmEmbedding quietEnv;
  chromaAdd := λ _ call,
    if existsb (Acquisition.strictEq (JStr "s2")) (add_ids call)
    then Throw (Error "invalid record") else Return tt;
  chromaQuery := chromaQuery quietEnv;
  mySchemeApi := mySchemeApi quietEnv;
  mySchemePage := mySchemePage quietEnv;
  nowISO := nowISO quietEnv;
  nowMs := nowMs quietEnv;
  randomId := randomId quietEnv;
  fsMkdir := fsMkdir quietEnv;
  fsWrite := fsWrite quietEnv;
  useLocalData := false;
  localData := localData quietEnv;
  defaultBatchSize := 1
|}.

(** A file system on which nothing can be written. *)
Definition diskFullEnv : Env := {|
  llmEmbedding := llmEmbedding quietEnv;
  chromaAdd := chromaAdd quietEnv;
  chromaQuery := chromaQuery quietEnv;
  mySchemeApi := mySchemeApi quietEnv;
  mySchemePage := mySchemePage quietEnv;
  nowISO := nowISO quietEnv;
  nowMs := nowMs quietEnv;
  randomId := randomId quietEnv;
  fsMkdir := fsMkdir quietEnv;
  fsWrite := λ _ _, Throw (Error "ENOSPC: no space left on device");
  useLocalData := false;
  localData := localData quietEnv;
  defaultBatchSize := 500
|}.

(** A local dataset whose only record has a number for a category. *)
Definition badLocalDataEnv : Env := {|
  llmEmbedding := llmEmbedding quietEnv;
  chromaAdd := chromaAdd quietEnv;
  chromaQuery := chromaQuery quietEnv;
  mySchemeApi := mySchemeApi quietEnv;
  mySchemePage := mySchemePage quietEnv;
  nowISO := nowISO quietEnv;
  nowMs := nowMs quietEnv;
  randomId := randomId quietEnv;
  fsMkdir := fsMkdir quietEnv;
  fsWrite := fsWrite quietEnv;
  useLocalData := true;
  localData := λ _, Some [list_to_map [("id", JStr "x1"); ("name", JStr "Scheme X");
                                       ("category", JNum 7)]];
  defaultBatchSize := 500
|}.

(** The process right after start-up: on the in-memory fallback with
    nothing indexed, and with a ChromaDB collection. *)
Definition memoryWorld : World := mkWorld 0 false [] [] [] ∅.
Definition chromaWorld : World := mkWorld 0 true [] [] [] ∅.

(** A process that holds the snapshot of an earlier run. *)
Definition earlierResults : TrainingResults :=
  mkTrainingResults 0 1%float "2023-12-31T02:00:00.000Z" "1.0.0"
    (mkValidationResults 4 4 0.5%float 120).

Definition trainedWorld : World :=
  mkWorld 0 false [] [] [] {[ trainingResultsFile := FResults earlierResults ]}.

(** A process whose data directory holds an older dataset: one record,
    which the sources no longer serve. *)
Definition staleWorld : World :=
  mkWorld 0 false [] [] []
    {[ scrapedSchemesFile :=
         FSchemes [list_to_map [("id", JStr "old-scheme"); ("name", JStr "Old Scheme");
                                ("category", JStr "General");
                                ("lastUpdated", JStr "2020-01-01T00:00:00.000Z")]] ]}.

Definition scheme (id name category objective : string) : jsobj :=
  list_to_map [("id", JStr id); ("name", JStr name); ("category", JStr category);
               ("objective", JStr objective)].

Definition threeSchemes : list jsobj :=
  [ scheme "s1" "PM Kisan" "Agriculture" "income support";
    scheme "s2" "MGNREGA" "Employment" "guaranteed wage employment";
    scheme "s3" "PMAY" "Housing" "housing for all" ].

(** Three records, the second with a string where its tags should be. *)
Definition oddTagsSchemes : list jsobj :=
  [ scheme "s1" "PM Kisan" "Agriculture" "income support";
    <["tags" := JStr "employment"]>
      (scheme "s2" "MGNREGA" "Employment" "guaranteed wage employment");
    scheme "s3" "PMAY" "Housing" "housing for all" ].

End RunSpec.

(** ** The scheduler's guard *)

Module SchedulerSpec.
Import Scheduler.

(** The flag is set exactly while one invocation is suspended. *)
Definition guarded (s : State) : Prop :=
  (isTraining s = false ∧ running s = []) ∨
  (isTraining s = true ∧ ∃ r, running s = [r]).

(** A run forced while the service is idle, seen before it ends. *)
Definition duringForcedRun : State := (forceTraining initial).1.

End SchedulerSpec.

(** ** Records that the pipeline can process *)

Module ProcessSpec.
Import RAGTrainer.

(** [v?.join(...)] does not throw on [v]. *)
Definition joinable (v : jsval) : bool :=
  match v with JUndefined | JNull | JArr _ => true | _ => false end.

(** [v?.toLowerCase()] does not throw on [v]. *)
Definition textual (v : jsval) : bool :=
  match v with JUndefined | JNull | JStr _ => true | _ => false end.

(** [v?.includes(...)] does not throw on [v]. *)
Definition searchable (v : jsval) : bool :=
  match v with JUndefined | JNull | JStr _ | JArr _ => true | _ => false end.

(** A record that step 2 can enhance. *)
Definition processable (scheme : jsobj) : Prop :=
  isString (getField scheme "name") = true ∧
  isString (getField scheme "category") = true ∧
  textual (getField scheme "objective") = true ∧
  joinable (getField scheme "eligibility") = true ∧
  joinable (getField scheme "tags") = true ∧
  searchable (getField scheme "searchableText") = true.

(** The fields that [processTrainingData] writes. *)
Definition enhancedFields : list string :=
  ["searchableText"; "keywords"; "complexity"; "priority"].

(** The string held by a value, if it is one. *)
Definition textOf (v : jsval) : string :=
  match v with JStr s => s | _ => "" end.

(** The string is in the ASCII range, on which the [toLowerCase], the
    [split] and the [length] of the model are those of the engine. *)
Definition asciiString (s : string) : bool :=
  forallb (λ c, (N_of_ascii c <? 128)%N) (chars s).

(** The name, the category and the objective of the record are ASCII. *)
Definition asciiRecord (scheme : jsobj) : Prop :=
  asciiString (textOf (getField scheme "name")) = true ∧
  asciiString (textOf (getField scheme "category")) = true ∧
  asciiString (textOf (getField scheme "objective")) = true.

(** [s.toLowerCase().split(' ')] *)
Definition words (s : string) : list string := splitSpace "" (lower s).

(** Some high-priority keyword occurs in the lower-cased name. *)
Definition highPriorityName (scheme : jsobj) : bool :=
  existsb (includes (lower (textOf (getField scheme "name")))) highPriorityKeywords.

(** The fields that are read as lists somewhere in steps 2 to 4. *)
Definition listFields : list string :=
  ["eligibility"; "eligibilityHindi"; "documentsRequired"; "applicationProcedure"; "tags"].

(** A record that steps 2 to 4 of the pipeline accept. *)
Definition regular (scheme : jsobj) : Prop :=
  isString (getField scheme "name") = true ∧
  isString (getField scheme "category") = true ∧
  textual (getField scheme "objective") = true ∧
  searchable (getField scheme "searchableText") = true ∧
  Forall (λ f, joinable (getField scheme f) = true) listFields.

(** Every error of a computation is a TypeError. *)
Definition typeErrors {A} (m : outcome A) : Prop :=
  ∀ e, m = Throw e → ∃ msg, e = TypeError msg.

End ProcessSpec.

(** ** What a call may change *)

Module FrameSpec.

(** [within R m]: however [m] ends, the state it leaves is related by [R]
    to the state it found. *)
Definition within (R : World → World → Prop) {A} (m : M A) : Prop :=
  ∀ w, match m w with
       | Ret _ w' | Err _ w' => R w w'
       | Hang => True
       end.

(** [w'] has the backend of [w]; its index holds the entries of [w], in
    their order, followed by as many new entries as new embeddings; the
    [collection.add] calls of [w] are the first of [w']. *)
Definition extends (w w' : World) : Prop :=
  collection w' = collection w ∧
  (∃ entries embeddings,
     inMemoryVectors w' = inMemoryVectors w ++ entries ∧
     inMemoryEmbeddings w' = inMemoryEmbeddings w ++ embeddings ∧
     length entries = length embeddings) ∧
  (∃ calls, addCalls w' = addCalls w ++ calls).

(** The files of the data directory that the training code writes. *)
Definition trainingFiles : list string :=
  [scrapedSchemesFile; scrapingMetadataFile; trainingExamplesFile; trainingResultsFile].

(** Every file but those has in [w'] the content it had in [w]. *)
Definition sameOtherFiles (w w' : World) : Prop :=
  ∀ path, path ∉ trainingFiles → files w' !! path = files w !! path.

(** No file has changed. *)
Definition sameFiles (w w' : World) : Prop := files w' = files w.

(** Nothing has changed but the count of the interactions. *)
Definition readOnly (w w' : World) : Prop :=
  collection w' = collection w ∧
  inMemoryVectors w' = inMemoryVectors w ∧
  inMemoryEmbeddings w' = inMemoryEmbeddings w ∧
  addCalls w' = addCalls w ∧
  files w' = files w.

End FrameSpec.

(** ** The in-memory index *)

Module IndexSpec.
Import VectorDB.



(** The text of the record can be built. *)
Definition canEmbed (scheme : jsobj) : bool :=
  match createSchemeText scheme with Return _ => true | Throw _ => false end.

(** The provider is down for the first request and answers afterwards. *)
Definition flakyEnv : Env := {|
  llmEmbedding := λ t text,
    if t =? 0 then Throw (Error "model is loading") else simpleLocalLLM text;
  chromaAdd := chromaAdd RunSpec.quietEnv;
  chromaQuery := chromaQuery RunSpec.quietEnv;
  mySchemeApi := mySchemeApi RunSpec.quietEnv;
  mySchemePage := mySchemePage RunSpec.quietEnv;
  nowISO := nowISO RunSpec.quietEnv;
  nowMs := nowMs RunSpec.quietEnv;
  randomId := randomId RunSpec.quietEnv;
  fsMkdir := fsMkdir RunSpec.quietEnv;
  fsWrite := fsWrite RunSpec.quietEnv;
  useLocalData := false;
  localData := localData RunSpec.quietEnv;
  defaultBatchSize := 500
|}.

(** The ids of the entries of the in-memory index, in order. *)
Definition indexIds (w : World) : list jsval := ve_id <$> inMemoryVectors w.

(** The state after [run] from [w], whichever way it ended. *)
Definition after {A} (run : M A) (w : World) : World :=
  match run w with Ret _ w' | Err _ w' => w' | Hang => w end.


(** The in-memory index after one record was added while the provider was
    down. *)
Definition fallbackIndexedWorld : World :=
  after (addSchemeToVectorDB flakyEnv (RunSpec.scheme "s1" "PM Kisan" "Agriculture" "income support"))
        RunSpec.memoryWorld.

(** [w'] is [w] with the entries for [ids] appended to the in-memory
    index. *)
Definition appended (ids : list jsval) (w w' : World) : Prop :=
  collection w' = collection w ∧ addCalls w' = addCalls w ∧ files w' = files w ∧
  indexIds w' = indexIds w ++ ids ∧
  length (inMemoryEmbeddings w') = length (inMemoryEmbeddings w) + length ids.

End IndexSpec.

(** ** Answers of the MyScheme API *)

Module AcquisitionSpec.
Import DataScraper Acquisition.



(** A primitive value: compared by value in a [Set]. *)
Definition primitive (v : jsval) : bool :=
  match v with JArr _ => false | _ => true end.

End AcquisitionSpec.

(** ** What the change test reads *)

Module ChangeSpec.

(** What [hasDataChanged] reads of a record. *)
Definition versionOf (scheme : jsobj) : jsval * jsval :=
  (getField scheme "id", getField scheme "lastUpdated").

End ChangeSpec.

(** ** CSV as a writer puts it *)

Module CsvSpec.
Import Csv.

(** None of the four characters that [parseCSV] treats specially. *)
Definition plainChar (c : ascii) : bool :=
  negb (bool_decide (c = dquote)) && negb (bool_decide (c = comma)) &&
  negb (bool_decide (c = lf)) && negb (bool_decide (c = cr)).

Fixpoint plain (s : string) : bool :=
  match s with
  | EmptyString => true
  | String c r => plainChar c && plain r
  end.

(** The field with each quote doubled. *)
Fixpoint escape (s : string) : string :=
  match s with
  | EmptyString => EmptyString
  | String c r =>
      if bool_decide (c = dquote) then String dquote (String dquote (escape r))
      else String c (escape r)
  end.

(** A field as a writer of CSV puts it: between quotes, or bare. *)
Definition cell (c : bool * string) : string :=
  if c.1 then String dquote (escape c.2 +:+ String dquote "") else c.2.

(** A bare field has to be plain. *)
Definition writable (c : bool * string) : Prop := c.1 = false → plain c.2 = true.

Fixpoint sepBy (sep : string) (l : list string) : string :=
  match l with
  | [] => ""
  | x :: r => match r with [] => x | _ => x +:+ sep +:+ sepBy sep r end
  end.

(** The text of a table: the cells of a row separated by commas, the rows
    by [eol]. *)
Definition encode (eol : string) (rows : list (list (bool * string))) : string :=
  sepBy eol ((λ row, sepBy "," (cell <$> row)) <$> rows).

(** The fields of a table. *)
Definition fields (rows : list (list (bool * string))) : list (list string) :=
  (λ row : list (bool * string), snd <$> row) <$> rows.

Definition unixEol : string := String lf "".
Definition dosEol : string := String cr (String lf "").

(** A table of two rows, with all the special characters in quoted
    fields. *)
Definition sampleTable : list (list (bool * string)) :=
  [ [(false, "name"); (true, "objective"); (false, "tags")];
    [(true, "PM Kisan, the scheme"); (true, "A " +:+ String dquote "" +:+ "direct" +:+
        String dquote "" +:+ " transfer" +:+ String lf "" +:+ "to farmers"); (false, "a|b")] ].

(** [rest] does not begin with a quote. *)
Definition noQuoteAhead (rest : string) : Prop :=
  match rest with String c _ => c ≠ dquote | EmptyString => True end.

End CsvSpec.

(** ** Start-up *)

Module StartupSpec.
Import VectorDB Startup.

(** What a search resolves to. *)
Definition hitsOf (r : res (list Hit)) : option (list Hit) :=
  match r with Ret hits _ => Some hits | _ => None end.

(** The state with the in-memory index emptied. *)
Definition withoutIndex (w : World) : World :=
  mkWorld (tick w) (collection w) [] [] (addCalls w) (files w).

(** A ChromaDB that hands out the collection and then fails to count it;
    the database holds three schemes. *)
Definition countFailsInit : InitEnv := {|
  getCollection := λ _, Return tt;
  createCollection := λ _, Return tt;
  countCollection := λ _, Throw (Error "Internal Server Error");
  getAllSchemes := RunSpec.threeSchemes
|}.

(** A ChromaDB that cannot be reached; one scheme of the database has a
    string where its tags should be. *)
Definition badSchemeInit : InitEnv := {|
  getCollection := λ _, Throw (Error "connect ECONNREFUSED");
  createCollection := λ _, Throw (Error "connect ECONNREFUSED");
  countCollection := λ _, Throw (Error "connect ECONNREFUSED");
  getAllSchemes := [<["tags" := JStr "housing"]> (RunSpec.scheme "s3" "PMAY" "Housing" "housing for all")]
|}.

End StartupSpec.


(** * Proofs *)

(** ** Deduplication and its precondition *)

Module DedupFacts.
Import DataScraper DedupSpec.

Lemma stringMethod_returns m f v :
  isString v = true → stringMethod m f v = Return (f (match v with JStr s => s | _ => "" end)).
Proof. by destruct v. Qed.

Lemma stringMethod_throws m f v :
  isString v = false → ∃ msg, stringMethod m f v = Throw (TypeError msg).
Proof. destruct v; simpl; intros; try discriminate; eauto. Qed.

Section Key.
Variable lowerOf : string → string.
Variable trimOf : string → string.

Abbreviation schemeKey := (schemeKey lowerOf).
Abbreviation rawKey := (rawKey lowerOf).
Abbreviation blankName := (blankName trimOf).
Abbreviation firstSeen := (firstSeen lowerOf trimOf).
Abbreviation keptFrom := (keptFrom lowerOf trimOf).

Lemma schemeKey_throws scheme :
  badRecord scheme → ∃ msg, schemeKey scheme = Throw (TypeError msg).
Proof.
  unfold DataScraper.schemeKey. intros [H|H].
  - destruct (stringMethod_throws "toLowerCase" lowerOf _ H) as [msg ->]. by exists msg.
  - destruct (isString (getField scheme "name")) eqn:Hn.
    + rewrite (stringMethod_returns _ _ _ Hn). simpl.
      destruct (stringMethod_throws "toLowerCase" lowerOf _ H) as [msg ->]. by exists msg.
    + destruct (stringMethod_throws "toLowerCase" lowerOf _ Hn) as [msg ->]. by exists msg.
Qed.

(** On a record whose name and category are strings the code builds the
    composite key. *)
Lemma schemeKey_returns scheme :
  ¬ badRecord scheme →
  schemeKey scheme = Return (rawKey scheme) ∧ getField scheme "name" = JStr (nameOf scheme).
Proof.
  unfold badRecord, DedupSpec.rawKey, nameOf, categoryOf, DataScraper.schemeKey. intros H.
  destruct (getField scheme "name") eqn:Hn; try (exfalso; apply H; by left).
  destruct (getField scheme "category") eqn:Hc; try (exfalso; apply H; by right).
  done.
Qed.

Lemma keptFrom_spec schemes : ∀ i seen j scheme,
  (j, scheme) ∈ keptFrom i schemes seen ↔
  ∃ k, j = i + k ∧ firstSeen seen schemes k scheme.
Proof.
  induction schemes as [|s0 rest IH]; intros i seen j scheme; simpl.
  - split; [intros H; inversion H | intros (k & _ & H & _); by destruct k].
  - destruct (bool_decide (rawKey s0 ∈ seen)) eqn:Hseen; simpl.
    { apply bool_decide_eq_true in Hseen. rewrite IH. split.
      - intros (k & -> & Hk & Hb & Hs & Hf). exists (S k). split; [lia|].
        split_and!; try done. intros [|j'] s' ?; simpl; [|intros; (eapply Hf; eauto); lia].
        intros [= <-] _ Heq. apply Hs. by rewrite <- Heq.
      - intros ([|k] & -> & Hk & Hb & Hs & Hf); simpl in Hk.
        + injection Hk as ->. done.
        + exists k. split; [lia|]. split_and!; try done.
          intros j' s' ?. apply (Hf (S j') s'). lia. }
    apply bool_decide_eq_false in Hseen.
    destruct (blankName s0) eqn:Hblank; simpl.
    { rewrite IH. split.
      - intros (k & -> & Hk & Hb & Hs & Hf). exists (S k). split; [lia|].
        split_and!; try done. intros [|j'] s' ?; simpl; [|intros; (eapply Hf; eauto); lia].
        intros [= <-]. congruence.
      - intros ([|k] & -> & Hk & Hb & Hs & Hf); simpl in Hk.
        + injection Hk as ->. congruence.
        + exists k. split; [lia|]. split_and!; try done.
          intros j' s' ?. apply (Hf (S j') s'). lia. }
    rewrite elem_of_cons, IH. split.
    + intros [[= -> ->] | (k & -> & Hk & Hb & Hs & Hf)].
      * exists 0. split; [lia|]. split_and!; try done. intros; lia.
      * exists (S k). split; [lia|]. apply not_elem_of_union in Hs as [Hs0 Hs].
        split_and!; try done.
        intros [|j'] s' ?; simpl; [|intros; (eapply Hf; eauto); lia].
        intros [= <-] _ Heq. apply Hs0. rewrite Heq. by apply elem_of_singleton.
    + intros ([|k] & -> & Hk & Hb & Hs & Hf); simpl in Hk.
      * injection Hk as ->. left. f_equal. lia.
      * right. exists k. split; [lia|]. split_and!; try done.
        -- assert (rawKey s0 ≠ rawKey scheme) as Hne by (apply (Hf 0 s0); [lia|done..]).
           apply not_elem_of_union. split; [|done].
           intros Heq%elem_of_singleton. by apply Hne.
        -- intros j' s' ?. apply (Hf (S j') s'). lia.
Qed.

Lemma keptFrom_sorted schemes : ∀ i seen,
  StronglySorted lt (keptFrom i schemes seen).*1 ∧
  Forall (λ j, i ≤ j) (keptFrom i schemes seen).*1.
Proof.
  induction schemes as [|s0 rest IH]; intros i seen; simpl.
  - split; constructor.
  - destruct (_ || _); simpl.
    + destruct (IH (S i) seen) as [H1 H2]. split; [done|].
      eapply Forall_impl; [exact H2|]. simpl; intros; lia.
    + destruct (IH (S i) ({[rawKey s0]} ∪ seen)) as [H1 H2]. split.
      * constructor; [done|]. eapply Forall_impl; [exact H2|]. simpl; intros; lia.
      * constructor; [lia|]. eapply Forall_impl; [exact H2|]. simpl; intros; lia.
Qed.

Lemma keptFrom_NoDup_keys schemes i seen :
  NoDup (rawKey <$> (keptFrom i schemes seen).*2).
Proof.
  revert i seen.
  induction schemes as [|s0 rest IH]; intros i seen; simpl; [constructor|].
  destruct (_ || _); simpl; [apply IH|].
  constructor; [|apply IH].
  rewrite list_elem_of_fmap. intros (s & Hk & Hs).
  apply list_elem_of_fmap in Hs as ([j s'] & -> & Hin). simpl in Hk.
  apply keptFrom_spec in Hin as (k & _ & _ & _ & Hnot & _).
  apply Hnot, elem_of_union. left. by apply elem_of_singleton.
Qed.

Section Clean.
Variable genId : nat → string.
Variable stamp : nat → string.

Abbreviation cleanStep := (cleanStep lowerOf trimOf genId stamp).
Abbreviation cleanLoop := (cleanLoop lowerOf trimOf genId stamp).
Abbreviation cleanedScheme := (cleanedScheme genId stamp).
Abbreviation cleanedFields := (cleanedFields genId stamp).
Abbreviation cleanAndDeduplicateData := (cleanAndDeduplicateData lowerOf trimOf genId stamp).
Abbreviation cleanedOf := (cleanedOf trimOf genId stamp).

Lemma cleanStep_bad seen i scheme :
  badRecord scheme → ∃ msg, cleanStep seen i scheme = Throw (TypeError msg).
Proof.
  intros H. unfold cleanStep.
  destruct (schemeKey_throws _ H) as [msg ->]. by exists msg.
Qed.

Lemma cleanStep_good seen i scheme :
  ¬ badRecord scheme →
  cleanStep seen i scheme =
    Return (if bool_decide (rawKey scheme ∈ seen) || blankName scheme then None
            else Some (rawKey scheme, cleanedOf (i, scheme))).
Proof.
  intros H. destruct (schemeKey_returns _ H) as [Hk Hn].
  unfold DataScraper.cleanStep, DedupSpec.cleanedOf, DedupSpec.blankName. rewrite Hk. simpl.
  destruct (bool_decide (rawKey scheme ∈ seen)); [done|]. simpl.
  rewrite Hn. simpl.
  destruct (bool_decide (nameOf scheme = "")); simpl; [done|].
  by destruct (bool_decide (trimOf (nameOf scheme) = "")).
Qed.

Lemma cleanLoop_throws_iff schemes : ∀ i seen cleaned,
  throws (cleanLoop i schemes seen cleaned) ↔ Exists badRecord schemes.
Proof.
  induction schemes as [|scheme rest IH]; intros i seen cleaned; simpl.
  - split; [intros [e He]; discriminate | intros H; inversion H].
  - rewrite Exists_cons.
    destruct (decide (badRecord scheme)) as [Hb|Hg].
    + destruct (cleanStep_bad seen i scheme Hb) as [msg ->]. simpl.
      split; [by left | intros _; by eexists].
    + rewrite (cleanStep_good seen i scheme Hg). simpl.
      destruct (_ || _); rewrite IH; tauto.
Qed.

Lemma cleanLoop_throws_TypeError schemes : ∀ i seen cleaned e,
  cleanLoop i schemes seen cleaned = Throw e → ∃ msg, e = TypeError msg.
Proof.
  induction schemes as [|scheme rest IH]; intros i seen cleaned e; simpl; [done|].
  destruct (decide (badRecord scheme)) as [Hb|Hg].
  - destruct (cleanStep_bad seen i scheme Hb) as [msg ->]. simpl.
    intros [= <-]. by exists msg.
  - rewrite (cleanStep_good seen i scheme Hg). simpl.
    destruct (_ || _); apply IH.
Qed.

Lemma cleanLoop_kept schemes : ∀ i seen cleaned out,
  cleanLoop i schemes seen cleaned = Return out →
  out = cleaned ++ (cleanedOf <$> keptFrom i schemes seen).
Proof.
  induction schemes as [|scheme rest IH]; intros i seen cleaned out; simpl.
  - intros [= <-]. by rewrite app_nil_r.
  - destruct (decide (badRecord scheme)) as [Hb|Hg].
    { destruct (cleanStep_bad seen i scheme Hb) as [msg ->]. done. }
    rewrite (cleanStep_good seen i scheme Hg). simpl.
    destruct (_ || _); simpl; intros H%IH; [done|].
    by rewrite H, <- app_assoc.
Qed.


Lemma jsOr_defined a d : jsOr a (JStr d) ≠ JUndefined ∧ jsOr a (JStr d) ≠ JNull.
Proof. unfold jsOr. by destruct a; simpl; try destruct (negb _); try destruct b. Qed.

Lemma arrayOrEmpty_defined a : arrayOrEmpty a ≠ JUndefined ∧ arrayOrEmpty a ≠ JNull.
Proof. by destruct a. Qed.

Lemma cleanedFields_names i scheme name :
  (cleanedFields i scheme name).*1 = cleanedFieldNames.
Proof. reflexivity. Qed.

Lemma cleanedFieldNames_NoDup : NoDup cleanedFieldNames.
Proof. apply (bool_decide_unpack _). by vm_compute. Qed.

Lemma cleanedFields_defined i scheme name :
  Forall (λ p, p.2 ≠ JUndefined ∧ p.2 ≠ JNull) (cleanedFields i scheme name).
Proof.
  unfold cleanedFields, textOr, listOf.
  repeat (constructor;
          [simpl; first [apply jsOr_defined | apply arrayOrEmpty_defined | done]|]).
  constructor.
Qed.

Lemma cleanedScheme_defined i scheme name f :
  f ∈ cleanedFieldNames →
  getField (cleanedScheme i scheme name) f ≠ JUndefined ∧
  getField (cleanedScheme i scheme name) f ≠ JNull.
Proof.
  rewrite <- (cleanedFields_names i scheme name).
  intros ([f' v] & -> & Hin)%list_elem_of_fmap. simpl.
  assert (cleanedScheme i scheme name !! f' = Some v) as Hlook.
  { apply elem_of_list_to_map_1; [|done].
    rewrite cleanedFields_names. apply cleanedFieldNames_NoDup. }
  unfold getField. rewrite Hlook. simpl.
  pose proof (cleanedFields_defined i scheme name) as Hall.
  rewrite Forall_forall in Hall. apply (Hall _ Hin).
Qed.

(** C10. [cleanAndDeduplicateData] builds the composite key, calling
    [toLowerCase()] on [name] and on [category], before it looks at whether
    the name is present: it throws (a TypeError) exactly when some input
    record has a [name] or a [category] that is not a string, and returns
    exactly when every record carries both as strings. *)
Theorem cleanAndDeduplicateData_total_iff_strings (schemes : list jsobj) :
  (throws (cleanAndDeduplicateData schemes) ↔ Exists badRecord schemes) ∧
  (∀ e, cleanAndDeduplicateData schemes = Throw e → ∃ msg, e = TypeError msg) ∧
  (returns (cleanAndDeduplicateData schemes) ↔
     Forall (λ s, isString (getField s "name") = true ∧
                  isString (getField s "category") = true) schemes).
Proof.
  split_and!.
  - unfold cleanAndDeduplicateData. apply cleanLoop_throws_iff.
  - unfold cleanAndDeduplicateData. apply cleanLoop_throws_TypeError.
  - pose proof (cleanLoop_throws_iff schemes 0 ∅ []) as Hiff.
    change (cleanLoop 0 schemes ∅ []) with (cleanAndDeduplicateData schemes) in Hiff.
    assert (Forall (λ s, isString (getField s "name") = true ∧
              isString (getField s "category") = true) schemes
            ↔ ¬ Exists badRecord schemes) as ->.
    { rewrite <- Forall_Exists_neg. apply Forall_proper; [|done].
      intros s. unfold badRecord.
      destruct (isString (getField s "name")), (isString (getField s "category"));
        intuition congruence. }
    rewrite <- Hiff. unfold returns, throws.
    destruct (cleanAndDeduplicateData schemes) as [a|e].
    + split; [intros _ [e He]; discriminate | intros _; by exists a].
    + split; [intros [a Ha]; discriminate | intros H; exfalso; apply H; by exists e].
Qed.

(** C7 (as amended).  Whatever the engine's [toLowerCase] and [trim]
    compute: when [cleanAndDeduplicateData] returns, its output is the
    cleaned image, in input order, of the records that are first seen for
    their composite key [lower(name) + '-' + lower(category)] among the
    records whose name is not blank; the key is read from the source record.
    So no two output records stem from the same key, a key carried by some
    non-blank record yields exactly the first such record, records whose
    name is empty or is trimmed to nothing are dropped, and every field of
    every output record is defined (neither [undefined] nor [null]). *)
Theorem cleanAndDeduplicateData_dedup (schemes out : list jsobj) :
  cleanAndDeduplicateData schemes = Return out →
  ∃ kept : list (nat * jsobj),
    out = cleanedOf <$> kept ∧
    StronglySorted lt kept.*1 ∧
    NoDup (rawKey <$> kept.*2) ∧
    (∀ k scheme, (k, scheme) ∈ kept ↔ firstSeen ∅ schemes k scheme) ∧
    Forall (λ o, Forall (λ f, getField o f ≠ JUndefined ∧ getField o f ≠ JNull)
                        cleanedFieldNames) out.
Proof.
  intros H. unfold cleanAndDeduplicateData in H. apply cleanLoop_kept in H. simpl in H.
  exists (keptFrom 0 schemes ∅). split_and!.
  - done.
  - apply keptFrom_sorted.
  - apply keptFrom_NoDup_keys.
  - intros k scheme. rewrite keptFrom_spec. split.
    + by intros (k' & -> & Hfs).
    + intros Hfs. by exists k.
  - subst out. apply Forall_fmap, Forall_forall. intros [i s] _.
    apply Forall_forall. intros f Hf. unfold DedupSpec.cleanedOf.
    exact (cleanedScheme_defined i s _ f Hf).
Qed.

(** The dedup invariant on two records: equal keys, first name not blank. *)
Lemma cleanAndDeduplicateData_pair (r1 r2 : jsobj) :
  ¬ badRecord r1 → ¬ badRecord r2 → rawKey r1 = rawKey r2 → blankName r1 = false →
  cleanAndDeduplicateData [r1; r2] = Return [cleanedOf (0, r1)].
Proof.
  intros H1 H2 Hk Hb. unfold cleanAndDeduplicateData. simpl.
  rewrite (cleanStep_good _ _ _ H1), Hb. simpl.
  rewrite bool_decide_eq_false_2 by apply not_elem_of_empty. simpl.
  rewrite (cleanStep_good _ _ _ H2). simpl.
  rewrite bool_decide_eq_true_2; [done|].
  rewrite Hk. apply elem_of_union. left. by apply elem_of_singleton.
Qed.

End Clean.
End Key.

(** The theorem at three records: two with the same key, one with a blank
    name. *)
Lemma cleanAndDeduplicateData_dedup_witness :
  ∃ kept : list (nat * jsobj),
    sampleCleaned = cleanedOf trimString sampleGenId sampleStamp <$> kept ∧
    StronglySorted lt kept.*1 ∧
    NoDup (rawKey lower <$> kept.*2) ∧
    (∀ k scheme, (k, scheme) ∈ kept ↔ firstSeen lower trimString ∅ sampleSchemes k scheme) ∧
    Forall (λ o, Forall (λ f, getField o f ≠ JUndefined ∧ getField o f ≠ JNull)
                        cleanedFieldNames)
      sampleCleaned.
Proof.
  apply (cleanAndDeduplicateData_dedup lower trimString sampleGenId sampleStamp
           sampleSchemes sampleCleaned).
  vm_cast_no_check (eq_refl (Return sampleCleaned)).
Defined.

(** C7, as stated, fails: two records with the same lower-cased name and
    category and different ids, whose name is empty, produce no record at
    all (not exactly one). *)
Lemma cleanAndDeduplicateData_blank_pair :
  let r1 := record "a1" "" "Health" in
  let r2 := record "a2" "" "health" in
  schemeKey lower r1 = Return "-health" ∧ schemeKey lower r2 = Return "-health" ∧
  getField r1 "id" ≠ getField r2 "id" ∧
  cleanAndDeduplicateData lower trimString sampleGenId sampleStamp [r1; r2] = Return [].
Proof. vm_compute. split_and!; done. Qed.

(** The key is built from the name as fetched while the stored name is
    trimmed: names that differ only in surrounding whitespace are both kept
    and come out with the same name and category. *)
Lemma cleanAndDeduplicateData_untrimmed_key :
  fmap (M := list) (λ o, (getField o "name", getField o "category")) <$>
    cleanAndDeduplicateData lower trimString sampleGenId sampleStamp
      [record "b1" "PMAY" "Housing"; record "b2" "PMAY " "Housing"]
  = Return [(JStr "PMAY", JStr "Housing"); (JStr "PMAY", JStr "Housing")].
Proof. vm_compute. reflexivity. Qed.

End DedupFacts.

(** ** Cosine similarity *)

Module CosineFacts.
Import CosineSpec.

(** Both instances return on vectors of equal length and throw otherwise. *)
Lemma cosineSimilarity_returns {T} `{Arith T} (a b : list T) :
  length a = length b → returns (cosineSimilarity a b).
Proof.
  intros Hlen. unfold cosineSimilarity, returns.
  rewrite Hlen, Nat.eqb_refl. simpl.
  destruct (fold_left _ _ _) as [[d na] nb].
  destruct (_ || _); eauto.
Qed.

Lemma cosineSimilarity_throws {T} `{Arith T} (a b : list T) :
  length a ≠ length b →
  cosineSimilarity a b = Throw (Error "Vectors must have the same length").
Proof.
  intros Hlen. unfold cosineSimilarity.
  by apply Nat.eqb_neq in Hlen as ->.
Qed.
(** *** On doubles *)

Lemma isZeroF_cases (x : float) :
  isZeroF x = true → x = 0%float ∨ x = (-0)%float.
Proof.
  unfold isZeroF. rewrite FloatAxioms.eqb_spec.
  change (Prim2SF 0%float) with (S754_zero false).
  pose proof (SF2Prim_Prim2SF x) as Hx.
  destruct (Prim2SF x) as [s|s| |s m e]; unfold SFeqb; simpl; try discriminate.
  - intros _. rewrite <- Hx. destruct s; [right|left]; reflexivity.
  - by destruct s.
  - by destruct s.
Qed.

(** The loop of the code computes the three sums side by side. *)
Lemma cosine_loop_double (a : list float) : ∀ (b : list float) d na nb,
  length a = length b →
  fold_left cosineStep (zip a b) (d, na, nb) =
    (fold_left (λ sum xy, PrimFloat.add sum (PrimFloat.mul xy.1 xy.2)) (zip a b) d,
     fold_left (λ sum xy, PrimFloat.add sum (PrimFloat.mul xy.1 xy.2)) (zip a a) na,
     fold_left (λ sum xy, PrimFloat.add sum (PrimFloat.mul xy.1 xy.2)) (zip b b) nb).
Proof.
  induction a as [|x a IH]; intros [|y b] d na nb Hlen; try discriminate; [done|].
  simpl in *. by rewrite IH by lia.
Qed.

Lemma cosineSimilarity_double_value (a b : list float) :
  length a = length b → cosineSimilarity a b = Return (cosineF a b).
Proof.
  intros Hlen. unfold cosineSimilarity. rewrite Hlen, Nat.eqb_refl. simpl.
  rewrite cosine_loop_double by done.
  unfold cosineF, normF, dotF, isZeroF.
  by destruct (_ || _).
Qed.

(** The squares of zeros add up to [0]. *)
Lemma dotF_zero (a : list float) :
  Forall (λ x, isZeroF x = true) a → dotF a a = 0%float.
Proof.
  unfold dotF. induction 1 as [|x a Hx _ IH]; [done|]. simpl.
  by destruct (isZeroF_cases x Hx) as [-> | ->].
Qed.

Lemma cosineF_zero (a b : list float) :
  Forall (λ x, isZeroF x = true) a ∨ Forall (λ x, isZeroF x = true) b →
  cosineF a b = 0%float.
Proof.
  unfold cosineF, normF. intros [H|H]; rewrite (dotF_zero _ H).
  - done.
  - change (isZeroF (PrimFloat.sqrt 0)) with true. by rewrite orb_true_r.
Qed.

(** C6 (as amended).  On the doubles the code computes with,
    [cosineSimilarity] throws exactly when the two vectors differ in length
    and otherwise returns [dot(a,b) / (||a|| * ||b||)] evaluated operation
    by operation, the sums taken from [0] in index order: [0] when either
    computed norm is [0], the quotient otherwise.  When every component of
    one of the vectors is zero the result is [0], whatever the other vector
    holds. *)
Theorem cosineSimilarity_double (a b : list float) :
  (length a ≠ length b →
     cosineSimilarity a b = Throw (Error "Vectors must have the same length")) ∧
  (length a = length b →
     cosineSimilarity a b = Return (cosineF a b) ∧
     (isZeroF (normF a) = true ∨ isZeroF (normF b) = true → cosineF a b = 0%float) ∧
     (isZeroF (normF a) = false → isZeroF (normF b) = false →
        cosineF a b = PrimFloat.div (dotF a b) (PrimFloat.mul (normF a) (normF b))) ∧
     (Forall (λ x, isZeroF x = true) a ∨ Forall (λ x, isZeroF x = true) b →
        cosineSimilarity a b = Return 0%float)).
Proof.
  split; [apply cosineSimilarity_throws|].
  intros Hlen. rewrite (cosineSimilarity_double_value a b Hlen). split_and!.
  - done.
  - unfold cosineF. intros [-> | ->]; [done|by rewrite orb_true_r].
  - unfold cosineF. by intros -> ->.
  - intros Hz. by rewrite (cosineF_zero a b Hz).
Qed.

(** C6, as stated, fails on doubles.  The similarity of [[1, 1, 1]] with
    itself is [1.0000000000000002], neither [1] nor at most [1]; where the
    squares overflow the result is NaN; where they underflow it is [0]
    although the vector is not zero. *)
Lemma cosineSimilarity_double_bounds_fail :
  (∃ c : float,
     cosineSimilarity [1; 1; 1]%float [1; 1; 1]%float = Return c ∧
     PrimFloat.ltb 1%float c = true ∧ PrimFloat.eqb c 1%float = false) ∧
  cosineSimilarity [0x1p+600]%float [0x1p+600]%float = Return nan ∧
  cosineSimilarity [0x1p-600]%float [0x1p-600]%float = Return 0%float.
Proof. split; [eexists|]; vm_compute; split_and!; reflexivity. Qed.

(** Without the test for a zero norm, a zero vector would give NaN: that is
    what the quotient is. *)
Lemma cosineSimilarity_double_guard :
  cosineSimilarity [0; 0]%float [1; 2]%float = Return 0%float ∧
  PrimFloat.div (dotF [0; 0]%float [1; 2]%float)
    (PrimFloat.mul (normF [0; 0]%float) (normF [1; 2]%float)) = nan.
Proof. vm_compute. split; reflexivity. Qed.

(** *** In exact arithmetic

    The formula that the doubles approximate, read over the real numbers;
    no statement about the code rests on it. *)

Section Exact.
Local Open Scope R_scope.

Lemma cosine_loop (a : list R) : ∀ (b : list R) d na nb,
  length a = length b →
  fold_left cosineStep (zip a b) (d, na, nb) =
    (d + dot a b, na + dot a a, nb + dot b b).
Proof.
  induction a as [|x a IH]; intros [|y b] d na nb Hlen; try discriminate.
  - simpl. f_equal; [f_equal|]; lra.
  - simpl in *. rewrite IH by lia. f_equal; [f_equal|]; lra.
Qed.

Lemma dot_self_nonneg (a : list R) : 0 <= dot a a.
Proof. induction a as [|x a IH]; simpl; [lra|nra]. Qed.

Lemma cauchy_schwarz (a : list R) : ∀ b : list R,
  length a = length b → (dot a b)² <= dot a a * dot b b.
Proof.
  induction a as [|x a IH]; intros [|y b] Hlen; try discriminate; unfold Rsqr in *.
  - simpl. lra.
  - simpl in *. specialize (IH b ltac:(lia)).
    pose proof (dot_self_nonneg a) as HA. pose proof (dot_self_nonneg b) as HB.
    set (S := dot a b) in *. set (A := dot a a) in *. set (B := dot b b) in *.
    assert (2 * (x * y) * S <= x * x * B + y * y * A) as Hmid.
    { destruct (Rle_or_lt (2 * (x * y) * S) (x * x * B + y * y * A)) as [|Hgt]; [done|].
      exfalso.
      assert (0 <= x * x) as Hxx by nra. assert (0 <= y * y) as Hyy by nra.
      assert (0 <= x * x * B + y * y * A) as Hpos.
      { apply Rplus_le_le_0_compat; by apply Rmult_le_pos. }
      assert ((x * x * B + y * y * A) * (x * x * B + y * y * A)
              < (2 * (x * y) * S) * (2 * (x * y) * S)) as Hsq by nra.
      assert ((2 * (x * y) * S) * (2 * (x * y) * S) <= 4 * (x * x) * (y * y) * (A * B)) as Hle.
      { replace ((2 * (x * y) * S) * (2 * (x * y) * S)) with (4 * ((x * x) * (y * y)) * (S * S)) by ring.
        replace (4 * (x * x) * (y * y) * (A * B)) with (4 * ((x * x) * (y * y)) * (A * B)) by ring.
        apply Rmult_le_compat_l; [nra|done]. }
      pose proof (Rle_0_sqr (x * x * B - y * y * A)) as Hamgm. unfold Rsqr in Hamgm.
      assert ((x * x * B + y * y * A) * (x * x * B + y * y * A)
              - 4 * (x * x) * (y * y) * (A * B)
              = (x * x * B - y * y * A) * (x * x * B - y * y * A)) as Hid by ring.
      lra. }
    replace ((x * y + S) * (x * y + S))
      with (x * x * (y * y) + 2 * (x * y) * S + S * S) by ring.
    replace ((x * x + A) * (y * y + B))
      with (x * x * (y * y) + (x * x * B + y * y * A) + A * B) by ring.
    lra.
Qed.

Lemma norm_zero_iff (a : list R) : norm a = 0 ↔ dot a a = 0.
Proof.
  unfold norm. split.
  - intros H. apply sqrt_eq_0; [apply dot_self_nonneg|done].
  - intros ->. apply sqrt_0.
Qed.

Lemma norm_nonzero_iff (a : list R) : norm a ≠ 0 ↔ Exists (λ x, x ≠ 0) a.
Proof.
  rewrite norm_zero_iff. induction a as [|x a IH]; simpl.
  - split; [lra | intros H; inversion H].
  - rewrite Exists_cons, <- IH. pose proof (dot_self_nonneg a).
    split.
    + intros Hne. destruct (Req_dec_T x 0) as [->|]; [right; lra | by left].
    + intros [Hx|Ha]; nra.
Qed.

Lemma norm_sq (a : list R) : norm a * norm a = dot a a.
Proof. apply sqrt_sqrt, dot_self_nonneg. Qed.

Lemma norm_nonneg (a : list R) : 0 <= norm a.
Proof. apply sqrt_pos. Qed.

Lemma cosine_real_value (a b : list R) :
  length a = length b →
  cosineSimilarity a b =
    Return (if Req_dec_T (norm a) 0 then 0
            else if Req_dec_T (norm b) 0 then 0
            else dot a b / (norm a * norm b)).
Proof.
  intros Hlen. unfold cosineSimilarity.
  rewrite Hlen, Nat.eqb_refl. simpl.
  rewrite cosine_loop by done. rewrite !Rplus_0_l.
  fold (norm a) (norm b).
  destruct (Req_dec_T (norm a) 0); [done|].
  by destruct (Req_dec_T (norm b) 0).
Qed.

(** The exact-arithmetic reading of the formula, which the doubles
    approximate: there the result is [dot(a,b) / (||a|| * ||b||)] when both
    norms are non-zero and [0] otherwise, it lies in [[-1, 1]], and the
    similarity of a vector that has a non-zero component with itself is
    [1]. *)
Lemma cosineSimilarity_exact (a b : list R) :
  length a = length b →
  ∃ c : R,
    cosineSimilarity a b = Return c ∧
    (norm a ≠ 0 → norm b ≠ 0 → c = dot a b / (norm a * norm b)) ∧
    (norm a = 0 ∨ norm b = 0 → c = 0) ∧
    -1 <= c <= 1 ∧
    (Exists (λ x, x ≠ 0) a → cosineSimilarity a a = Return 1).
Proof.
  intros Hlen. eexists. split; [by apply cosine_real_value|].
  split; [|split; [|split]].
  - intros Ha Hb. destruct (Req_dec_T (norm a) 0); [done|].
    by destruct (Req_dec_T (norm b) 0).
  - intros [Ha|Hb]; destruct (Req_dec_T (norm a) 0); try done.
    by destruct (Req_dec_T (norm b) 0).
  - destruct (Req_dec_T (norm a) 0) as [|Ha]; [lra|].
    destruct (Req_dec_T (norm b) 0) as [|Hb]; [lra|].
    pose proof (norm_nonneg a). pose proof (norm_nonneg b).
    pose proof (cauchy_schwarz a b Hlen) as Hcs. unfold Rsqr in Hcs.
    rewrite <- (norm_sq a), <- (norm_sq b) in Hcs.
    assert (0 < norm a * norm b) as Hpos by nra.
    assert (- (norm a * norm b) <= dot a b <= norm a * norm b) as [Hlo Hhi] by nra.
    split.
    + apply Rmult_le_reg_r with (norm a * norm b); [done|].
      unfold Rdiv. rewrite Rmult_assoc, Rinv_l by lra. lra.
    + apply Rmult_le_reg_r with (norm a * norm b); [done|].
      unfold Rdiv. rewrite Rmult_assoc, Rinv_l by lra. lra.
  - intros Hne%norm_nonzero_iff.
    rewrite cosine_real_value by done.
    destruct (Req_dec_T (norm a) 0); [done|].
    f_equal. rewrite norm_sq. apply Rdiv_diag.
    rewrite <- norm_sq. nra.
Qed.
End Exact.

End CosineFacts.

(** ** The monad *)

Module RunFacts.

Lemma bind_Ret {A B} (m : M A) (f : A → M B) w a w' :
  m w = Ret a w' → (m ≫= f) w = f a w'.
Proof. unfold mbind, M_bind. by intros ->. Qed.

Lemma bind_Err {A B} (m : M A) (f : A → M B) w e w' :
  m w = Err e w' → (m ≫= f) w = Err e w'.
Proof. unfold mbind, M_bind. by intros ->. Qed.

Lemma bind_Hang {A B} (m : M A) (f : A → M B) w :
  m w = Hang → (m ≫= f) w = Hang.
Proof. unfold mbind, M_bind. by intros ->. Qed.

Lemma liftO_bind {A B} (a : A) (f : A → M B) w : (liftO (Return a) ≫= f) w = f a w.
Proof. reflexivity. Qed.

Lemma getWorld_bind {B} (f : World → M B) w : (getWorld ≫= f) w = f w w.
Proof. reflexivity. Qed.

Lemma modify_bind {B} (g : World → World) (f : unit → M B) w :
  (modify g ≫= f) w = f tt (g w).
Proof. reflexivity. Qed.

Lemma tryCatch_rethrow {A} (m : M A) w : tryCatch m (λ e, throw e) w = m w.
Proof. unfold tryCatch, throw. by destruct (m w). Qed.

Lemma slice_nil {A} (start stop : Z) : slice (@nil A) start stop = [].
Proof. unfold slice. by rewrite drop_nil, take_nil. Qed.

Lemma bind_Ret_inv {A B} (m : M A) (f : A → M B) w b w' :
  (m ≫= f) w = Ret b w' → ∃ a w1, m w = Ret a w1 ∧ f a w1 = Ret b w'.
Proof.
  unfold mbind, M_bind. destruct (m w) as [a w1|e w1|]; [|done..]. eauto.
Qed.

End RunFacts.
Import RunFacts.

(** ** Search *)

Module SearchFacts.
Import VectorDB RunSpec.

Section WithEnv.
Variable env : Env.

Lemma generateEmbedding_cases text w :
  (∃ v, generateEmbedding env text w = Ret v (bump 1 w)) ∨
  (∃ e, generateEmbedding env text w = Err e (bump 1 w)).
Proof.
  unfold generateEmbedding, tryCatch, ask, liftO.
  destruct (llmEmbedding env (tick w) text); [eauto|].
  destruct (generateSimpleEmbedding text); eauto.
Qed.

Lemma generateEmbedding_string s w :
  ∃ v, generateEmbedding env (JStr s) w = Ret v (bump 1 w).
Proof.
  unfold generateEmbedding, tryCatch, ask, liftO.
  destruct (llmEmbedding env (tick w) (JStr s)); eauto.
Qed.

Lemma searchBody_settles query limit w : searchBody env query limit w ≠ Hang.
Proof.
  unfold searchBody.
  destruct (generateEmbedding_cases query w) as [[v Hv]|[e He]].
  - rewrite (bind_Ret _ _ _ _ _ Hv). simpl.
    unfold mbind, M_bind, getWorld. simpl.
    destruct (collection w).
    + unfold collectionQuery, ask, liftO.
      destruct (chromaQuery env _ v limit) as [r|]; [|done].
      by destruct (chromaHits r).
    + unfold liftO. by destruct (searchInMemoryVectors _ v limit).
  - by rewrite (bind_Err _ _ _ _ _ He).
Qed.

Lemma searchInMemoryVectors_empty w q limit :
  inMemoryEmbeddings w = [] → searchInMemoryVectors w q limit = Return [].
Proof.
  unfold searchInMemoryVectors. intros ->. simpl.
  unfold sortBySimilarity. simpl. by rewrite slice_nil.
Qed.

(** C1. [searchSimilarSchemes] resolves for every query (a string or any
    other value), every limit and every state: it never rejects and never
    hangs.  Whatever throws inside its [try] block yields the empty list:
    the embedding (provider and fallback both failing), the query to the
    external service, the mapping of its answer, or the in-process scan.
    An empty in-process index, and an external answer without entries,
    yield the empty list too. *)
Theorem searchSimilarSchemes_never_throws (query : jsval) (limit : Z) (w : World) :
  ∃ hits w',
    searchSimilarSchemes env query limit w = Ret hits w' ∧
    (∀ e w1, searchBody env query limit w = Err e w1 → hits = [] ∧ w' = w1) ∧
    (∀ e w1, generateEmbedding env query w = Err e w1 → hits = []) ∧
    (∀ q w1 e, generateEmbedding env query w = Ret q w1 → collection w = true →
       chromaQuery env (tick w1) q limit = Throw e → hits = []) ∧
    (∀ q w1 r e, generateEmbedding env query w = Ret q w1 → collection w = true →
       chromaQuery env (tick w1) q limit = Return r → chromaHits r = Throw e → hits = []) ∧
    (∀ q w1 e, generateEmbedding env query w = Ret q w1 → collection w = false →
       searchInMemoryVectors w1 q limit = Throw e → hits = []) ∧
    (collection w = false → inMemoryEmbeddings w = [] → hits = []) ∧
    (∀ q w1 r, generateEmbedding env query w = Ret q w1 → collection w = true →
       chromaQuery env (tick w1) q limit = Return r → qr_metadatas r !! 0 = Some [] →
       hits = []).
Proof.
  pose proof (searchBody_settles query limit w) as Hsettles.
  unfold searchSimilarSchemes, tryCatch.
  destruct (searchBody env query limit w) as [hits w'|e w'|] eqn:Hbody; [| |done].
  - exists hits, w'. split; [done|].
    unfold searchBody in Hbody.
    split_and!; try done.
    + intros e w1 He. by rewrite (bind_Err _ _ _ _ _ He) in Hbody.
    + intros q w1 e Hq Hc Hthrow.
      rewrite (bind_Ret _ _ _ _ _ Hq) in Hbody.
      destruct (generateEmbedding_cases query w) as [[v Hv]|[e' He']]; [|congruence].
      assert (w1 = bump 1 w) as -> by congruence.
      unfold mbind, M_bind, getWorld in Hbody. simpl in Hbody. rewrite Hc in Hbody.
      unfold collectionQuery, ask in Hbody. simpl in *. by rewrite Hthrow in Hbody.
    + intros q w1 r e Hq Hc Hr Hthrow.
      rewrite (bind_Ret _ _ _ _ _ Hq) in Hbody.
      destruct (generateEmbedding_cases query w) as [[v Hv]|[e' He']]; [|congruence].
      assert (w1 = bump 1 w) as -> by congruence.
      unfold mbind, M_bind, getWorld in Hbody. simpl in Hbody. rewrite Hc in Hbody.
      unfold collectionQuery, ask, liftO in Hbody. simpl in *.
      by rewrite Hr, Hthrow in Hbody.
    + intros q w1 e Hq Hc Hthrow.
      rewrite (bind_Ret _ _ _ _ _ Hq) in Hbody.
      destruct (generateEmbedding_cases query w) as [[v Hv]|[e' He']]; [|congruence].
      assert (w1 = bump 1 w) as -> by congruence.
      unfold mbind, M_bind, getWorld in Hbody. simpl in Hbody. rewrite Hc in Hbody.
      unfold liftO in Hbody. by rewrite Hthrow in Hbody.
    + intros Hc Hempty.
      destruct (generateEmbedding_cases query w) as [[v Hv]|[e' He']].
      * rewrite (bind_Ret _ _ _ _ _ Hv) in Hbody.
        unfold mbind, M_bind, getWorld in Hbody. simpl in Hbody. rewrite Hc in Hbody.
        unfold liftO in Hbody.
        rewrite searchInMemoryVectors_empty in Hbody by done. congruence.
      * by rewrite (bind_Err _ _ _ _ _ He') in Hbody.
    + intros q w1 r Hq Hc Hr Hnone.
      rewrite (bind_Ret _ _ _ _ _ Hq) in Hbody.
      destruct (generateEmbedding_cases query w) as [[v Hv]|[e' He']]; [|congruence].
      assert (w1 = bump 1 w) as -> by congruence.
      unfold mbind, M_bind, getWorld in Hbody. simpl in Hbody. rewrite Hc in Hbody.
      unfold collectionQuery, ask, liftO in Hbody. simpl in *.
      rewrite Hr in Hbody. unfold chromaHits in Hbody. rewrite Hnone in Hbody.
      simpl in Hbody. congruence.
  - exists [], w'. split; [done|].
    split_and!; intros; by simplify_eq.
Qed.

(** On the in-memory path [addSchemeToVectorDB] appends: whatever the index
    already holds, a record whose text can be built adds one more entry
    carrying the record's id. *)
Lemma addSchemeToVectorDB_in_memory_appends scheme w :
  collection w = false → returns (createSchemeText scheme) →
  ∃ w', addSchemeToVectorDB env scheme w = Ret tt w' ∧
        ve_id <$> inMemoryVectors w' = (ve_id <$> inMemoryVectors w) ++ [getField scheme "id"] ∧
        length (inMemoryEmbeddings w') = S (length (inMemoryEmbeddings w)).
Proof.
  intros Hc [text Htext].
  unfold addSchemeToVectorDB, tryCatch, addSchemeBody.
  rewrite Htext. unfold mbind at 1, M_bind, liftO at 1.
  destruct (generateEmbedding_string text w) as [v Hv].
  rewrite (bind_Ret _ _ _ _ _ Hv).
  assert (∃ md, schemeMetadata scheme = Return md) as [md Hmd].
  { unfold schemeMetadata. unfold createSchemeText in Htext.
    destruct (optJoin ", " (getField scheme "eligibility")); [|done].
    destruct (optJoin ", " (getField scheme "documentsRequired")); [|done].
    destruct (optJoin ", " (getField scheme "applicationProcedure")); [|done].
    destruct (optJoin ", " (getField scheme "tags")); [|done]. by eexists. }
  rewrite Hmd. unfold mbind, M_bind, liftO, getWorld, modify. simpl. rewrite Hc.
  eexists. split; [done|]. simpl. rewrite fmap_app, length_app. simpl. split; [done|lia].
Qed.

End WithEnv.

(** The theorem where the provider is down (the fallback embeds) and the
    vector service refuses the query. *)
Lemma searchSimilarSchemes_never_throws_witness :
  ∃ w', searchSimilarSchemes failingEnv (JStr "farmer income support") 5 chromaWorld = Ret [] w'.
Proof.
  destruct (searchSimilarSchemes_never_throws failingEnv (JStr "farmer income support") 5
              chromaWorld) as (hits & w' & Hrun & _ & _ & Hquery & _).
  exists w'. rewrite Hrun. f_equal.
  destruct (generateEmbedding_string failingEnv "farmer income support" chromaWorld) as [v Hv].
  by apply (Hquery v _ (Error "connect ECONNREFUSED") Hv).
Defined.

(** C3 at the failing input: on the in-memory fallback, adding a record and
    then a changed record with the same id leaves two entries under that id,
    and a search returns both. *)
Theorem upsert_twice_in_memory_keeps_both :
  let v1 := scheme "pm-kisan" "PM Kisan" "Agriculture" "income support of 6000 rupees" in
  let v2 := scheme "pm-kisan" "PM Kisan" "Agriculture" "income support of 8000 rupees" in
  ∃ h1 h2 w',
    (_ ← addSchemeToVectorDB quietEnv v1;
     _ ← addSchemeToVectorDB quietEnv v2;
     searchSimilarSchemes quietEnv (JStr "pm kisan income support") 5) memoryWorld
      = Ret [h1; h2] w' ∧
    hit_id h1 = JStr "pm-kisan" ∧ hit_id h2 = JStr "pm-kisan" ∧
    ve_id <$> inMemoryVectors w' = [JStr "pm-kisan"; JStr "pm-kisan"].
Proof. eexists _, _, _. vm_compute. split_and!; reflexivity. Qed.

End SearchFacts.

(** ** Batches *)

Module ChunkFacts.
Import VectorDB RunSpec.

Lemma chunksOf_nil {A} fuel c : chunksOf fuel c (@nil A) = [].
Proof. by destruct fuel. Qed.

Lemma chunksOf_concat {A} fuel c : ∀ l : list A,
  0 < c → length l ≤ fuel → concat (chunksOf fuel c l) = l.
Proof.
  induction fuel as [|fuel IH]; intros l Hc Hlen.
  - destruct l; [done|simpl in Hlen; lia].
  - destruct l as [|x l]; [done|].
    change (chunksOf (S fuel) c (x :: l))
      with (take c (x :: l) :: chunksOf fuel c (drop c (x :: l))).
    simpl concat. rewrite IH; [apply take_drop|done|].
    rewrite length_drop. simpl in *. lia.
Qed.

Lemma chunkSizes_small n c : 0 < n → n < c → chunkSizes n c = [n].
Proof.
  intros Hn Hlt. unfold chunkSizes.
  rewrite Nat.div_small, Nat.mod_small by done. simpl.
  by destruct (Nat.eqb_spec n 0); [lia|].
Qed.

Lemma chunkSizes_step n c : 0 < c → c ≤ n → chunkSizes n c = c :: chunkSizes (n - c) c.
Proof.
  intros Hc Hle. unfold chunkSizes.
  assert (∃ m, n = m + 1 * c) as [m ->] by (exists (n - c); lia).
  replace (m + 1 * c - c) with m by lia.
  rewrite Nat.div_add, Nat.Div0.mod_add by lia.
  by rewrite Nat.add_1_r.
Qed.

Lemma chunksOf_sizes {A} fuel c : ∀ l : list A,
  0 < c → length l ≤ fuel → length <$> chunksOf fuel c l = chunkSizes (length l) c.
Proof.
  induction fuel as [|fuel IH]; intros l Hc Hlen.
  - destruct l; [|simpl in Hlen; lia]. unfold chunkSizes. simpl.
    by rewrite Nat.Div0.div_0_l, Nat.Div0.mod_0_l.
  - destruct l as [|x l].
    + unfold chunkSizes. simpl. by rewrite Nat.Div0.div_0_l, Nat.Div0.mod_0_l.
    + change (chunksOf (S fuel) c (x :: l))
        with (take c (x :: l) :: chunksOf fuel c (drop c (x :: l))).
      rewrite fmap_cons, IH, length_take, length_drop; [|done|rewrite length_drop; simpl in *; lia].
      destruct (decide (c ≤ length (x :: l))) as [Hle|Hgt].
      * rewrite (chunkSizes_step (length (x :: l))) by done. f_equal. lia.
      * rewrite (chunkSizes_small (length (x :: l))) by (simpl in *; lia).
        replace (length (x :: l) - c) with 0 by lia.
        unfold chunkSizes. rewrite Nat.Div0.div_0_l, Nat.Div0.mod_0_l. simpl in *.
        f_equal. lia.
Qed.

Lemma chunkSizes_length n c : 0 < c → length (chunkSizes n c) = (n + c - 1) / c.
Proof.
  intros Hc. unfold chunkSizes. rewrite length_app, length_replicate.
  pose proof (Nat.div_mod_eq n c) as Hdm.
  pose proof (Nat.mod_upper_bound n c ltac:(lia)) as Hub.
  destruct (Nat.eqb_spec (n mod c) 0) as [Hz|Hnz]; simpl.
  - apply (Nat.div_unique _ _ _ (c - 1)); [lia|]. nia.
  - apply (Nat.div_unique _ _ _ (n mod c - 1)); [lia|]. nia.
Qed.

Lemma slice_chunk {A} (l : list A) (s c : nat) :
  slice l (Z.of_nat s) (Z.of_nat s + Z.of_nat c) = take c (drop s l).
Proof.
  unfold slice, sliceIndex.
  destruct (Z.ltb_spec (Z.of_nat s) 0); [lia|].
  destruct (Z.ltb_spec (Z.of_nat s + Z.of_nat c) 0); [lia|].
  destruct (decide (s ≤ length l)) as [Hle|Hgt].
  - rewrite (Z.min_l (Z.of_nat s)) by lia. rewrite Nat2Z.id.
    destruct (decide (s + c ≤ length l)).
    + rewrite Z.min_l by lia. f_equal. lia.
    + rewrite Z.min_r by lia.
      rewrite !take_ge; [done|rewrite length_drop; lia|rewrite length_drop; lia].
  - rewrite !Z.min_r by lia. rewrite Z.sub_diag. simpl.
    rewrite Nat2Z.id. rewrite (drop_ge l s) by lia. by rewrite take_nil.
Qed.

End ChunkFacts.

(** ** Ingestion *)

Module IngestionFacts.
Import VectorDB RAGTrainer RunSpec SearchFacts ChunkFacts.

Lemma sameStore_refl w : sameStore w w.
Proof. done. Qed.

Lemma sameStore_trans w1 w2 w3 : sameStore w1 w2 → sameStore w2 w3 → sameStore w1 w3.
Proof. unfold sameStore. intros (?&?&?&?) (?&?&?&?). split_and!; congruence. Qed.

Lemma textOk_metadata scheme : textOk scheme → returns (schemeMetadata scheme).
Proof.
  intros [text Htext]. unfold schemeMetadata, returns. unfold createSchemeText in Htext.
  destruct (optJoin ", " (getField scheme "eligibility")); [|done].
  destruct (optJoin ", " (getField scheme "documentsRequired")); [|done].
  destruct (optJoin ", " (getField scheme "applicationProcedure")); [|done].
  destruct (optJoin ", " (getField scheme "tags")); [|done]. by eexists.
Qed.

Lemma optJoin_TypeError sep v e : optJoin sep v = Throw e → ∃ msg, e = TypeError msg.
Proof. destruct v; simpl; intros [= <-]; by eexists. Qed.

Lemma createSchemeText_TypeError scheme e :
  createSchemeText scheme = Throw e → ∃ msg, e = TypeError msg.
Proof.
  unfold createSchemeText.
  destruct (optJoin ", " (getField scheme "eligibility")) eqn:H1;
    [|intros [= <-]; by eapply optJoin_TypeError].
  destruct (optJoin ", " (getField scheme "documentsRequired")) eqn:H2;
    [|intros [= <-]; by eapply optJoin_TypeError].
  destruct (optJoin ", " (getField scheme "applicationProcedure")) eqn:H3;
    [|intros [= <-]; by eapply optJoin_TypeError].
  destruct (optJoin ", " (getField scheme "tags")) eqn:H4;
    [|intros [= <-]; by eapply optJoin_TypeError].
  done.
Qed.

Lemma textOk_meta scheme : textOk scheme → schemeMetadata scheme = Return (metaOf scheme).
Proof.
  intros [text Htext]. unfold schemeMetadata, metaOf. unfold createSchemeText in Htext.
  destruct (optJoin ", " (getField scheme "eligibility")); [|done].
  destruct (optJoin ", " (getField scheme "documentsRequired")); [|done].
  destruct (optJoin ", " (getField scheme "applicationProcedure")); [|done].
  by destruct (optJoin ", " (getField scheme "tags")).
Qed.

Lemma chunksOf_Forall {A} (P : A → Prop) fuel c : ∀ l : list A,
  Forall P l → Forall (Forall P) (chunksOf fuel c l).
Proof.
  induction fuel as [|fuel IH]; intros l Hl; [constructor|].
  destruct l as [|x l]; [constructor|].
  change (chunksOf (S fuel) c (x :: l))
    with (take c (x :: l) :: chunksOf fuel c (drop c (x :: l))).
  constructor; [by apply Forall_take|]. by apply IH, Forall_drop.
Qed.

Lemma concat_fmap_each {A B} (f : A → B) (ls : list (list A)) :
  concat (fmap (M := list) f <$> ls) = f <$> concat ls.
Proof.
  induction ls as [|l ls IH]; [done|].
  change ((f <$> l) ++ concat (fmap (M := list) f <$> ls) = f <$> (l ++ concat ls)).
  by rewrite fmap_app, IH.
Qed.

Lemma carries_ids batches issued :
  Forall2 carries batches issued → add_ids <$> issued = fmap (M := list) idOf <$> batches.
Proof. induction 1 as [|b call bs cs (Hids & _) _ IH]; [done|]. by rewrite !fmap_cons, IH, Hids. Qed.

Lemma carries_sizes batches issued :
  Forall2 carries batches issued →
  (λ call, length (add_ids call)) <$> issued = length <$> batches.
Proof.
  induction 1 as [|b call bs cs (Hids & _) _ IH]; [done|].
  by rewrite !fmap_cons, IH, Hids, length_fmap.
Qed.

Section WithEnv.
Variable env : Env.

Lemma collectionAdd_run call w :
  collectionAdd env call w =
    match chromaAdd env (tick w) call with
    | Return _ => Ret tt (bump 1 (logAdd call w))
    | Throw e => Err e (bump 1 (logAdd call w))
    end.
Proof.
  unfold collectionAdd, mbind, M_bind, modify, ask. simpl.
  by destruct (chromaAdd env (tick w) call) as [[]|].
Qed.

Lemma collectionAdd_bind {B} call (f : unit → M B) w :
  (collectionAdd env call ≫= f) w =
    match chromaAdd env (tick w) call with
    | Return _ => f tt (bump 1 (logAdd call w))
    | Throw e => Err e (bump 1 (logAdd call w))
    end.
Proof.
  unfold mbind at 1, M_bind. rewrite collectionAdd_run.
  by destruct (chromaAdd env (tick w) call) as [[]|].
Qed.

(** The inner loop: either the text of every record of the batch can be
    built, and the call for the batch comes out; or it cannot, and the loop
    throws before anything is sent. *)
Lemma embedBatch_cases batch : ∀ acc w,
  (Forall textOk batch ∧
   ∃ call w', embedBatch env batch acc w = Ret call w' ∧
     add_ids call = add_ids acc ++ (idOf <$> batch) ∧
     add_metadatas call = add_metadatas acc ++ (metaOf <$> batch) ∧
     length (add_documents call) = length (add_documents acc) + length batch ∧
     length (add_embeddings call) = length (add_embeddings acc) + length batch ∧
     sameStore w w' ∧ addCalls w' = addCalls w)
  ∨ (Exists (λ s, ¬ textOk s) batch ∧
     ∃ msg w', embedBatch env batch acc w = Err (TypeError msg) w' ∧
       sameStore w w' ∧ addCalls w' = addCalls w).
Proof.
  induction batch as [|scheme rest IH]; intros acc w.
  - left. split; [constructor|]. exists acc, w. simpl. rewrite !app_nil_r.
    split_and!; first [done|lia].
  - cbn [embedBatch]. destruct (createSchemeText scheme) as [text|e] eqn:Htext.
    + assert (textOk scheme) as Hs by (by exists text).
      rewrite liftO_bind.
      destruct (generateEmbedding_string env text w) as [v Hv].
      rewrite (bind_Ret _ _ _ _ _ Hv), (textOk_meta scheme Hs), liftO_bind.
      destruct (IH (mkAddCall (add_documents acc ++ [text])
                      (add_metadatas acc ++ [metaOf scheme])
                      (add_ids acc ++ [getField scheme "id"]) (add_embeddings acc ++ [v]))
                   (bump 1 w))
        as [(Hrest & call & w' & Hrun & Hids & Hmds & Hdocs & Hlen & Hst & Hcalls)
           |(Hbad & msg & w' & Hrun & Hst & Hcalls)].
      * left. split; [by constructor|]. exists call, w'. simpl in *.
        rewrite Hids, Hmds, Hdocs, Hlen, !length_app, <- !app_assoc. simpl.
        split_and!; first [done|lia].
      * right. split; [by right|]. by exists msg, w'.
    + right. split; [left; intros [text Ht]; unfold textOk in *; congruence|].
      destruct (createSchemeText_TypeError _ _ Htext) as [msg ->].
      exists msg, w. split_and!; done.
Qed.

(** The loop over the batches, from position [start] on.  The batches are
    sent in order, each after its records were embedded, for as long as
    nothing fails: either every remaining batch is sent and accepted, or
    the service refuses a batch, or a batch holds a record whose text cannot
    be built and is not sent.  After a failure nothing more is sent. *)
Lemma chunkLoop_cases (schemes : list jsobj) (c : nat) fuel : ∀ start w,
  0 < c → length schemes ≤ start + fuel →
  ∃ k issued w',
    addCalls w' = addCalls w ++ issued ∧ sameStore w w' ∧
    Forall2 carries (take k (chunksOf fuel c (drop start schemes))) issued ∧
    ( (chunkLoop env fuel schemes (Z.of_nat c) (Z.of_nat start) w = Ret tt w' ∧
       k = length (chunksOf fuel c (drop start schemes)) ∧
       Forall (λ call, answered env call (Return tt)) issued)
    ∨ (∃ e sent call,
         chunkLoop env fuel schemes (Z.of_nat c) (Z.of_nat start) w = Err e w' ∧
         issued = sent ++ [call] ∧
         k ≤ length (chunksOf fuel c (drop start schemes)) ∧
         Forall (λ call, answered env call (Return tt)) sent ∧
         answered env call (Throw e))
    ∨ (∃ msg batch,
         chunkLoop env fuel schemes (Z.of_nat c) (Z.of_nat start) w = Err (TypeError msg) w' ∧
         chunksOf fuel c (drop start schemes) !! k = Some batch ∧
         Exists (λ s, ¬ textOk s) batch ∧
         Forall (λ call, answered env call (Return tt)) issued) ).
Proof.
  induction fuel as [|fuel IH]; intros start w Hc Hfuel.
  - exists 0, [], w. rewrite app_nil_r. split_and!; [done|done|constructor|]. left.
    simpl. destruct (Z.ltb_spec (Z.of_nat start) (Z.of_nat (length schemes))); [lia|done].
  - cbn [chunkLoop].
    destruct (Z.ltb_spec (Z.of_nat start) (Z.of_nat (length schemes))) as [Hlt|Hge].
    2:{ exists 0, [], w. rewrite app_nil_r. split_and!; [done|done|constructor|]. left.
        rewrite drop_ge by lia. done. }
    rewrite slice_chunk.
    set (batch := take c (drop start schemes)).
    assert (chunksOf (S fuel) c (drop start schemes) =
            batch :: chunksOf fuel c (drop (start + c) schemes)) as Hchunks.
    { destruct (drop start schemes) as [|x l] eqn:Hl.
      - apply (f_equal length) in Hl. rewrite length_drop in Hl. simpl in Hl. lia.
      - change (chunksOf (S fuel) c (x :: l))
          with (take c (x :: l) :: chunksOf fuel c (drop c (x :: l))).
        unfold batch. by rewrite <- Hl, drop_drop. }
    rewrite Hchunks.
    destruct (embedBatch_cases batch (mkAddCall [] [] [] []) w)
      as [(Hok & call & w1 & Hrun & Hids & Hmds & Hdocs & Hlen & Hst1 & Hcalls1)
         |(Hbad & msg & w1 & Hrun & Hst1 & Hcalls1)].
    2:{ exists 0, [], w1. rewrite app_nil_r. split_and!; [done|done|constructor|].
        right. right. exists msg, batch. rewrite (bind_Err _ _ _ _ _ Hrun).
        split_and!; done. }
    simpl in Hids, Hmds, Hdocs, Hlen.
    assert (carries batch call) as Hcarries by done.
    rewrite (bind_Ret _ _ _ _ _ Hrun), collectionAdd_bind.
    destruct (chromaAdd env (tick w1) call) as [[]|e] eqn:Hadd.
    + replace (Z.of_nat start + Z.of_nat c)%Z with (Z.of_nat (start + c)) by lia.
      destruct (IH (start + c) (bump 1 (logAdd call w1)) Hc ltac:(lia))
        as (k & issued & w' & Hcalls & Hst & Hsent & Hres).
      assert (answered env call (Return tt)) as Hacc by (by exists (tick w1)).
      exists (S k), (call :: issued), w'. split_and!.
      * rewrite Hcalls. simpl. rewrite Hcalls1, <- app_assoc. done.
      * eapply sameStore_trans; [exact Hst1|]. eapply sameStore_trans; [|exact Hst]. done.
      * simpl. by constructor.
      * destruct Hres as [(Hret & -> & Hall)
                         |[(e & sent & call' & Herr & -> & Hk & Hall & Hlast)
                          |(msg & bad & Herr & Hlook & Hbad & Hall)]].
        -- left. split_and!; [done|done|by constructor].
        -- right. left. exists e, (call :: sent), call'.
           split_and!; [done|done|simpl; lia|by constructor|done].
        -- right. right. exists msg, bad. split_and!; [done|done|done|by constructor].
    + exists 1, [call], (bump 1 (logAdd call w1)). split_and!.
      * simpl. by rewrite Hcalls1.
      * eapply sameStore_trans; [exact Hst1|done].
      * simpl. rewrite take_0. by repeat constructor.
      * right. left. exists e, [], call. split_and!; [done|done|simpl; lia|constructor|].
        by exists (tick w1).
Qed.

Lemma addSchemesToVectorDB_external schemes (c : nat) w :
  collection w = true →
  addSchemesToVectorDB env schemes (Z.of_nat c) w =
    chunkLoop env (length schemes) schemes (Z.of_nat c) (Z.of_nat 0) w.
Proof.
  intros Hcol. unfold addSchemesToVectorDB. rewrite tryCatch_rethrow.
  destruct schemes as [|s r]; [done|].
  unfold mbind, M_bind, getWorld. by rewrite Hcol.
Qed.

(** The batch ingestion on the ChromaDB path, whatever the service answers
    and whatever the records hold. *)
Lemma addSchemesToVectorDB_cases (schemes : list jsobj) (c : nat) (w : World) :
  0 < c → collection w = true →
  ∃ k issued w',
    addCalls w' = addCalls w ++ issued ∧ sameStore w w' ∧
    Forall2 carries (take k (batchesOf c schemes)) issued ∧
    ( (addSchemesToVectorDB env schemes (Z.of_nat c) w = Ret tt w' ∧
       k = length (batchesOf c schemes) ∧
       Forall (λ call, answered env call (Return tt)) issued)
    ∨ (∃ e sent call,
         addSchemesToVectorDB env schemes (Z.of_nat c) w = Err e w' ∧
         issued = sent ++ [call] ∧ k ≤ length (batchesOf c schemes) ∧
         Forall (λ call, answered env call (Return tt)) sent ∧
         answered env call (Throw e))
    ∨ (∃ msg batch,
         addSchemesToVectorDB env schemes (Z.of_nat c) w = Err (TypeError msg) w' ∧
         batchesOf c schemes !! k = Some batch ∧ Exists (λ s, ¬ textOk s) batch ∧
         Forall (λ call, answered env call (Return tt)) issued) ).
Proof.
  intros Hc Hcol. rewrite addSchemesToVectorDB_external by done.
  destruct (chunkLoop_cases schemes c (length schemes) 0 w Hc ltac:(lia))
    as (k & issued & w' & H). rewrite drop_0 in H. by exists k, issued, w'.
Qed.

(** How the batches are cut: [ceil(n / c)] of them, of [c] records each but
    for a last one of [n mod c] records when that is not zero, holding
    every record once, in order. *)
Lemma batchesOf_shape (schemes : list jsobj) (c : nat) :
  0 < c →
  length (batchesOf c schemes) = (length schemes + c - 1) / c ∧
  length <$> batchesOf c schemes = chunkSizes (length schemes) c ∧
  concat (batchesOf c schemes) = schemes.
Proof.
  intros Hc. unfold batchesOf.
  pose proof (chunksOf_sizes (length schemes) c schemes Hc ltac:(lia)) as Hsizes.
  split_and!.
  - rewrite <- (length_fmap length), Hsizes. by apply chunkSizes_length.
  - done.
  - by apply chunksOf_concat.
Qed.

(** What is sent for a batch is read off the lists of batches and calls. *)
Lemma carries_lookup_call k batches issued i call :
  Forall2 carries (take k batches) issued → issued !! i = Some call →
  ∃ batch, batches !! i = Some batch ∧ carries batch call ∧ i < k.
Proof.
  intros Hall Hi.
  destruct (Forall2_lookup_r _ _ _ _ _ Hall Hi) as (batch & Hb & Hc).
  apply lookup_take_Some in Hb as [Hb Hlt]. by exists batch.
Qed.

Lemma carries_lookup_batch k batches issued i batch :
  Forall2 carries (take k batches) issued → batches !! i = Some batch → i < k →
  ∃ call, issued !! i = Some call ∧ carries batch call.
Proof.
  intros Hall Hb Hlt.
  assert (take k batches !! i = Some batch) as Hb' by (by apply lookup_take_Some).
  destruct (Forall2_lookup_l _ _ _ _ _ Hall Hb') as (call & Hi & Hc). by exists call.
Qed.

(** C9 (as amended).  On the ChromaDB path, with a batch size [c > 0], the
    records are cut into [ceil(n / c)] batches, of [c] records each but for
    a last one of [n mod c] records when that is not zero, holding every
    record once and in order (for 1,200 records and [c = 500]: 500, 500 and
    200).  [addSchemesToVectorDB] sends them to the service in that order,
    one [collection.add] call for each, carrying the ids and metadata of
    its records and a text and an embedding for each, for as long as
    nothing fails:
    - either every batch is sent and accepted, and the call resolves;
    - or the service refuses a batch: that call is the last one, and the
      call rejects with the service's error;
    - or a batch holds a record whose text cannot be built: that batch and
      those after it are not sent, and the call rejects with a TypeError.
    So when the text of every record can be built and the service accepts
    every call, exactly [ceil(n / c)] calls of these sizes are issued,
    covering every record exactly once. *)
Theorem addSchemesToVectorDB_chunks (schemes : list jsobj) (c : nat) (w : World) :
  0 < c → collection w = true →
  (length (batchesOf c schemes) = (length schemes + c - 1) / c ∧
   length <$> batchesOf c schemes = chunkSizes (length schemes) c ∧
   concat (batchesOf c schemes) = schemes ∧
   (length schemes = 1200 → c = 500 → length <$> batchesOf c schemes = [500; 500; 200])) ∧
  ∃ k issued w',
    addCalls w' = addCalls w ++ issued ∧
    Forall2 carries (take k (batchesOf c schemes)) issued ∧
    ( (addSchemesToVectorDB env schemes (Z.of_nat c) w = Ret tt w' ∧
       k = length (batchesOf c schemes) ∧
       Forall (λ call, answered env call (Return tt)) issued)
    ∨ (∃ e sent call,
         addSchemesToVectorDB env schemes (Z.of_nat c) w = Err e w' ∧
         issued = sent ++ [call] ∧ k ≤ length (batchesOf c schemes) ∧
         Forall (λ call, answered env call (Return tt)) sent ∧
         answered env call (Throw e))
    ∨ (∃ msg batch,
         addSchemesToVectorDB env schemes (Z.of_nat c) w = Err (TypeError msg) w' ∧
         batchesOf c schemes !! k = Some batch ∧ Exists (λ s, ¬ textOk s) batch ∧
         Forall (λ call, answered env call (Return tt)) issued) ) ∧
    (Forall textOk schemes → (∀ t call, chromaAdd env t call = Return tt) →
       addSchemesToVectorDB env schemes (Z.of_nat c) w = Ret tt w' ∧
       length issued = (length schemes + c - 1) / c ∧
       (λ call, length (add_ids call)) <$> issued = chunkSizes (length schemes) c ∧
       concat (add_ids <$> issued) = idOf <$> schemes ∧
       (length schemes = 1200 → c = 500 →
          (λ call, length (add_ids call)) <$> issued = [500; 500; 200])).
Proof.
  intros Hc Hcol.
  destruct (batchesOf_shape schemes c Hc) as (Hlen & Hsizes & Hconcat).
  split.
  { split_and!; try done. intros Hn ->. rewrite Hsizes, Hn. reflexivity. }
  destruct (addSchemesToVectorDB_cases schemes c w Hc Hcol)
    as (k & issued & w' & Hcalls & _ & Hsent & Hres).
  exists k, issued, w'. split_and!; try done.
  intros Hok Haccept.
  destruct Hres as [(Hret & -> & _)
                   |[(e & sent & call & _ & _ & _ & _ & t & Ht)
                    |(msg & batch & _ & Hlook & Hbad & _)]].
  - rewrite take_ge in Hsent by done.
    pose proof (carries_sizes _ _ Hsent) as Hs. rewrite Hsizes in Hs.
    split_and!; try done.
    + by rewrite <- (Forall2_length _ _ _ Hsent).
    + rewrite (carries_ids _ _ Hsent).
      by rewrite concat_fmap_each, Hconcat.
    + intros Hn ->. rewrite Hs, Hn. reflexivity.
  - by rewrite Haccept in Ht.
  - exfalso. pose proof (chunksOf_Forall textOk (length schemes) c schemes Hok) as Hall.
    rewrite Forall_forall in Hall. apply list_elem_of_lookup_2 in Hlook.
    specialize (Hall _ Hlook). apply Exists_exists in Hbad as (s & Hs & Hnot).
    rewrite Forall_forall in Hall. by apply Hnot, Hall.
Qed.

(** A refused batch: when the service refuses the calls for batch [k] and
    accepts those for the batches before it, [addSchemesToVectorDB] rejects
    with the service's error once batch [k] was sent; the batches after it
    are not sent. *)
Lemma refused_batch_aborts (schemes : list jsobj) (c k : nat) (e : error) (w : World) :
  0 < c → collection w = true → Forall textOk schemes →
  (∃ batch, batchesOf c schemes !! k = Some batch ∧
     ∀ t call, add_ids call = idOf <$> batch → chromaAdd env t call = Throw e) →
  (∀ j batch, j < k → batchesOf c schemes !! j = Some batch →
     ∀ t call, add_ids call = idOf <$> batch → chromaAdd env t call = Return tt) →
  ∃ issued w1,
    addSchemesToVectorDB env schemes (Z.of_nat c) w = Err e w1 ∧
    addCalls w1 = addCalls w ++ issued ∧ sameStore w w1 ∧
    Forall2 carries (take (S k) (batchesOf c schemes)) issued.
Proof.
  intros Hc Hcol Hok (bk & Hbk & Hrej) Hacc.
  destruct (addSchemesToVectorDB_cases schemes c w Hc Hcol)
    as (k' & issued & w' & Hcalls & Hst & Hsent & Hres).
  pose proof (lookup_lt_Some _ _ _ Hbk) as Hklt.
  destruct Hres as [(Hret & -> & Hall)
                   |[(e' & sent & call & Herr & -> & Hk' & Hall & t & Ht)
                    |(msg & batch & _ & Hlook & Hbad & _)]].
  - exfalso.
    destruct (carries_lookup_batch _ _ _ _ _ Hsent Hbk Hklt) as (call & Hi & Hids & _).
    rewrite Forall_forall in Hall. destruct (Hall call) as [t Ht].
    { by eapply list_elem_of_lookup_2. }
    by rewrite (Hrej t call Hids) in Ht.
  - pose proof (Forall2_length _ _ _ Hsent) as Hlen.
    rewrite length_take, length_app in Hlen. simpl in Hlen.
    assert (k' = S (length sent)) as -> by lia.
    assert ((sent ++ [call]) !! length sent = Some call) as Hlast.
    { rewrite lookup_app_r by lia. by rewrite Nat.sub_diag. }
    destruct (carries_lookup_call _ _ _ _ _ Hsent Hlast) as (bl & Hbl & (Hids & _) & _).
    destruct (Nat.lt_trichotomy (length sent) k) as [Hlt|[Heq|Hgt]].
    + by rewrite (Hacc _ _ Hlt Hbl t call Hids) in Ht.
    + subst k. rewrite (Hrej t call) in Ht by congruence. injection Ht as ->.
      by exists (sent ++ [call]), w'.
    + exfalso.
      destruct (carries_lookup_batch _ _ _ _ _ Hsent Hbk ltac:(lia)) as (ck & Hi & Hidk & _).
      rewrite lookup_app_l in Hi by done.
      rewrite Forall_forall in Hall. destruct (Hall ck) as [t' Ht'].
      { by eapply list_elem_of_lookup_2. }
      by rewrite (Hrej t' ck Hidk) in Ht'.
  - exfalso. pose proof (chunksOf_Forall textOk (length schemes) c schemes Hok) as Hgood.
    rewrite Forall_forall in Hgood. apply list_elem_of_lookup_2 in Hlook.
    specialize (Hgood _ Hlook). apply Exists_exists in Hbad as (s & Hs & Hnot).
    rewrite Forall_forall in Hgood. by apply Hnot, Hgood.
Qed.

(** [addSchemeToVectorDB] swallows whatever goes wrong. *)
Lemma addSchemeToVectorDB_resolves scheme w :
  ∃ w', addSchemeToVectorDB env scheme w = Ret tt w'.
Proof.
  unfold addSchemeToVectorDB, tryCatch, addSchemeBody.
  destruct (createSchemeText scheme) as [text|e]; [|by eexists].
  rewrite liftO_bind.
  destruct (generateEmbedding_string env text w) as [v Hv].
  rewrite (bind_Ret _ _ _ _ _ Hv).
  destruct (schemeMetadata scheme) as [md|e]; [|by eexists].
  rewrite liftO_bind, getWorld_bind.
  destruct (collection (bump 1 w)).
  - rewrite collectionAdd_run. destruct (chromaAdd env _ _) as [[]|]; by eexists.
  - by eexists.
Qed.

(** The fallback loop of [trainVectorDatabase] resolves, whatever the
    records and the service. *)
Lemma fallback_resolves schemes : ∀ w,
  ∃ w', forEachM (λ scheme, tryCatch (addSchemeToVectorDB env scheme) (λ _, mret tt))
          schemes w = Ret tt w'.
Proof.
  induction schemes as [|scheme rest IH]; intros w; [by exists w|].
  cbn [forEachM]. destruct (addSchemeToVectorDB_resolves scheme w) as [w1 H1].
  assert (tryCatch (addSchemeToVectorDB env scheme) (λ _, mret tt) w = Ret tt w1) as Hone.
  { unfold tryCatch at 1. by rewrite H1. }
  rewrite (bind_Ret _ _ _ _ _ Hone). apply IH.
Qed.

(** On the ChromaDB path the fallback sends every record on its own and
    swallows each failure. *)
Lemma fallback_loop schemes : ∀ w,
  collection w = true → Forall textOk schemes →
  ∃ issued w',
    forEachM (λ scheme, tryCatch (addSchemeToVectorDB env scheme) (λ _, mret tt)) schemes w
      = Ret tt w' ∧
    addCalls w' = addCalls w ++ issued ∧ sameStore w w' ∧
    Forall2 carries ((λ scheme, [scheme]) <$> schemes) issued.
Proof.
  induction schemes as [|scheme rest IH]; intros w Hcol Hok.
  - exists [], w. rewrite app_nil_r. split_and!; first [done|constructor].
  - apply Forall_cons in Hok as [Hs Hrest].
    pose proof Hs as [text Htext].
    destruct (generateEmbedding_string env text w) as [v Hv].
    set (call := mkAddCall [text] [metaOf scheme] [getField scheme "id"] [v]).
    assert (tryCatch (addSchemeToVectorDB env scheme) (λ _, mret tt) w
            = Ret tt (bump 1 (logAdd call (bump 1 w)))) as Hone.
    { assert (addSchemeBody env scheme w = collectionAdd env call (bump 1 w)) as Hbody.
      { unfold addSchemeBody. rewrite Htext, liftO_bind.
        rewrite (bind_Ret _ _ _ _ _ Hv). rewrite (textOk_meta _ Hs), liftO_bind, getWorld_bind.
        cbv beta. change (collection (bump 1 w)) with (collection w). by rewrite Hcol. }
      unfold addSchemeToVectorDB, tryCatch. rewrite Hbody, collectionAdd_run.
      by destruct (chromaAdd env _ call) as [[]|]. }
    cbn [forEachM]. rewrite (bind_Ret _ _ _ _ _ Hone).
    destruct (IH (bump 1 (logAdd call (bump 1 w))) Hcol Hrest)
      as (issued & w' & Hrun & Hcalls & Hst & Hsent).
    exists (call :: issued), w'. split; [done|]. split_and!.
    + rewrite Hcalls. simpl. by rewrite <- app_assoc.
    + eapply sameStore_trans; [|exact Hst]. done.
    + rewrite fmap_cons. constructor; [done|exact Hsent].
Qed.

Lemma trainVectorDatabase_run schemes w :
  trainVectorDatabase env schemes w =
    match addSchemesToVectorDB env schemes (defaultBatchSize env) w with
    | Err _ w1 =>
        forEachM (λ scheme, tryCatch (addSchemeToVectorDB env scheme) (λ _, mret tt))
                 schemes w1
    | r => r
    end.
Proof. reflexivity. Qed.

(** The in-memory loop of [addSchemesToVectorDB] ends. *)
Lemma memoryLoop_settles schemes : ∀ w,
  forEachM (λ scheme,
      schemeText ← liftO (createSchemeText scheme);
      embedding ← generateEmbedding env (JStr schemeText);
      metadata ← liftO (schemeMetadata scheme);
      modify (pushVector (mkVectorEntry (getField scheme "id") schemeText metadata)
                         embedding))
    schemes w ≠ Hang.
Proof.
  induction schemes as [|scheme rest IH]; intros w; [done|].
  cbn [forEachM]. unfold mbind at 1, M_bind at 1.
  destruct (createSchemeText scheme) as [text|e]; [|done].
  rewrite liftO_bind.
  destruct (generateEmbedding_string env text w) as [v Hv].
  rewrite (bind_Ret _ _ _ _ _ Hv).
  destruct (schemeMetadata scheme) as [md|e]; [|done].
  rewrite liftO_bind. unfold modify. apply IH.
Qed.

(** With a positive batch size [addSchemesToVectorDB] ends. *)
Lemma addSchemesToVectorDB_settles schemes (batchSize : Z) w :
  (0 < batchSize)%Z → addSchemesToVectorDB env schemes batchSize w ≠ Hang.
Proof.
  intros Hpos. destruct (collection w) eqn:Hcol.
  - rewrite <- (Z2Nat.id batchSize) by lia.
    destruct (addSchemesToVectorDB_cases schemes (Z.to_nat batchSize) w ltac:(lia) Hcol)
      as (k & issued & w' & _ & _ & _ & [(-> & _)|[(e & s & c & -> & _)|(m & b & -> & _)]]);
      done.
  - unfold addSchemesToVectorDB. rewrite tryCatch_rethrow.
    destruct schemes as [|s r]; [done|].
    rewrite getWorld_bind, Hcol. apply memoryLoop_settles.
Qed.

(** With a positive batch size [trainVectorDatabase] resolves, whatever the
    records, the index and the service. *)
Lemma trainVectorDatabase_resolves schemes w :
  (0 < defaultBatchSize env)%Z → ∃ w', trainVectorDatabase env schemes w = Ret tt w'.
Proof.
  intros Hpos. rewrite trainVectorDatabase_run.
  pose proof (addSchemesToVectorDB_settles schemes _ w Hpos) as Hs.
  destruct (addSchemesToVectorDB env schemes (defaultBatchSize env) w) as [[] w1|e w1|].
  - by exists w1.
  - apply fallback_resolves.
  - done.
Qed.

(** With the batch size [0] and a service that accepts every call, the loop
    over the batches sends empty batches without end: however much fuel it
    is given, it is not through; and [trainVectorDatabase] does not
    resolve. *)
Lemma zero_batch_size_never_ends schemes w :
  schemes ≠ [] → collection w = true → (∀ t call, chromaAdd env t call = Return tt) →
  (∀ fuel, chunkLoop env fuel schemes 0 0 w = Hang) ∧
  (defaultBatchSize env = 0%Z → trainVectorDatabase env schemes w = Hang).
Proof.
  intros Hne Hcol Haccept.
  assert (∀ fuel w0, chunkLoop env fuel schemes 0 0 w0 = Hang) as Hloop.
  { induction fuel as [|fuel IH]; intros w0; cbn [chunkLoop];
      (destruct (Z.ltb_spec 0 (Z.of_nat (length schemes))) as [_|Hge];
       [|destruct schemes; [done|simpl in Hge; lia]]); [done|].
    change (slice schemes 0 (0 + 0)) with (slice schemes 0 0).
    assert (slice schemes 0 0 = []) as ->.
    { unfold slice, sliceIndex. simpl. rewrite Z.min_l by lia. by rewrite take_0. }
    cbn [embedBatch]. unfold mbind at 1, M_bind at 1, mret, M_ret.
    rewrite collectionAdd_bind, Haccept. apply IH. }
  split; [intros fuel; apply Hloop|].
  intros Hzero. rewrite trainVectorDatabase_run, Hzero.
  unfold addSchemesToVectorDB. rewrite tryCatch_rethrow.
  destruct schemes as [|s r]; [done|].
  rewrite getWorld_bind, Hcol. by rewrite Hloop.
Qed.

(** C8 (as amended).  With a positive batch size: on the ChromaDB path and
    for records whose text can be built, when the service refuses the
    calls for batch [k] and accepts those for the batches before it,
    [addSchemesToVectorDB] rejects with the service's error after sending
    the batches up to [k] (the batches after it are not sent) and
    [trainVectorDatabase], which catches the error, then sends every
    record on its own through [addSchemeToVectorDB], swallowing each
    failure; and [trainVectorDatabase] resolves in every case, whatever the
    records, the index and the service. *)
Theorem batch_failure_aborts_then_falls_back (c : nat) :
  0 < c → defaultBatchSize env = Z.of_nat c →
  (∀ (schemes : list jsobj) (k : nat) (e : error) (w : World),
     collection w = true → Forall textOk schemes →
     (∃ batch, batchesOf c schemes !! k = Some batch ∧
        ∀ t call, add_ids call = idOf <$> batch → chromaAdd env t call = Throw e) →
     (∀ j batch, j < k → batchesOf c schemes !! j = Some batch →
        ∀ t call, add_ids call = idOf <$> batch → chromaAdd env t call = Return tt) →
     ∃ issued w1 retried w2,
       addSchemesToVectorDB env schemes (Z.of_nat c) w = Err e w1 ∧
       addCalls w1 = addCalls w ++ issued ∧
       Forall2 carries (take (S k) (batchesOf c schemes)) issued ∧
       trainVectorDatabase env schemes w = Ret tt w2 ∧
       addCalls w2 = addCalls w1 ++ retried ∧
       Forall2 carries ((λ scheme, [scheme]) <$> schemes) retried) ∧
  (∀ (schemes : list jsobj) (w : World),
     ∃ w2, trainVectorDatabase env schemes w = Ret tt w2).
Proof.
  intros Hc Hdefault. split.
  - intros schemes k e w Hcol Hok Hrej Hacc.
    destruct (refused_batch_aborts schemes c k e w Hc Hcol Hok Hrej Hacc)
      as (issued & w1 & Herr & Hcalls & (Hcol1 & _) & Hsent).
    destruct (fallback_loop schemes w1 ltac:(congruence) Hok)
      as (retried & w2 & Hrun & Hcalls2 & _ & Hretried).
    exists issued, w1, retried, w2. split_and!; try done.
    by rewrite trainVectorDatabase_run, Hdefault, Herr.
  - intros schemes w. apply trainVectorDatabase_resolves. lia.
Qed.

End WithEnv.

Lemma threeSchemes_textOk : Forall textOk threeSchemes.
Proof. repeat constructor; eexists; vm_compute; reflexivity. Qed.

(** The theorem at three records in batches of two, with a service that
    accepts every call. *)
Lemma addSchemesToVectorDB_chunks_witness :
  ∃ issued w',
    addSchemesToVectorDB quietEnv threeSchemes (Z.of_nat 2) chromaWorld = Ret tt w' ∧
    addCalls w' = addCalls chromaWorld ++ issued ∧
    length issued = (length threeSchemes + 2 - 1) / 2 ∧
    (λ call, length (add_ids call)) <$> issued = chunkSizes (length threeSchemes) 2 ∧
    concat (add_ids <$> issued) = idOf <$> threeSchemes.
Proof.
  destruct (addSchemesToVectorDB_chunks quietEnv threeSchemes 2 chromaWorld)
    as (_ & k & issued & w' & Hcalls & _ & _ & Hnominal); [lia|reflexivity|].
  destruct (Hnominal threeSchemes_textOk) as (Hrun & Hlen & Hsizes & Hids & _); [reflexivity|].
  by exists issued, w'.
Defined.

(** C9, as stated, fails: of three records in batches of one, the second
    with a string where its tags should be, one batch is sent, not three;
    and so it does when the service refuses a call (below). *)
Lemma addSchemesToVectorDB_bad_record_stops :
  ∃ msg w1,
    addSchemesToVectorDB quietEnv oddTagsSchemes 1 chromaWorld = Err (TypeError msg) w1 ∧
    add_ids <$> addCalls w1 = [[JStr "s1"]] ∧
    (length oddTagsSchemes + 1 - 1) / 1 = 3.
Proof. do 2 eexists. vm_compute. split_and!; reflexivity. Qed.

(** C8, as stated, fails: with batches of two, the service refusing the
    first batch makes [addSchemesToVectorDB] reject at once; the batch
    holding the third record is never sent, and no error is accumulated. *)
Lemma addSchemesToVectorDB_first_failure_aborts :
  ∃ w1,
    addSchemesToVectorDB oneAtATimeEnv threeSchemes 2 chromaWorld
      = Err (Error "payload too large") w1 ∧
    add_ids <$> addCalls w1 = [[JStr "s1"; JStr "s2"]].
Proof. eexists. vm_compute. split; reflexivity. Qed.

(** The theorem at three records in batches of one and a service that
    refuses the second: the third is not sent with the batches, and the
    fallback sends all three again, one by one. *)
Lemma batch_failure_aborts_then_falls_back_witness :
  (∃ issued w1 retried w2,
     addSchemesToVectorDB pickyEnv threeSchemes (Z.of_nat 1) chromaWorld
       = Err (Error "invalid record") w1 ∧
     addCalls w1 = addCalls chromaWorld ++ issued ∧
     Forall2 carries (take 2 (batchesOf 1 threeSchemes)) issued ∧
     trainVectorDatabase pickyEnv threeSchemes chromaWorld = Ret tt w2 ∧
     addCalls w2 = addCalls w1 ++ retried ∧
     Forall2 carries ((λ scheme, [scheme]) <$> threeSchemes) retried) ∧
  (∀ (schemes : list jsobj) (w : World),
     ∃ w2, trainVectorDatabase pickyEnv schemes w = Ret tt w2).
Proof.
  destruct (batch_failure_aborts_then_falls_back pickyEnv 1) as [Habort Hresolves];
    [lia|reflexivity|].
  split; [|exact Hresolves].
  apply (Habort threeSchemes 1 (Error "invalid record") chromaWorld).
  - reflexivity.
  - exact threeSchemes_textOk.
  - eexists. split; [reflexivity|]. intros t call Hids. simpl. by rewrite Hids.
  - intros [|j] batch Hj Hbatch t call Hids; [|lia].
    injection Hbatch as <-. simpl. by rewrite Hids.
Defined.

End IngestionFacts.

(** ** The pipeline and the snapshot *)

Module PipelineFacts.
Import VectorDB Acquisition RAGTrainer RunSpec SearchFacts.

Lemma keeps_ret {A} (a : A) : keeps (mret a).
Proof. by intros w. Qed.

Lemma keeps_throw {A} e : keeps (@throw A e).
Proof. by intros w. Qed.

Lemma keeps_hang {A} : keeps (@hang A).
Proof. by intros w. Qed.

Lemma keeps_liftO {A} (o : outcome A) : keeps (liftO o).
Proof. intros w. unfold liftO. by destruct o. Qed.

Lemma keeps_getWorld : keeps getWorld.
Proof. by intros w. Qed.

Lemma keeps_bump n : keeps (modify (bump n)).
Proof. by intros w. Qed.

Lemma keeps_logAdd call : keeps (modify (logAdd call)).
Proof. by intros w. Qed.

Lemma keeps_pushVector entry v : keeps (modify (pushVector entry v)).
Proof. by intros w. Qed.

Lemma keeps_ask {A} (f : nat → outcome A) : keeps (ask f).
Proof. intros w. unfold ask. by destruct (f (tick w)). Qed.

Lemma keeps_bind {A B} (m : M A) (f : A → M B) :
  keeps m → (∀ a, keeps (f a)) → keeps (m ≫= f).
Proof.
  intros Hm Hf w. unfold mbind, M_bind. specialize (Hm w).
  destruct (m w) as [a w1|e w1|]; [|done..].
  specialize (Hf a w1). destruct (f a w1); congruence.
Qed.

Lemma keeps_tryCatch {A} (m : M A) (h : error → M A) :
  keeps m → (∀ e, keeps (h e)) → keeps (tryCatch m h).
Proof.
  intros Hm Hh w. unfold tryCatch. specialize (Hm w).
  destruct (m w) as [a w1|e w1|]; [done| |done].
  specialize (Hh e w1). destruct (h e w1); congruence.
Qed.

Lemma keeps_forEachM {A} (body : A → M unit) xs :
  (∀ x, keeps (body x)) → keeps (forEachM body xs).
Proof.
  intros Hbody. induction xs as [|x r IH]; simpl; [apply keeps_ret|].
  apply keeps_bind; [apply Hbody | by intros].
Qed.

Lemma keeps_foldlM {A B} (f : A → B → M A) xs : ∀ a,
  (∀ a x, keeps (f a x)) → keeps (foldlM f a xs).
Proof.
  induction xs as [|x r IH]; intros a Hf; simpl; [apply keeps_ret|].
  apply keeps_bind; [apply Hf | intros; by apply IH].
Qed.

Section WithEnv.
Variable env : Env.

Lemma keeps_writeFile path content :
  path ≠ trainingResultsFile → keeps (writeFile env path content).
Proof.
  intros Hne w. unfold writeFile, mbind, M_bind, ask, modify, snapshot.
  destruct (fsWrite env (tick w) path); simpl; [|done].
  by rewrite lookup_insert_ne.
Qed.

Ltac keeps_step :=
  first
    [ apply keeps_ret | apply keeps_throw | apply keeps_hang | apply keeps_liftO
    | apply keeps_getWorld | apply keeps_bump | apply keeps_logAdd
    | apply keeps_pushVector | apply keeps_ask
    | apply keeps_writeFile; done
    | apply keeps_bind; [|intros]
    | apply keeps_tryCatch; [|intros]
    | apply keeps_forEachM; intros
    | apply keeps_foldlM; intros ].

Lemma keeps_generateEmbedding text : keeps (generateEmbedding env text).
Proof. unfold generateEmbedding. repeat keeps_step. Qed.

Lemma keeps_collectionAdd call : keeps (collectionAdd env call).
Proof. unfold collectionAdd. repeat keeps_step. Qed.

Lemma keeps_searchSimilarSchemes query limit : keeps (searchSimilarSchemes env query limit).
Proof.
  unfold searchSimilarSchemes, searchBody, collectionQuery.
  apply keeps_tryCatch; [|intros; apply keeps_ret].
  apply keeps_bind; [apply keeps_generateEmbedding|intros q].
  apply keeps_bind; [apply keeps_getWorld|intros w0].
  destruct (collection w0); repeat keeps_step.
Qed.

Lemma keeps_addSchemeToVectorDB scheme : keeps (addSchemeToVectorDB env scheme).
Proof.
  unfold addSchemeToVectorDB, addSchemeBody.
  apply keeps_tryCatch; [|intros; apply keeps_ret].
  apply keeps_bind; [apply keeps_liftO|intros text].
  apply keeps_bind; [apply keeps_generateEmbedding|intros v].
  apply keeps_bind; [apply keeps_liftO|intros md].
  apply keeps_bind; [apply keeps_getWorld|intros w0].
  destruct (collection w0); [apply keeps_collectionAdd|apply keeps_pushVector].
Qed.

Lemma keeps_embedBatch batch : ∀ acc, keeps (embedBatch env batch acc).
Proof.
  induction batch as [|scheme rest IH]; intros acc; simpl; [apply keeps_ret|].
  apply keeps_bind; [apply keeps_liftO|intros text].
  apply keeps_bind; [apply keeps_generateEmbedding|intros v].
  apply keeps_bind; [apply keeps_liftO|intros md]. apply IH.
Qed.

Lemma keeps_chunkLoop schemes batchSize fuel : ∀ start,
  keeps (chunkLoop env fuel schemes batchSize start).
Proof.
  induction fuel as [|fuel IH]; intros start; simpl.
  - destruct (_ <? _)%Z; [apply keeps_hang|apply keeps_ret].
  - destruct (_ <? _)%Z; [|apply keeps_ret].
    apply keeps_bind; [apply keeps_embedBatch|intros call].
    apply keeps_bind; [apply keeps_collectionAdd|intros _]. apply IH.
Qed.

Lemma keeps_addSchemesToVectorDB schemes batchSize :
  keeps (addSchemesToVectorDB env schemes batchSize).
Proof.
  unfold addSchemesToVectorDB.
  apply keeps_tryCatch; [|intros; apply keeps_throw].
  destruct schemes as [|s r]; [apply keeps_ret|].
  apply keeps_bind; [apply keeps_getWorld|intros w0].
  destruct (collection w0); [apply keeps_chunkLoop|].
  apply keeps_forEachM. intros scheme.
  apply keeps_bind; [apply keeps_liftO|intros text].
  apply keeps_bind; [apply keeps_generateEmbedding|intros v].
  apply keeps_bind; [apply keeps_liftO|intros md]. apply keeps_pushVector.
Qed.

Lemma keeps_trainVectorDatabase schemes : keeps (trainVectorDatabase env schemes).
Proof.
  unfold trainVectorDatabase.
  apply keeps_tryCatch; [apply keeps_addSchemesToVectorDB|intros _].
  apply keeps_forEachM. intros scheme.
  apply keeps_tryCatch; [apply keeps_addSchemeToVectorDB|intros; apply keeps_ret].
Qed.

Lemma keeps_fetchMySchemeData : keeps (fetchMySchemeData env).
Proof.
  unfold fetchMySchemeData, scrapeMySchemeWebsite.
  apply keeps_tryCatch; [|intros; apply keeps_ret].
  apply keeps_bind.
  - apply keeps_tryCatch; [|intros; apply keeps_ret].
    apply keeps_bind; [apply keeps_ask|intros [schemes|]]; repeat keeps_step.
  - intros [schemes|]; repeat keeps_step.
Qed.

Lemma keeps_saveDataToFile schemes : keeps (saveDataToFile env schemes).
Proof. unfold saveDataToFile, isoNow. repeat keeps_step. Qed.

Lemma keeps_fetchAllSchemeData : keeps (fetchAllSchemeData env).
Proof.
  unfold fetchAllSchemeData, fetchNSPData, fetchPMKisanData, isoNow.
  apply keeps_tryCatch; [|intros; apply keeps_throw].
  apply keeps_bind; [apply keeps_fetchMySchemeData|intros a].
  apply keeps_bind; [repeat keeps_step|intros b].
  apply keeps_bind; [repeat keeps_step|intros c].
  apply keeps_bind; [apply keeps_getWorld|intros w0].
  apply keeps_bind; [apply keeps_liftO|intros cleaned].
  apply keeps_bind; [apply keeps_bump|intros _].
  apply keeps_bind; [apply keeps_saveDataToFile|intros _]. apply keeps_ret.
Qed.

Lemma keeps_localOverride scraped : keeps (localOverride env scraped).
Proof.
  unfold localOverride. destruct (useLocalData env); [|apply keeps_ret].
  apply keeps_bind; [apply keeps_getWorld|intros w0].
  apply keeps_bind; [apply keeps_bump|intros _].
  destruct (localData env (tick w0)) as [[|s r]|]; apply keeps_ret.
Qed.

Lemma keeps_generateTrainingExamples schemes : keeps (generateTrainingExamples env schemes).
Proof. unfold generateTrainingExamples, saveTrainingExamples. repeat keeps_step. Qed.

Lemma keeps_validateTraining : keeps (validateTraining env).
Proof.
  unfold validateTraining, msNow.
  apply keeps_bind; [apply keeps_ask|intros t0].
  apply keeps_bind.
  - apply keeps_foldlM. intros acc query. unfold validateQuery.
    apply keeps_tryCatch; [|intros; apply keeps_ret].
    apply keeps_bind; [apply keeps_searchSimilarSchemes|intros [|h r]]; apply keeps_ret.
  - intros acc. repeat keeps_step.
Qed.

Lemma keeps_stagesBeforeSave : keeps (stagesBeforeSave env).
Proof.
  unfold stagesBeforeSave.
  apply keeps_bind; [apply keeps_fetchAllSchemeData|intros d].
  apply keeps_bind; [apply keeps_localOverride|intros d'].
  apply keeps_bind; [apply keeps_liftO|intros p].
  apply keeps_bind; [apply keeps_generateTrainingExamples|intros ex].
  apply keeps_bind; [apply keeps_trainVectorDatabase|intros _].
  apply keeps_bind; [apply keeps_validateTraining|intros v]. apply keeps_ret.
Qed.

Lemma saveTrainingResults_resolves v : resolves (saveTrainingResults env v).
Proof.
  intros w. unfold saveTrainingResults, tryCatch, isoNow, writeFile.
  unfold mbind, M_bind, ask, modify. simpl.
  destruct (fsWrite env _ trainingResultsFile); eauto.
Qed.

Lemma trainRAGModel_run w :
  trainRAGModel env w =
    match stagesBeforeSave env w with
    | Ret (totalSchemes, trainingExamples, v) w5 =>
        match saveTrainingResults env v w5 with
        | Ret _ w6 => Ret (TrainingCompleted totalSchemes trainingExamples v) w6
        | Err e w6 => Err e w6
        | Hang => Hang
        end
    | Err e w' => Err e w'
    | Hang => Hang
    end.
Proof.
  unfold trainRAGModel. rewrite tryCatch_rethrow. unfold mbind at 1, M_bind.
  destruct (stagesBeforeSave env w) as [[[n m] v] w5|e w'|]; [|done..].
  unfold mbind, M_bind. by destruct (saveTrainingResults env v w5).
Qed.

(** C5. A failure of [trainRAGModel] is a failure of one of the stages
    that come before the snapshot is saved (acquisition, processing,
    example generation; ingestion and validation themselves never reject):
    [trainRAGModel] rejects with that very error, in the state the stage
    left, and [training_results.json] is what it was before the call.  The
    snapshot is written by [saveTrainingResults] only, once validation has
    produced its results. *)
Theorem trainRAGModel_failure_keeps_snapshot (w : World) :
  (∀ e w', trainRAGModel env w = Err e w' ↔ stagesBeforeSave env w = Err e w') ∧
  (∀ e w', trainRAGModel env w = Err e w' →
     files w' !! trainingResultsFile = files w !! trainingResultsFile) ∧
  (∀ e w1, fetchAllSchemeData env w = Err e w1 → trainRAGModel env w = Err e w1) ∧
  (∀ d w1 d' w2 e, fetchAllSchemeData env w = Ret d w1 → localOverride env d w1 = Ret d' w2 →
     processTrainingData d' = Throw e → trainRAGModel env w = Err e w2) ∧
  (∀ d w1 d' w2 p e w3, fetchAllSchemeData env w = Ret d w1 →
     localOverride env d w1 = Ret d' w2 → processTrainingData d' = Return p →
     generateTrainingExamples env p w2 = Err e w3 → trainRAGModel env w = Err e w3) ∧
  (∀ r w', trainRAGModel env w = Ret r w' →
     ∃ n m v w5, stagesBeforeSave env w = Ret (n, m, v) w5 ∧
                 r = TrainingCompleted n m v ∧
                 saveTrainingResults env v w5 = Ret tt w').
Proof.
  split_and!.
  - intros e w'. rewrite trainRAGModel_run.
    destruct (stagesBeforeSave env w) as [[[n m] v] w5|e0 w0|];
      [|split; intros; by simplify_eq..].
    destruct (saveTrainingResults_resolves v w5) as ([] & w6 & ->).
    split; intros; discriminate.
  - intros e w' Herr. rewrite trainRAGModel_run in Herr.
    pose proof (keeps_stagesBeforeSave w) as Hkeeps.
    destruct (stagesBeforeSave env w) as [[[n m] v] w5|e0 w0|]; [| |done].
    + destruct (saveTrainingResults_resolves v w5) as ([] & w6 & Hsave).
      by rewrite Hsave in Herr.
    + by simplify_eq.
  - intros e w1 Hfetch. rewrite trainRAGModel_run. unfold stagesBeforeSave.
    by rewrite (bind_Err _ _ _ _ _ Hfetch).
  - intros d w1 d' w2 e Hfetch Hlocal Hproc. rewrite trainRAGModel_run.
    unfold stagesBeforeSave.
    rewrite (bind_Ret _ _ _ _ _ Hfetch), (bind_Ret _ _ _ _ _ Hlocal), Hproc. done.
  - intros d w1 d' w2 p e w3 Hfetch Hlocal Hproc Hgen. rewrite trainRAGModel_run.
    unfold stagesBeforeSave.
    rewrite (bind_Ret _ _ _ _ _ Hfetch), (bind_Ret _ _ _ _ _ Hlocal), Hproc, liftO_bind.
    by rewrite (bind_Err _ _ _ _ _ Hgen).
  - intros r w' Hret. rewrite trainRAGModel_run in Hret.
    destruct (stagesBeforeSave env w) as [[[n m] v] w5|e0 w0|]; [|done..].
    destruct (saveTrainingResults_resolves v w5) as ([] & w6 & Hsave).
    rewrite Hsave in Hret. simplify_eq. by exists n, m, v, w5.
Qed.

End WithEnv.

(** The theorem where saving the fetched data fails: the earlier snapshot
    stays. *)
Lemma trainRAGModel_failure_keeps_snapshot_witness :
  ∃ w', trainRAGModel diskFullEnv trainedWorld
          = Err (Error "ENOSPC: no space left on device") w' ∧
        files w' !! trainingResultsFile = Some (FResults earlierResults).
Proof.
  destruct (trainRAGModel_failure_keeps_snapshot diskFullEnv trainedWorld)
    as (_ & Hkeeps & Hfetch & _).
  assert (∃ w1, fetchAllSchemeData diskFullEnv trainedWorld
                  = Err (Error "ENOSPC: no space left on device") w1) as [w1 Hw1].
  { eexists. vm_compute. reflexivity. }
  exists w1. split; [by apply Hfetch|].
  rewrite (Hkeeps _ _ (Hfetch _ _ Hw1)). reflexivity.
Defined.

(** A failure in the processing stage: the scraped data were saved, the
    snapshot was not touched. *)
Lemma trainRAGModel_processing_failure :
  match trainRAGModel badLocalDataEnv trainedWorld with
  | Err e w' => Some (e, snapshot w', bool_decide (is_Some (files w' !! scrapedSchemesFile)))
  | _ => None
  end = Some (TypeError "toLowerCase is not a function",
              Some (FResults earlierResults), true).
Proof. vm_compute. reflexivity. Qed.

End PipelineFacts.

(** ** Retraining *)

Module RetrainFacts.
Import DataScraper DedupSpec DedupFacts VectorDB Acquisition RAGTrainer RunSpec.


Lemma strictEq_true a b : strictEq a b = true → a = b.
Proof.
  destruct a, b; simpl; try done; intros H%bool_decide_eq_true; by subst.
Qed.

Lemma strictEq_refl_string s : strictEq (JStr s) (JStr s) = true.
Proof. simpl. by apply bool_decide_eq_true. Qed.

Lemma find_first_with_key {A B} (f : A → B) (p : A → bool) (l : list A) (x : A) :
  NoDup (f <$> l) → x ∈ l → p x = true → (∀ y, y ∈ l → p y = true → f y = f x) →
  List.find p l = Some x.
Proof.
  induction l as [|y l IH]; intros Hnd Hin Hpx Hp; [by apply elem_of_nil in Hin|].
  rewrite fmap_cons in Hnd. apply NoDup_cons in Hnd as [Hnotin Hnd].
  simpl. destruct (p y) eqn:Hpy.
  - apply elem_of_cons in Hin as [->|Hin]; [done|].
    exfalso. apply Hnotin. rewrite (Hp y); [|by left|done].
    by apply list_elem_of_fmap_2.
  - apply elem_of_cons in Hin as [->|Hin]; [congruence|].
    apply IH; try done. intros z Hz. apply Hp. by right.
Qed.

(** A dataset compared with its own copy read back from the file: when the
    ids are strings, all different, and every [lastUpdated] is a string,
    nothing is found to have changed. *)
Lemma hasDataChanged_same (data : list jsobj) :
  NoDup (idOf <$> data) →
  Forall (λ s, isString (idOf s) = true) data →
  Forall (λ s, isString (getField s "lastUpdated") = true) data →
  hasDataChanged data data = false.
Proof.
  intros Hnd Hids Hstamps. unfold hasDataChanged.
  rewrite Nat.eqb_refl. simpl.
  apply not_true_is_false. intros Hex. apply existsb_exists in Hex as (s & Hin & Hs).
  apply list_elem_of_In in Hin.
  rewrite Forall_forall in Hids, Hstamps.
  pose proof (Hids s Hin) as Hid. pose proof (Hstamps s Hin) as Hstamp.
  rewrite (find_first_with_key idOf _ data s) in Hs; try done.
  - destruct (getField s "lastUpdated"); try done.
    by rewrite strictEq_refl_string in Hs.
  - unfold idOf in Hid. destruct (getField s "id"); try done. apply strictEq_refl_string.
  - intros y _ Hy. by apply strictEq_true in Hy.
Qed.

Lemma loadScrapedData_saved data w :
  files w !! scrapedSchemesFile = Some (FSchemes data) → loadScrapedData w = Ret data w.
Proof. intros H. unfold loadScrapedData. by rewrite getWorld_bind, H. Qed.

Section WithEnv.
Variable env : Env.

Lemma writeFile_Ret path content w u w' :
  writeFile env path content w = Ret u w' →
  files w' = <[path := content]> (files w).
Proof.
  unfold writeFile, mbind, M_bind, ask, modify.
  destruct (fsWrite env (tick w) path); [|done]. by intros [= _ <-].
Qed.

Lemma saveDataToFile_Ret schemes w u w' :
  saveDataToFile env schemes w = Ret u w' →
  files w' !! scrapedSchemesFile = Some (FSchemes schemes).
Proof.
  unfold saveDataToFile. rewrite tryCatch_rethrow.
  intros (_ & w1 & _ & H)%bind_Ret_inv.
  apply bind_Ret_inv in H as (_ & w2 & Hwrite%writeFile_Ret & H).
  apply bind_Ret_inv in H as (stamp & w3 & Hnow & H).
  apply writeFile_Ret in H.
  assert (files w3 = files w2) as Hsame.
  { unfold isoNow, ask in Hnow. by injection Hnow as _ <-. }
  rewrite H, Hsame, Hwrite. rewrite lookup_insert_ne by done. apply lookup_insert_eq.
Qed.

(** What [fetchAllSchemeData] resolves to is cleaned data, and it is
    already in [scraped_schemes.json] when the call returns. *)
Lemma fetchAllSchemeData_Ret data w w' :
  fetchAllSchemeData env w = Ret data w' →
  files w' !! scrapedSchemesFile = Some (FSchemes data) ∧
  ∃ genId stamp raw, cleanAndDeduplicateData lower trimString genId stamp raw = Return data.
Proof.
  unfold fetchAllSchemeData. rewrite tryCatch_rethrow.
  intros (a & w1 & _ & H)%bind_Ret_inv.
  apply bind_Ret_inv in H as (b & w2 & _ & H).
  apply bind_Ret_inv in H as (c & w3 & _ & H).
  rewrite getWorld_bind in H.
  apply bind_Ret_inv in H as (cleaned & w4 & Hclean & H).
  apply bind_Ret_inv in H as (_ & w5 & _ & H).
  apply bind_Ret_inv in H as (u & w6 & Hsave & H).
  injection H as -> ->.
  split; [by eapply saveDataToFile_Ret|].
  unfold liftO in Hclean.
  destruct (cleanAndDeduplicateData _ _ _ _ _) as [d|] eqn:Hd; [|done].
  injection Hclean as -> _. eauto.
Qed.

Lemma cleaned_lastUpdated lowerOf trimOf genId stamp raw data :
  cleanAndDeduplicateData lowerOf trimOf genId stamp raw = Return data →
  Forall (λ s, isString (getField s "lastUpdated") = true) data.
Proof.
  unfold cleanAndDeduplicateData. intros ->%cleanLoop_kept. simpl.
  apply Forall_fmap, Forall_forall. intros [i s] _.
  change (isString (getField (cleanedScheme genId stamp i s (trimOf (nameOf s)))
                             "lastUpdated") = true).
  assert (cleanedScheme genId stamp i s (trimOf (nameOf s)) !! "lastUpdated"
          = Some (JStr (stamp i))) as Hlook.
  { apply elem_of_list_to_map_1.
    - rewrite cleanedFields_names. apply cleanedFieldNames_NoDup.
    - apply (list_elem_of_lookup_2 _ 30). reflexivity. }
  unfold getField. by rewrite Hlook.
Qed.

(** The comparison in [retrainModel] is between the fresh data and the file
    that fetching them has just overwritten with them: whenever the fetch
    succeeds with string ids that are all different, [retrainModel]
    reports that no retraining is needed, whatever was persisted before,
    and runs nothing of the pipeline. *)
Lemma retrainModel_compares_data_with_itself data w w' :
  fetchAllSchemeData env w = Ret data w' →
  NoDup (idOf <$> data) → Forall (λ s, isString (idOf s) = true) data →
  retrainModel env w = Ret NoRetrainingNeeded w'.
Proof.
  intros Hfetch Hnd Hids.
  destruct (fetchAllSchemeData_Ret _ _ _ Hfetch) as (Hfile & genId & stamp & raw & Hclean).
  unfold retrainModel. rewrite tryCatch_rethrow.
  rewrite (bind_Ret _ _ _ _ _ Hfetch).
  rewrite (bind_Ret _ _ _ _ _ (loadScrapedData_saved _ _ Hfile)).
  rewrite hasDataChanged_same; try done.
  by eapply cleaned_lastUpdated.
Qed.

End WithEnv.

(** C2 at the failing input: a process that has never trained and has no
    persisted data (MyScheme unreachable, the two built-in records fetched).
    The first [retrainModel()] already answers that no retraining is needed
    and leaves no snapshot, no vector and no training example; so does the
    second; so does a call made while the persisted dataset is an older one,
    of another size; [trainRAGModel()] on the same state is what runs the
    pipeline. *)
Theorem retrainModel_first_call_skips :
  observed (retrainModel quietEnv memoryWorld) = Some (None, false, 0, None) ∧
  observed ((_ ← retrainModel quietEnv; retrainModel quietEnv) memoryWorld)
    = Some (None, false, 0, None) ∧
  observed (retrainModel quietEnv staleWorld) = Some (None, false, 0, None) ∧
  observed (trainRAGModel quietEnv memoryWorld) = Some (Some (2, 16), true, 2, Some 16).
Proof. vm_compute. split_and!; reflexivity. Qed.

End RetrainFacts.

(** ** The scheduler *)

Module SchedulerFacts.
Import Scheduler SchedulerSpec.

Lemma guarded_initial : guarded initial.
Proof. by left. Qed.

Lemma guarded_step s s' : guarded s → step s s' → guarded s'.
Proof.
  intros Hg Hstep. destruct Hstep as [s|s|s i how s' Hres].
  - unfold performScheduledTraining.
    destruct Hg as [[Hf Hr]|[Ht Hr]].
    + rewrite Hf. simpl. right. split; [done|]. rewrite Hr. by eexists.
    + rewrite Ht. simpl. by right.
  - unfold forceTraining.
    destruct Hg as [[Hf Hr]|[Ht Hr]].
    + rewrite Hf. simpl. right. split; [done|]. rewrite Hr. by eexists.
    + rewrite Ht. simpl. by right.
  - unfold resume in Hres.
    destruct Hg as [[Hf Hr]|[Ht [r Hr]]]; rewrite Hr in Hres.
    + by destruct i.
    + destruct i as [|i]; simpl in Hres; [|by destruct i].
      destruct r, how as [[]| |]; simplify_eq; simpl.
      all: first [ by left | right; split; [done|]; by eexists ].
Qed.

Lemma reachable_guarded s : reachable s → guarded s.
Proof. induction 1; eauto using guarded_initial, guarded_step. Qed.

(** C4. In every reachable state of the scheduler at most one invocation has
    passed the guard, so at most one training run is active; the flag
    [isTraining] is set exactly while there is one; and while it is set a
    forced trigger throws before doing anything and a scheduled trigger
    returns, each leaving the state as it was: nothing is started and nothing
    is queued. *)
Theorem scheduler_mutual_exclusion (s : State) :
  reachable s →
  length (running s) ≤ 1 ∧
  length (activeRuns s) ≤ 1 ∧
  (isTraining s = true ↔ running s ≠ []) ∧
  (isTraining s = true →
     forceTraining s = (s, Rejected (Error "Training already in progress")) ∧
     performScheduledTraining s = (s, Skipped)).
Proof.
  intros Hg%reachable_guarded. unfold activeRuns, forceTraining, performScheduledTraining.
  destruct Hg as [[Hf Hr]|[Ht [r Hr]]]; rewrite Hr.
  - rewrite Hf. simpl. split_and!; [lia|lia| |done]. split; [done|by intros []].
  - rewrite Ht. simpl. split_and!; [lia| |done|done].
    destruct (inPipeline r); simpl; lia.
Qed.

(** The theorem in the state reached by one forced trigger. *)
Lemma scheduler_mutual_exclusion_witness :
  length (running duringForcedRun) ≤ 1 ∧
  length (activeRuns duringForcedRun) ≤ 1 ∧
  (isTraining duringForcedRun = true ↔ running duringForcedRun ≠ []) ∧
  (isTraining duringForcedRun = true →
     forceTraining duringForcedRun
       = (duringForcedRun, Rejected (Error "Training already in progress")) ∧
     performScheduledTraining duringForcedRun = (duringForcedRun, Skipped)).
Proof.
  apply (scheduler_mutual_exclusion duringForcedRun).
  apply (reachable_step initial); [apply reachable_initial | apply step_forced].
Defined.

(** Once the run has settled, the next trigger starts a new one. *)
Lemma scheduler_restarts_after_run :
  ∃ s, resume duringForcedRun 0 (Resolved 0) = Some s ∧
       isTraining s = false ∧ (performScheduledTraining s).2 = Started.
Proof. eexists. split; [reflexivity|]. done. Qed.

End SchedulerFacts.

(** ** Objects *)

Module ObjectFacts.

Lemma getField_insert_ne (o : jsobj) f g v : f ≠ g → getField (<[f := v]> o) g = getField o g.
Proof. intros. unfold getField. by rewrite lookup_insert_ne. Qed.

Lemma getField_insert (o : jsobj) f v : getField (<[f := v]> o) f = v.
Proof. unfold getField. by rewrite lookup_insert_eq. Qed.


Lemma getField_list_to_map_None (l : list (string * jsval)) f :
  f ∉ l.*1 → getField (list_to_map l) f = JUndefined.
Proof.
  intros Hf. unfold getField.
  assert ((list_to_map l : jsobj) !! f = None) as ->; [|done].
  by apply not_elem_of_list_to_map_1.
Qed.


(** Reading off a run that was evaluated. *)
Lemma Return_checked {A} (P : A → bool) (m : outcome A) :
  match m with Return a => P a | Throw _ => false end = true →
  ∃ a, m = Return a ∧ P a = true.
Proof. destruct m as [a|]; [|done]. intros H. by exists a. Qed.

Lemma Ret_checked {A} (P : A → World → bool) (r : res A) :
  match r with Ret a w => P a w | _ => false end = true →
  ∃ a w, r = Ret a w ∧ P a w = true.
Proof. destruct r as [a w| |]; [|done..]. intros H. by exists a, w. Qed.

End ObjectFacts.

Import ObjectFacts.

(** ** Processing and training examples *)

Module ProcessFacts.
Import VectorDB RAGTrainer ProcessSpec.

Lemma optJoin_returns sep v : returns (optJoin sep v) ↔ joinable v = true.
Proof.
  unfold returns. destruct v; simpl; split; try done; try (intros [a Ha]; done); eauto.
Qed.

Lemma optIncludes_returns v k : returns (optIncludes v k) ↔ searchable v = true.
Proof.
  unfold returns. destruct v; simpl; split; try done; try (intros [a Ha]; done); eauto.
Qed.

Lemma toLowerCase_returns v : returns (toLowerCase v) ↔ isString v = true.
Proof.
  unfold returns, toLowerCase. destruct v; simpl; split; try done;
    try (intros [a Ha]; done); eauto.
Qed.

Lemma createSearchableText_returns scheme :
  returns (createSearchableText scheme) ↔
  joinable (getField scheme "eligibility") = true ∧ joinable (getField scheme "tags") = true.
Proof.
  unfold createSearchableText. rewrite <- !(optJoin_returns " "). unfold returns.
  destruct (optJoin " " (getField scheme "eligibility")) as [e|]; simpl.
  - destruct (optJoin " " (getField scheme "tags")) as [t|]; simpl.
    + split; [intros _; split; by eexists | intros _; by eexists].
    + split; [intros [a Ha]; done | intros [_ [a Ha]]; done].
  - split; [intros [a Ha]; done | intros [[a Ha] _]; done].
Qed.

Lemma foldlM_returns {A B} (f : A → B → outcome A) (l : list B) :
  (∀ a b, b ∈ l → returns (f a b)) → ∀ a, returns (foldlM f a l).
Proof.
  induction l as [|b l IH]; intros Hf a; simpl; [by eexists|].
  destruct (Hf a b) as [a' Ha']; [by left|]. rewrite Ha'. simpl.
  apply IH. intros; apply Hf. by right.
Qed.

Lemma foldlM_throws_head {A B} (f : A → B → outcome A) (b : B) (l : list B) a :
  throws (f a b) → throws (foldlM f a (b :: l)).
Proof. intros [e He]. simpl. rewrite He. by exists e. Qed.

Lemma returns_not_throws {A} (m : outcome A) : returns m ↔ ¬ throws m.
Proof.
  unfold returns, throws. destruct m; split; try (intros [? ?]; done); eauto.
  - intros _ [? ?]; done.
  - intros H. exfalso. apply H. eauto.
Qed.

Lemma extractKeywords_returns scheme :
  returns (extractKeywords scheme) ↔
  isString (getField scheme "name") = true ∧
  isString (getField scheme "category") = true ∧
  textual (getField scheme "objective") = true ∧
  searchable (getField scheme "searchableText") = true.
Proof.
  unfold extractKeywords.
  destruct (getField scheme "category") as [| | | |c|] eqn:Hc;
    try (split; [intros [a Ha]; done | intros (_ & ? & _); done]).
  destruct (getField scheme "name") as [| | | |n|] eqn:Hn;
    try (split; [intros [a Ha]; done | intros (? & _); done]).
  cbn [toLowerCase stringMethod mbind outcome_bind].
  set (ks := fold_left _ (splitSpace "" (lower n)) _).
  destruct (getField scheme "objective") as [| | | |o|] eqn:Ho;
    try (split; [intros [a Ha]; done | intros (_ & _ & ? & _); done]).
  all: cbn [toLowerCase stringMethod mbind outcome_bind fmap outcome_fmap].
  all: set (ks' := fold_left _ _ ks).
  all: destruct (searchable (getField scheme "searchableText")) eqn:Hs.
  all: try (split; [done|intros _]; apply foldlM_returns; intros a b _;
            destruct (proj2 (optIncludes_returns (getField scheme "searchableText") b) Hs)
              as [r ->]; by eexists).
  all: split; [|intros (_ & _ & _ & ?); done].
  all: intros Hret; exfalso; apply returns_not_throws in Hret; apply Hret.
  all: apply foldlM_throws_head.
  all: destruct (optIncludes (getField scheme "searchableText") "government") eqn:Hi;
       [|by eexists].
  all: assert (searchable (getField scheme "searchableText") = true)
         by (apply (optIncludes_returns _ "government"); by eexists); congruence.
Qed.

Lemma someM_returns test ks : (∀ k, returns (test k)) → returns (someM test ks).
Proof.
  intros Ht. induction ks as [|k ks IH]; simpl; [by eexists|].
  destruct (Ht k) as [[] ->]; simpl; [by eexists|done].
Qed.

Lemma calculatePriority_returns scheme :
  isString (getField scheme "name") = true →
  searchable (getField scheme "searchableText") = true →
  returns (calculatePriority scheme).
Proof.
  intros Hn Hs. unfold calculatePriority.
  destruct (getField scheme "name") as [| | | |n|] eqn:Hname; try done.
  edestruct (someM_returns
    (λ keyword, name ← toLowerCase (JStr n);
                if includes name keyword then Return true
                else optIncludes (getField scheme "searchableText") keyword)
    highPriorityKeywords) as [h ->].
  { intros k. simpl. destruct (includes (lower n) k); [by eexists|].
    by apply optIncludes_returns. }
  cbn [mbind outcome_bind].
  edestruct (someM_returns (optIncludes (getField scheme "searchableText"))
               mediumPriorityKeywords) as [m ->].
  { intros k. by apply optIncludes_returns. }
  by eexists.
Qed.

Lemma enhanceScheme_returns scheme : returns (enhanceScheme scheme) ↔ processable scheme.
Proof.
  unfold enhanceScheme, processable. split.
  - intros [e He].
    destruct (createSearchableText scheme) as [t|] eqn:Ht; [|done].
    destruct (extractKeywords scheme) as [ks|] eqn:Hk; [|done].
    assert (returns (createSearchableText scheme)) as Ht' by (by eexists).
    assert (returns (extractKeywords scheme)) as Hk' by (by eexists).
    apply createSearchableText_returns in Ht'. apply extractKeywords_returns in Hk'.
    tauto.
  - intros (Hn & Hc & Ho & He & Ht & Hs).
    destruct (proj2 (createSearchableText_returns scheme)) as [t ->]; [done|].
    destruct (proj2 (extractKeywords_returns scheme)) as [ks ->]; [done|].
    destruct (calculatePriority_returns scheme Hn Hs) as [p ->].
    by eexists.
Qed.


Lemma typeErrors_ret {A} (a : A) : typeErrors (Return a).
Proof. by intros e. Qed.

Lemma typeErrors_bind {A B} (m : outcome A) (f : A → outcome B) :
  typeErrors m → (∀ a, typeErrors (f a)) → typeErrors (m ≫= f).
Proof. intros Hm Hf e. destruct m as [a|e']; simpl; [apply Hf|]. intros [= <-]. by apply Hm. Qed.

Lemma typeErrors_fmap {A B} (m : outcome A) (f : A → B) :
  typeErrors m → typeErrors (f <$> m).
Proof. intros Hm e. destruct m as [a|e']; simpl; [done|]. intros [= <-]. by apply Hm. Qed.

Lemma typeErrors_foldlM {A B} (f : A → B → outcome A) (l : list B) :
  (∀ a b, typeErrors (f a b)) → ∀ a, typeErrors (foldlM f a l).
Proof.
  intros Hf. induction l as [|b l IH]; intros a; simpl; [apply typeErrors_ret|].
  apply typeErrors_bind; [apply Hf|apply IH].
Qed.

Lemma typeErrors_someM test ks : (∀ k, typeErrors (test k)) → typeErrors (someM test ks).
Proof.
  intros Ht. induction ks as [|k ks IH]; simpl; [apply typeErrors_ret|].
  apply typeErrors_bind; [apply Ht|]. intros []; [apply typeErrors_ret|apply IH].
Qed.

Lemma typeErrors_mapM {A B} (f : A → outcome B) (l : list A) :
  (∀ a, typeErrors (f a)) → typeErrors (mapM f l).
Proof.
  intros Hf. induction l as [|a l IH]; simpl; [apply typeErrors_ret|].
  apply typeErrors_bind; [apply Hf|]. intros b.
  apply typeErrors_bind; [apply IH|]. intros bs. apply typeErrors_ret.
Qed.

Lemma typeErrors_stringMethod m f v : typeErrors (stringMethod m f v).
Proof. intros e. destruct v; simpl; intros [= <-]; by eexists. Qed.

Lemma typeErrors_optJoin sep v : typeErrors (optJoin sep v).
Proof. intros e. destruct v; simpl; intros [= <-]; by eexists. Qed.

Lemma typeErrors_mustJoin sep v : typeErrors (mustJoin sep v).
Proof. intros e. destruct v; simpl; intros [= <-]; by eexists. Qed.

Lemma typeErrors_optIncludes v k : typeErrors (optIncludes v k).
Proof. intros e. destruct v; simpl; intros [= <-]; by eexists. Qed.

Lemma typeErrors_enhanceScheme scheme : typeErrors (enhanceScheme scheme).
Proof.
  unfold enhanceScheme.
  apply typeErrors_bind.
  { unfold createSearchableText.
    apply typeErrors_bind; [apply typeErrors_optJoin|]. intros e.
    apply typeErrors_bind; [apply typeErrors_optJoin|]. intros t. apply typeErrors_ret. }
  intros t. apply typeErrors_bind.
  { unfold extractKeywords.
    apply typeErrors_bind; [apply typeErrors_stringMethod|]. intros c.
    apply typeErrors_bind; [apply typeErrors_stringMethod|]. intros n.
    apply typeErrors_bind.
    { destruct (getField scheme "objective"); try apply typeErrors_ret;
        apply typeErrors_fmap, typeErrors_stringMethod. }
    intros ws. apply typeErrors_foldlM. intros ks k.
    apply typeErrors_bind; [apply typeErrors_optIncludes|]. intros b. apply typeErrors_ret. }
  intros ks. apply typeErrors_bind; [|intros p; apply typeErrors_ret].
  unfold calculatePriority.
  apply typeErrors_bind.
  { apply typeErrors_someM. intros k.
    apply typeErrors_bind; [apply typeErrors_stringMethod|]. intros n.
    destruct (includes n k); [apply typeErrors_ret|apply typeErrors_optIncludes]. }
  intros h. apply typeErrors_bind; [|intros m; apply typeErrors_ret].
  apply typeErrors_someM. intros k. apply typeErrors_optIncludes.
Qed.

Lemma mapM_returns_iff {A B} (f : A → outcome B) (l : list A) :
  returns (mapM f l) ↔ Forall (λ a, returns (f a)) l.
Proof.
  induction l as [|a l IH]; simpl.
  - split; [constructor | intros _; by eexists].
  - rewrite Forall_cons, <- IH. unfold returns.
    destruct (f a) as [b|e]; simpl.
    + destruct (mapM f l) as [bs|e]; simpl.
      * split; [intros _; split; by eexists | intros _; by eexists].
      * split; [intros [? ?]; done | intros [_ [? ?]]; done].
    + split; [intros [? ?]; done | intros [[? ?] _]; done].
Qed.

Lemma mapM_Return_inv {A B} (f : A → outcome B) (l : list A) (out : list B) :
  mapM f l = Return out → Forall2 (λ a b, f a = Return b) l out.
Proof.
  revert out. induction l as [|a l IH]; intros out; simpl.
  - intros [= <-]. constructor.
  - destruct (f a) as [b|e] eqn:Hb; simpl; [|done].
    destruct (mapM f l) as [bs|e]; simpl; [|done].
    intros [= <-]. constructor; [done|]. by apply IH.
Qed.

Lemma processTrainingData_processable schemes :
  returns (processTrainingData schemes) ↔ Forall processable schemes.
Proof.
  unfold processTrainingData. rewrite mapM_returns_iff.
  apply Forall_proper; [|done]. intros s. apply enhanceScheme_returns.
Qed.

(** X1. [processTrainingData] returns exactly when every record can be
    enhanced, and otherwise throws a TypeError. *)
Theorem processTrainingData_returns_iff (schemes : list jsobj) :
  (returns (processTrainingData schemes) ↔ Forall processable schemes) ∧
  typeErrors (processTrainingData schemes).
Proof.
  split; [apply processTrainingData_processable|].
  apply typeErrors_mapM, typeErrors_enhanceScheme.
Qed.


Lemma calculateComplexity_range scheme : (1 ≤ calculateComplexity scheme ≤ 4)%Z.
Proof.
  unfold calculateComplexity.
  destruct (longerThan _ 3), (longerThan _ 5), (longerThan _ 4); simpl; lia.
Qed.

Lemma calculatePriority_range scheme p : calculatePriority scheme = Return p → (1 ≤ p ≤ 4)%Z.
Proof.
  unfold calculatePriority.
  destruct (someM _ highPriorityKeywords) as [h|]; [|done]. cbn [mbind outcome_bind].
  destruct (someM _ mediumPriorityKeywords) as [m|]; [|done]. cbn [mbind outcome_bind].
  intros [= <-]. destruct h, m; simpl; lia.
Qed.

Lemma enhanceScheme_Return scheme e :
  enhanceScheme scheme = Return e →
  ∃ t ks p,
    createSearchableText scheme = Return t ∧ extractKeywords scheme = Return ks ∧
    calculatePriority scheme = Return p ∧
    e = <["priority" := JNum p]>
        (<["complexity" := JNum (calculateComplexity scheme)]>
        (<["keywords" := JArr (JStr <$> ks)]>
        (<["searchableText" := JStr t]> scheme))).
Proof.
  unfold enhanceScheme.
  destruct (createSearchableText scheme) as [t|]; [|done]. cbn [mbind outcome_bind].
  destruct (extractKeywords scheme) as [ks|]; [|done]. cbn [mbind outcome_bind].
  destruct (calculatePriority scheme) as [p|]; [|done]. cbn [mbind outcome_bind].
  intros [= <-]. by exists t, ks, p.
Qed.

(** X2. What [processTrainingData] returns has one record per input record,
    in input order; each is the input record with four fields set and every
    other field as it was; the complexity and the priority lie between 1
    and 4. *)
Theorem processTrainingData_extends (schemes out : list jsobj) :
  processTrainingData schemes = Return out →
  Forall2 (λ scheme e,
      (∀ f, f ∉ enhancedFields → e !! f = scheme !! f) ∧
      isString (getField e "searchableText") = true ∧
      isArray (getField e "keywords") = true ∧
      ∃ c p, getField e "complexity" = JNum c ∧ getField e "priority" = JNum p ∧
             (1 ≤ c ≤ 4)%Z ∧ (1 ≤ p ≤ 4)%Z)
    schemes out.
Proof.
  intros H%mapM_Return_inv. eapply Forall2_impl; [exact H|].
  intros scheme e (t & ks & p & Ht & Hk & Hp & ->)%enhanceScheme_Return. split_and!.
  - intros f Hf. unfold enhancedFields in Hf.
    rewrite !not_elem_of_cons in Hf. destruct Hf as (? & ? & ? & ? & _).
    by rewrite !lookup_insert_ne.
  - by rewrite !getField_insert_ne, getField_insert by done.
  - by rewrite !getField_insert_ne, getField_insert by done.
  - exists (calculateComplexity scheme), p.
    rewrite getField_insert_ne, !getField_insert by done.
    pose proof (calculateComplexity_range scheme).
    apply calculatePriority_range in Hp.
    split_and!; try done; lia.
Qed.

Lemma someM_pure (g : string → bool) ks :
  someM (λ k, Return (g k)) ks = Return (existsb g ks).
Proof. induction ks as [|k ks IH]; simpl; [done|]. by destruct (g k). Qed.

Lemma someM_ext (f g : string → outcome bool) ks :
  (∀ k, f k = g k) → someM f ks = someM g ks.
Proof. intros H. induction ks as [|k ks IH]; simpl; [done|]. by rewrite H, IH. Qed.

Lemma calculatePriority_without_text scheme p :
  getField scheme "searchableText" = JUndefined →
  calculatePriority scheme = Return p →
  p = if highPriorityName scheme then 3%Z else 1%Z.
Proof.
  intros Hs. unfold calculatePriority, highPriorityName. rewrite Hs.
  destruct (getField scheme "name") as [| | | |n|]; try done.
  rewrite (someM_ext (optIncludes JUndefined) (λ _, Return false)) by done.
  rewrite (someM_ext (λ keyword, name ← toLowerCase (JStr n);
                        if includes name keyword then Return true
                        else optIncludes JUndefined keyword)
                     (λ k, Return (includes (lower n) k))).
  2:{ intros k. unfold toLowerCase. simpl. by destruct (includes (lower n) k). }
  rewrite !someM_pure. cbn [mbind outcome_bind].
  intros [= <-].
  simpl. by destruct (includes (lower n) "pm kisan" || _).
Qed.


Lemma addKeyword_spec ks w :
  (NoDup ks → NoDup (addKeyword ks w)) ∧
  (∀ k, k ∈ addKeyword ks w ↔ k ∈ ks ∨ k = w) ∧
  (ks ≠ [] → head (addKeyword ks w) = head ks).
Proof.
  unfold addKeyword. case_bool_decide as Hin; split_and!; try done.
  - intros k. split; [by left|]. by intros [?| ->].
  - intros Hnd. apply NoDup_app. split_and!; [done| |apply NoDup_singleton].
    intros x Hx ->%list_elem_of_singleton. done.
  - intros k. rewrite elem_of_app, list_elem_of_singleton. done.
  - by destruct ks.
Qed.

Lemma fold_addKeyword (P : string → bool) ws : ∀ ks,
  let out := fold_left (λ ks w, if P w then addKeyword ks w else ks) ws ks in
  (NoDup ks → NoDup out) ∧
  (∀ k, k ∈ out ↔ k ∈ ks ∨ (k ∈ ws ∧ P k = true)) ∧
  (ks ≠ [] → head out = head ks).
Proof.
  induction ws as [|w ws IH]; intros ks; simpl.
  - split_and!; try done. intros k. split; [by left|]. intros [?|[H _]]; [done|].
    by apply elem_of_nil in H.
  - destruct (addKeyword_spec ks w) as (Hnd & Hin & Hhd).
    destruct (P w) eqn:HP.
    + destruct (IH (addKeyword ks w)) as (Hnd' & Hin' & Hhd'). split_and!.
      * intros ?. by apply Hnd', Hnd.
      * intros k. rewrite Hin', Hin, elem_of_cons. split.
        -- intros [[?| ->]|[? ?]]; [by left|right; split; [by left|done]|right; split; [by right|done]].
        -- intros [?|[[->|?] ?]]; [left; by left|left; by right|right; done].
      * intros Hne. rewrite Hhd'; [by apply Hhd|].
        intros Hnil. assert (w ∈ addKeyword ks w) as Hw by (apply Hin; by right).
        rewrite Hnil in Hw. by apply elem_of_nil in Hw.
    + destruct (IH ks) as (Hnd' & Hin' & Hhd'). split_and!; try done.
      intros k. rewrite Hin', elem_of_cons. split.
      * intros [?|[? ?]]; [by left|right; split; [by right|done]].
      * intros [?|[[->|?] ?]]; [by left|congruence|right; done].
Qed.

Lemma foldlM_addKeyword st l : ∀ ks out,
  foldlM (λ ks keyword,
            found ← optIncludes st keyword;
            mret (if found : bool then addKeyword ks keyword else ks)) ks l = Return out →
  (NoDup ks → NoDup out) ∧
  (∀ k, k ∈ out ↔ k ∈ ks ∨ (k ∈ l ∧ optIncludes st k = Return true)) ∧
  (ks ≠ [] → head out = head ks).
Proof.
  induction l as [|w l IH]; intros ks out; simpl.
  - intros [= <-]. split_and!; try done. intros k. split; [by left|].
    intros [?|[H _]]; [done|]. by apply elem_of_nil in H.
  - destruct (optIncludes st w) as [found|] eqn:Hw; [|done]. cbn [mbind outcome_bind mret outcome_ret].
    destruct (addKeyword_spec ks w) as (Hnd & Hin & Hhd).
    intros H. destruct found.
    + destruct (IH _ _ H) as (Hnd' & Hin' & Hhd'). split_and!.
      * intros ?. by apply Hnd', Hnd.
      * intros k. rewrite Hin', Hin, elem_of_cons. split.
        -- intros [[?| ->]|[? ?]]; [by left|right; split; [by left|done]|right; split; [by right|done]].
        -- intros [?|[[->|?] ?]]; [left; by left|left; by right|right; done].
      * intros Hne. rewrite Hhd'; [by apply Hhd|].
        intros Hnil. assert (w ∈ addKeyword ks w) as Hw' by (apply Hin; by right).
        rewrite Hnil in Hw'. by apply elem_of_nil in Hw'.
    + destruct (IH _ _ H) as (Hnd' & Hin' & Hhd'). split_and!; try done.
      intros k. rewrite Hin', elem_of_cons. split.
      * intros [?|[? ?]]; [by left|right; split; [by right|done]].
      * intros [?|[[->|?] ?]]; [by left|congruence|right; done].
Qed.

Lemma extractKeywords_tail (c n : string) (ows : list string) (st : jsval) (ks : list string) :
  foldlM (λ ks keyword,
            found ← optIncludes st keyword;
            mret (if found : bool then addKeyword ks keyword else ks))
         (fold_left (λ ks word,
                       if (4 <? String.length word) && negb (isStopWord word)
                       then addKeyword ks word else ks)
            ows
            (fold_left (λ ks word, if 3 <? String.length word then addKeyword ks word else ks)
               (splitSpace "" (lower n)) [lower c]))
         commonKeywords = Return ks →
  NoDup ks ∧ head ks = Some (lower c) ∧
  ∀ k, k ∈ ks ↔
    k = lower c ∨
    (k ∈ splitSpace "" (lower n) ∧ 3 < String.length k) ∨
    (k ∈ ows ∧ 4 < String.length k ∧ isStopWord k = false) ∨
    (k ∈ commonKeywords ∧ optIncludes st k = Return true).
Proof.
  pose proof (fold_addKeyword (λ w, 3 <? String.length w) (splitSpace "" (lower n)) [lower c])
    as (Hnd1 & Hin1 & Hhd1).
  set (ks1 := fold_left _ (splitSpace "" (lower n)) [lower c]) in *.
  pose proof (fold_addKeyword (λ w, (4 <? String.length w) && negb (isStopWord w)) ows ks1)
    as (Hnd2 & Hin2 & Hhd2).
  set (ks2 := fold_left _ ows ks1) in *.
  intros (Hnd3 & Hin3 & Hhd3)%foldlM_addKeyword.
  assert (ks1 ≠ []) as Hne1.
  { intros Hnil. assert (lower c ∈ ks1) as Hc by (apply Hin1; left; by left).
    rewrite Hnil in Hc. by apply elem_of_nil in Hc. }
  assert (ks2 ≠ []) as Hne2.
  { intros Hnil. assert (lower c ∈ ks2) as Hc by (apply Hin2; left; apply Hin1; left; by left).
    rewrite Hnil in Hc. by apply elem_of_nil in Hc. }
  split_and!.
  - apply Hnd3, Hnd2, Hnd1, NoDup_singleton.
  - rewrite Hhd3, Hhd2, Hhd1 by done. done.
  - intros k. rewrite Hin3, Hin2, Hin1, list_elem_of_singleton.
    rewrite andb_true_iff, negb_true_iff, !Nat.ltb_lt. tauto.
Qed.

Lemma extractKeywords_members (scheme : jsobj) (ks : list string) :
  extractKeywords scheme = Return ks →
  NoDup ks ∧ head ks = Some (lower (textOf (getField scheme "category"))) ∧
  ∀ k, k ∈ ks ↔
    k = lower (textOf (getField scheme "category")) ∨
    (k ∈ words (textOf (getField scheme "name")) ∧ 3 < String.length k) ∨
    (k ∈ words (textOf (getField scheme "objective")) ∧ 4 < String.length k ∧
     isStopWord k = false) ∨
    (k ∈ commonKeywords ∧ optIncludes (getField scheme "searchableText") k = Return true).
Proof.
  unfold extractKeywords, words.
  destruct (getField scheme "category") as [| | | |c|]; try done.
  destruct (getField scheme "name") as [| | | |n|]; try done.
  assert (∀ k, (k ∈ @nil string ∧ 4 < String.length k ∧ isStopWord k = false) ↔
               (k ∈ splitSpace "" (lower "") ∧ 4 < String.length k ∧ isStopWord k = false))
    as Hnone.
  { intros k. split; [intros [H _]; by apply elem_of_nil in H|].
    intros [H%list_elem_of_singleton [Hlen _]]. subst k. simpl in Hlen. lia. }
  destruct (getField scheme "objective") as [| | | |o|];
    cbn [toLowerCase stringMethod mbind outcome_bind fmap outcome_fmap textOf]; try done.
  - intros (? & ? & Hin)%extractKeywords_tail. split_and!; try done.
    intros k. rewrite Hin, Hnone. done.
  - intros (? & ? & Hin)%extractKeywords_tail. split_and!; try done.
    intros k. rewrite Hin, Hnone. done.
  - intros (? & ? & Hin)%extractKeywords_tail. by split_and!.
Qed.

(** X3. The keywords of a record with ASCII texts are distinct; the first is
    the lower-cased category; a string is a keyword exactly when it is the
    lower-cased category, a word of the lower-cased name longer than three
    characters, a word of the lower-cased objective longer than four
    characters that is no stop word, or one of the ten common keywords that
    [scheme.searchableText] includes. *)
Theorem extractKeywords_spec (scheme : jsobj) (ks : list string) :
  asciiRecord scheme →
  extractKeywords scheme = Return ks →
  NoDup ks ∧ head ks = Some (lower (textOf (getField scheme "category"))) ∧
  ∀ k, k ∈ ks ↔
    k = lower (textOf (getField scheme "category")) ∨
    (k ∈ words (textOf (getField scheme "name")) ∧ 3 < String.length k) ∨
    (k ∈ words (textOf (getField scheme "objective")) ∧ 4 < String.length k ∧
     isStopWord k = false) ∨
    (k ∈ commonKeywords ∧ optIncludes (getField scheme "searchableText") k = Return true).
Proof. intros _. apply extractKeywords_members. Qed.


Lemma processTrainingData_without_text (schemes out : list jsobj) :
  Forall (λ s, getField s "searchableText" = JUndefined) schemes →
  processTrainingData schemes = Return out →
  Forall2 (λ scheme e,
      getField e "priority" = JNum (if highPriorityName scheme then 3 else 1) ∧
      ∃ ks, getField e "keywords" = JArr (JStr <$> ks) ∧
            ∀ k, k ∈ ks →
              k = lower (textOf (getField scheme "category")) ∨
              k ∈ words (textOf (getField scheme "name")) ∨
              k ∈ words (textOf (getField scheme "objective")))
    schemes out.
Proof.
  intros Hno H%mapM_Return_inv.
  induction H as [|scheme e schemes out He _ IH]; [constructor|].
  apply Forall_cons in Hno as [Hs Hno]. constructor; [|by apply IH].
  apply enhanceScheme_Return in He as (t & ks & p & _ & Hk & Hp & ->). split.
  - rewrite getField_insert. f_equal. by apply calculatePriority_without_text.
  - exists ks. rewrite getField_insert_ne, getField_insert_ne, getField_insert by done.
    split; [done|]. intros k Hin.
    apply extractKeywords_members in Hk as (_ & _ & Hspec).
    apply Hspec in Hin as [?|[[? _]|[[? _]|[_ Hc]]]]; [by left|right; by left|right; by right|].
    rewrite Hs in Hc. done.
Qed.

(** X4. The priority and the keywords are computed from the record as it
    came in, before [searchableText] is attached to it.  For records (with
    ASCII texts) that come without that field the medium-priority keywords
    and the common keywords never apply: the priority is 3 when the
    lower-cased name includes a high-priority keyword and 1 otherwise, and
    every keyword is the lower-cased category or a word of the name or of
    the objective. *)
Theorem processTrainingData_ignores_searchableText (schemes out : list jsobj) :
  Forall asciiRecord schemes →
  Forall (λ s, getField s "searchableText" = JUndefined) schemes →
  processTrainingData schemes = Return out →
  Forall2 (λ scheme e,
      getField e "priority" = JNum (if highPriorityName scheme then 3 else 1) ∧
      ∃ ks, getField e "keywords" = JArr (JStr <$> ks) ∧
            ∀ k, k ∈ ks →
              k = lower (textOf (getField scheme "category")) ∨
              k ∈ words (textOf (getField scheme "name")) ∨
              k ∈ words (textOf (getField scheme "objective")))
    schemes out.
Proof. intros _. apply processTrainingData_without_text. Qed.

Lemma examplesForScheme_shape scheme exs :
  examplesForScheme scheme = Return exs →
  ex_expectedScheme <$> exs = replicate 8 (getField scheme "id") ∧
  ex_language <$> exs = ["en"; "hi"; "ta"; "en"; "hi"; "en"; "en"; "en"].
Proof.
  unfold examplesForScheme. intros H%mapM_Return_inv.
  assert (Forall2 (λ q x, ex_expectedScheme x = getField scheme "id" ∧
                          ex_language x = q_language q)
            (generateQueriesForScheme scheme) exs) as H'.
  { eapply Forall2_impl; [exact H|]. intros q x. simpl.
    destruct (generateExpectedResponse scheme q); [|done]. by intros [= <-]. }
  clear H. unfold generateQueriesForScheme in H'.
  repeat (apply Forall2_cons_inv_l in H' as (? & ? & [? ?] & H' & ->)).
  apply Forall2_nil_inv_l in H' as ->. simpl in *. split; congruence.
Qed.

Lemma allExamples_shape (schemes : list jsobj) (examples : list TrainingExample) :
  allExamples schemes = Return examples →
  length examples = 8 * length schemes ∧
  ex_expectedScheme <$> examples = schemes ≫= (λ s, replicate 8 (getField s "id")) ∧
  ex_language <$> examples =
    schemes ≫= (λ _, ["en"; "hi"; "ta"; "en"; "hi"; "en"; "en"; "en"]).
Proof.
  unfold allExamples.
  destruct (mapM examplesForScheme schemes) as [groups|] eqn:Hg; [|done].
  cbn [fmap outcome_fmap]. intros [= <-].
  apply mapM_Return_inv in Hg.
  assert (ex_expectedScheme <$> concat groups = schemes ≫= (λ s, replicate 8 (getField s "id")) ∧
          ex_language <$> concat groups =
            schemes ≫= (λ _, ["en"; "hi"; "ta"; "en"; "hi"; "en"; "en"; "en"])) as [H1 H2].
  { induction Hg as [|s g schemes groups Hs _ [IH1 IH2]]; [done|].
    apply examplesForScheme_shape in Hs as [Hid Hlang].
    cbn [concat mbind list_bind]. rewrite !fmap_app, IH1, IH2, Hid, Hlang. done. }
  split_and!; try done.
  rewrite <- (length_fmap ex_language), H2.
  clear. induction schemes as [|s schemes IH]; [done|].
  cbn [mbind list_bind]. rewrite length_app, IH. simpl. lia.
Qed.

(** X5. What [generateTrainingExamples] builds: eight examples for each
    record, the groups in input order, each example carrying the id of its
    record; of the eight, five are in English, two in Hindi, one in Tamil. *)
Theorem allExamples_eight_per_scheme (schemes : list jsobj) (examples : list TrainingExample) :
  allExamples schemes = Return examples →
  length examples = 8 * length schemes ∧
  ex_expectedScheme <$> examples = schemes ≫= (λ s, replicate 8 (getField s "id")) ∧
  ex_language <$> examples =
    schemes ≫= (λ _, ["en"; "hi"; "ta"; "en"; "hi"; "en"; "en"; "en"]).
Proof. apply allExamples_shape. Qed.


Lemma mustJoin_or_returns sep a b :
  joinable a = true → joinable b = true →
  returns (mustJoin sep (jsOr (jsOr a b) (JArr []))).
Proof. destruct a, b; try done; intros _ _; by eexists. Qed.

Lemma examplesForScheme_returns scheme :
  joinable (getField scheme "eligibility") = true →
  joinable (getField scheme "eligibilityHindi") = true →
  joinable (getField scheme "applicationProcedure") = true →
  returns (examplesForScheme scheme).
Proof.
  intros He Hh Hp. unfold examplesForScheme. apply mapM_returns_iff.
  unfold generateQueriesForScheme.
  repeat (apply Forall_cons; split); try apply Forall_nil.
  all: unfold generateExpectedResponse; cbn [q_category q_language bool_decide decide_rel].
  all: try (by eexists).
  - destruct (mustJoin_or_returns ", " _ _ He He) as [r Hr].
    unfold generateEligibilityResponse. change (localized "eligibility" "en") with "eligibility".
    rewrite Hr. by eexists.
  - destruct (mustJoin_or_returns ", " _ _ Hh He) as [r Hr].
    unfold generateEligibilityResponse.
    change (localized "eligibility" "hi") with "eligibilityHindi".
    rewrite Hr. by eexists.
  - destruct (mustJoin_or_returns ", " _ _ Hp Hp) as [r Hr].
    unfold generateProcedureResponse.
    change (localized "applicationProcedure" "en") with "applicationProcedure".
    rewrite Hr. by eexists.
Qed.

Lemma createSchemeText_returns scheme :
  joinable (getField scheme "eligibility") = true →
  joinable (getField scheme "documentsRequired") = true →
  joinable (getField scheme "applicationProcedure") = true →
  joinable (getField scheme "tags") = true →
  returns (createSchemeText scheme).
Proof.
  intros [e He]%(optJoin_returns ", ") [d Hd]%(optJoin_returns ", ")
         [p Hp]%(optJoin_returns ", ") [t Ht]%(optJoin_returns ", ").
  unfold createSchemeText. rewrite He, Hd, Hp, Ht. by eexists.
Qed.

Lemma regular_processable scheme : regular scheme → processable scheme.
Proof.
  intros (Hn & Hc & Ho & Hs & Hl). unfold listFields in Hl.
  rewrite !Forall_cons in Hl. unfold processable. tauto.
Qed.

Lemma regular_enhanced scheme e :
  regular scheme → enhanceScheme scheme = Return e →
  returns (examplesForScheme e) ∧ RunSpec.textOk e.
Proof.
  intros (_ & _ & _ & _ & Hl) (t & ks & p & _ & _ & _ & ->)%enhanceScheme_Return.
  unfold listFields in Hl. rewrite !Forall_cons in Hl.
  destruct Hl as (He & Hh & Hd & Hp & Ht & _).
  split.
  - apply examplesForScheme_returns; by rewrite !getField_insert_ne by done.
  - apply createSchemeText_returns; by rewrite !getField_insert_ne by done.
Qed.

Lemma regular_pipeline (schemes : list jsobj) :
  Forall regular schemes →
  ∃ processed examples,
    processTrainingData schemes = Return processed ∧
    allExamples processed = Return examples ∧
    length processed = length schemes ∧
    length examples = 8 * length schemes ∧
    Forall RunSpec.textOk processed.
Proof.
  intros Hreg.
  destruct (proj2 (processTrainingData_processable schemes)) as [processed Hp].
  { eapply Forall_impl; [exact Hreg|]. apply regular_processable. }
  pose proof (mapM_Return_inv _ _ _ Hp) as H2.
  assert (Forall (λ e, returns (examplesForScheme e) ∧ RunSpec.textOk e) processed) as Hall.
  { clear Hp. induction H2 as [|s e ss es He _ IH]; [constructor|].
    apply Forall_cons in Hreg as [Hs Hreg]. constructor; [|by apply IH].
    by apply (regular_enhanced s). }
  assert (returns (allExamples processed)) as [examples Hex].
  { unfold allExamples.
    destruct (proj2 (mapM_returns_iff examplesForScheme processed)) as [g ->].
    - eapply Forall_impl; [exact Hall|]. by intros e [? _].
    - by eexists. }
  exists processed, examples.
  pose proof (Forall2_length _ _ _ H2) as Hlen.
  split_and!; try done.
  - apply allExamples_shape in Hex as [-> _]. by rewrite Hlen.
  - eapply Forall_impl; [exact Hall|]. by intros e [_ ?].
Qed.

(** X6. Steps 2 to 4 accept regular records: processing returns, the
    training examples can be built, eight for each record, and the text of
    every processed record can be built, so that nothing in these steps
    throws on account of the data. *)
Theorem pipeline_accepts_regular (schemes : list jsobj) :
  Forall regular schemes →
  ∃ processed examples,
    processTrainingData schemes = Return processed ∧
    allExamples processed = Return examples ∧
    length processed = length schemes ∧
    length examples = 8 * length schemes ∧
    Forall RunSpec.textOk processed.
Proof. apply regular_pipeline. Qed.


Lemma cleanedScheme_field genId stamp i scheme name k f v :
  DataScraper.cleanedFields genId stamp i scheme name !! k = Some (f, v) →
  getField (DataScraper.cleanedScheme genId stamp i scheme name) f = v.
Proof.
  intros Hk. unfold getField.
  assert (DataScraper.cleanedScheme genId stamp i scheme name !! f = Some v) as ->; [|done].
  apply elem_of_list_to_map_1.
  - rewrite DedupFacts.cleanedFields_names. apply DedupFacts.cleanedFieldNames_NoDup.
  - by apply (list_elem_of_lookup_2 _ k).
Qed.

Lemma cleanedScheme_no_searchableText genId stamp i scheme name :
  getField (DataScraper.cleanedScheme genId stamp i scheme name) "searchableText" = JUndefined.
Proof.
  unfold getField.
  assert (DataScraper.cleanedScheme genId stamp i scheme name !! "searchableText" = None)
    as ->; [|done].
  apply not_elem_of_list_to_map_1. rewrite DedupFacts.cleanedFields_names.
  apply (bool_decide_unpack _). by vm_compute.
Qed.

Lemma arrayOrEmpty_joinable v : joinable (arrayOrEmpty v) = true.
Proof. by destruct v. Qed.

Lemma cleanedScheme_regular genId stamp i s name :
  ¬ DedupSpec.badRecord s →
  let c := DataScraper.cleanedScheme genId stamp i s name in
  textual (getField c "objective") = true →
  regular c ∧ getField c "searchableText" = JUndefined.
Proof.
  intros Hs c Ho.
  pose proof (cleanedScheme_no_searchableText genId stamp i s name) as Hst.
  pose proof (λ k f v, cleanedScheme_field genId stamp i s name k f v) as Hf.
  pose proof (Hf 1 "name" _ eq_refl) as Hname.
  pose proof (Hf 4 "category" _ eq_refl) as Hcat.
  pose proof (Hf 10 "eligibility" _ eq_refl) as Helig.
  pose proof (Hf 11 "eligibilityHindi" _ eq_refl) as HeligH.
  pose proof (Hf 13 "documentsRequired" _ eq_refl) as Hdocs.
  pose proof (Hf 16 "applicationProcedure" _ eq_refl) as Hproc.
  pose proof (Hf 31 "tags" _ eq_refl) as Htags.
  clear Hf. fold c in Hst, Hname, Hcat, Helig, HeligH, Hdocs, Hproc, Htags.
  clearbody c. split; [|done].
  unfold regular, listFields. rewrite !Forall_cons.
  rewrite Hst, Hname, Hcat, Helig, HeligH, Hdocs, Hproc, Htags.
  clear -Hs Ho. unfold DataScraper.textOr, DataScraper.listOf, DedupSpec.badRecord in *.
  split_and!; try done; try apply arrayOrEmpty_joinable.
  destruct (getField s "category"); try (exfalso; apply Hs; by right).
  unfold jsOr. by destruct (truthy _).
Qed.

Lemma cleaned_from lowerOf trimOf genId stamp (raw data : list jsobj) :
  DataScraper.cleanAndDeduplicateData lowerOf trimOf genId stamp raw = Return data →
  Forall (λ c, ∃ i s, s ∈ raw ∧ ¬ DedupSpec.badRecord s ∧
                      c = DataScraper.cleanedScheme genId stamp i s
                            (trimOf (DedupSpec.nameOf s))) data.
Proof.
  intros Hclean.
  assert (¬ Exists DedupSpec.badRecord raw) as Hgood.
  { intros Hbad. apply (DedupFacts.cleanLoop_throws_iff lowerOf trimOf genId stamp raw 0 ∅ []) in Hbad
      as [e He]. unfold DataScraper.cleanAndDeduplicateData in Hclean. congruence. }
  apply Forall_Exists_neg in Hgood.
  unfold DataScraper.cleanAndDeduplicateData in Hclean.
  apply DedupFacts.cleanLoop_kept in Hclean. simpl in Hclean. subst data.
  apply Forall_fmap, Forall_forall. intros [i s] Hin.
  apply DedupFacts.keptFrom_spec in Hin as (k & _ & Hk & _).
  apply list_elem_of_lookup_2 in Hk.
  rewrite Forall_forall in Hgood. exists i, s. split_and!; [done|by apply Hgood|done].
Qed.

Lemma cleaned_regular_data lowerOf trimOf genId stamp (raw data : list jsobj) :
  DataScraper.cleanAndDeduplicateData lowerOf trimOf genId stamp raw = Return data →
  Forall (λ c, textual (getField c "objective") = true) data →
  Forall (λ c, regular c ∧ getField c "searchableText" = JUndefined) data.
Proof.
  intros Hfrom%cleaned_from Hobj.
  rewrite Forall_forall in Hfrom, Hobj. apply Forall_forall. intros c Hc.
  destruct (Hfrom c Hc) as (i & s & _ & Hs & ->).
  apply cleanedScheme_regular; [done|]. by apply Hobj.
Qed.

Lemma cleaned_regular lowerOf trimOf genId stamp (raw data : list jsobj) :
  DataScraper.cleanAndDeduplicateData lowerOf trimOf genId stamp raw = Return data →
  Forall (λ s, textual (getField s "objective") = true) raw →
  Forall (λ s, regular s ∧ getField s "searchableText" = JUndefined) data.
Proof.
  intros Hclean Hobj. apply (cleaned_regular_data lowerOf trimOf genId stamp raw); [done|].
  apply cleaned_from in Hclean.
  rewrite Forall_forall in Hclean, Hobj. apply Forall_forall. intros c Hc.
  destruct (Hclean c Hc) as (i & s & Hin & Hs & ->).
  rewrite (cleanedScheme_field genId stamp i s _ 7 "objective" _ eq_refl).
  pose proof (Hobj s Hin) as Ho. unfold DataScraper.textOr.
  destruct (getField s "objective"); try done. unfold jsOr. by destruct (truthy _).
Qed.

(** X7. Cleaned data whose objectives were strings (or absent) pass through
    steps 2 to 4 of the pipeline without an exception, and come out with
    priority 1 or 3. *)
Theorem cleaned_data_pass_the_pipeline lowerOf trimOf genId stamp (raw data : list jsobj) :
  DataScraper.cleanAndDeduplicateData lowerOf trimOf genId stamp raw = Return data →
  Forall (λ s, textual (getField s "objective") = true) raw →
  ∃ processed examples,
    processTrainingData data = Return processed ∧
    allExamples processed = Return examples ∧
    length processed = length data ∧
    length examples = 8 * length data ∧
    Forall RunSpec.textOk processed ∧
    Forall (λ e, getField e "priority" = JNum 1 ∨ getField e "priority" = JNum 3) processed.
Proof.
  intros Hclean Hobj. pose proof (cleaned_regular _ _ _ _ _ _ Hclean Hobj) as Hall.
  destruct (regular_pipeline data) as (processed & examples & Hp & Hex & Hl1 & Hl2 & Hok).
  { eapply Forall_impl; [exact Hall|]. by intros s [? _]. }
  exists processed, examples. split_and!; try done.
  assert (Forall (λ s, getField s "searchableText" = JUndefined) data) as Hno.
  { eapply Forall_impl; [exact Hall|]. by intros s [_ ?]. }
  pose proof (processTrainingData_without_text _ _ Hno Hp) as H2.
  clear -H2. induction H2 as [|s e ss es [Hpr _] _ IH]; constructor; [|done].
  rewrite Hpr. destruct (highPriorityName s); [by right|by left].
Qed.

End ProcessFacts.

(** ** The processing facts at sample inputs *)

Module ProcessSamples.
Import VectorDB RAGTrainer ProcessSpec ProcessFacts RunSpec DedupSpec.

Lemma threeSchemes_regular : Forall regular threeSchemes.
Proof.
  repeat constructor; vm_compute; reflexivity.
Qed.

(** The theorem at three records. *)
Lemma processTrainingData_extends_witness :
  ∃ out,
    Forall2 (λ scheme e,
        (∀ f, f ∉ enhancedFields → e !! f = scheme !! f) ∧
        isString (getField e "searchableText") = true ∧
        isArray (getField e "keywords") = true ∧
        ∃ c p, getField e "complexity" = JNum c ∧ getField e "priority" = JNum p ∧
               (1 ≤ c ≤ 4)%Z ∧ (1 ≤ p ≤ 4)%Z)
      threeSchemes out.
Proof.
  destruct (Return_checked (λ _, true) (processTrainingData threeSchemes))
    as (out & Hrun & _); [vm_cast_no_check (eq_refl true)|].
  exists out. exact (processTrainingData_extends threeSchemes out Hrun).
Defined.

(** The theorem at the first of the three records. *)
Lemma extractKeywords_spec_witness :
  let scheme := scheme "s1" "PM Kisan" "Agriculture" "income support" in
  ∃ ks,
    NoDup ks ∧ head ks = Some (lower (textOf (getField scheme "category"))) ∧
    ∀ k, k ∈ ks ↔
      k = lower (textOf (getField scheme "category")) ∨
      (k ∈ words (textOf (getField scheme "name")) ∧ 3 < String.length k) ∨
      (k ∈ words (textOf (getField scheme "objective")) ∧ 4 < String.length k ∧
       isStopWord k = false) ∨
      (k ∈ commonKeywords ∧ optIncludes (getField scheme "searchableText") k = Return true).
Proof.
  exists ["agriculture"; "kisan"; "income"; "support"].
  apply (extractKeywords_spec (scheme "s1" "PM Kisan" "Agriculture" "income support")).
  - split_and!; vm_compute; reflexivity.
  - vm_compute. reflexivity.
Defined.

(** The theorem at three records that carry no [searchableText]. *)
Lemma processTrainingData_ignores_searchableText_witness :
  ∃ out,
    Forall2 (λ scheme e,
        getField e "priority" = JNum (if highPriorityName scheme then 3 else 1) ∧
        ∃ ks, getField e "keywords" = JArr (JStr <$> ks) ∧
              ∀ k, k ∈ ks →
                k = lower (textOf (getField scheme "category")) ∨
                k ∈ words (textOf (getField scheme "name")) ∨
                k ∈ words (textOf (getField scheme "objective")))
      threeSchemes out.
Proof.
  destruct (Return_checked (λ _, true) (processTrainingData threeSchemes))
    as (out & Hrun & _); [vm_cast_no_check (eq_refl true)|].
  exists out. apply (processTrainingData_ignores_searchableText threeSchemes out); [| |exact Hrun].
  - repeat constructor; vm_compute; reflexivity.
  - repeat constructor; vm_compute; reflexivity.
Defined.

(** The theorem at three records. *)
Lemma allExamples_eight_per_scheme_witness :
  ∃ examples,
    length examples = 8 * length threeSchemes ∧
    ex_expectedScheme <$> examples = threeSchemes ≫= (λ s, replicate 8 (getField s "id")) ∧
    ex_language <$> examples =
      threeSchemes ≫= (λ _, ["en"; "hi"; "ta"; "en"; "hi"; "en"; "en"; "en"]).
Proof.
  destruct (Return_checked (λ _, true) (allExamples threeSchemes))
    as (examples & Hrun & _); [vm_cast_no_check (eq_refl true)|].
  exists examples. exact (allExamples_eight_per_scheme threeSchemes examples Hrun).
Defined.

(** The theorem at three records. *)
Lemma pipeline_accepts_regular_witness :
  ∃ processed examples,
    processTrainingData threeSchemes = Return processed ∧
    allExamples processed = Return examples ∧
    length processed = length threeSchemes ∧
    length examples = 8 * length threeSchemes ∧
    Forall RunSpec.textOk processed.
Proof. exact (pipeline_accepts_regular threeSchemes threeSchemes_regular). Defined.

(** The theorem at three raw records: two with the same key, one with a
    blank name. *)
Lemma cleaned_data_pass_the_pipeline_witness :
  ∃ processed examples,
    processTrainingData sampleCleaned = Return processed ∧
    allExamples processed = Return examples ∧
    length processed = length sampleCleaned ∧
    length examples = 8 * length sampleCleaned ∧
    Forall RunSpec.textOk processed ∧
    Forall (λ e, getField e "priority" = JNum 1 ∨ getField e "priority" = JNum 3) processed.
Proof.
  apply (cleaned_data_pass_the_pipeline lower trimString sampleGenId sampleStamp
           sampleSchemes sampleCleaned).
  - vm_cast_no_check (eq_refl (Return (A:=list jsobj) sampleCleaned)).
  - repeat constructor; vm_compute; reflexivity.
Defined.

End ProcessSamples.

(** ** What a call may change *)

Module FrameFacts.
Import VectorDB Acquisition RAGTrainer FrameSpec.

Section Frame.
Variable R : World → World → Prop.
Variable okPath : string → Prop.
Hypothesis R_refl : ∀ w, R w w.
Hypothesis R_trans : ∀ w1 w2 w3, R w1 w2 → R w2 w3 → R w1 w3.
Hypothesis R_bump : ∀ n w, R w (bump n w).
Hypothesis R_logAdd : ∀ call w, R w (logAdd call w).
Hypothesis R_pushVector : ∀ entry v w, R w (pushVector entry v w).
Hypothesis R_putFile : ∀ path content w, okPath path → R w (putFile path content w).

Lemma within_ret {A} (a : A) : within R (mret a).
Proof. intros w. apply R_refl. Qed.

Lemma within_throw {A} e : within R (@throw A e).
Proof. intros w. apply R_refl. Qed.

Lemma within_hang {A} : within R (@hang A).
Proof. by intros w. Qed.

Lemma within_liftO {A} (o : outcome A) : within R (liftO o).
Proof. intros w. unfold liftO. destruct o; apply R_refl. Qed.

Lemma within_getWorld : within R getWorld.
Proof. intros w. apply R_refl. Qed.

Lemma within_bump n : within R (modify (bump n)).
Proof. intros w. apply R_bump. Qed.

Lemma within_logAdd call : within R (modify (logAdd call)).
Proof. intros w. apply R_logAdd. Qed.

Lemma within_pushVector entry v : within R (modify (pushVector entry v)).
Proof. intros w. apply R_pushVector. Qed.

Lemma within_ask {A} (f : nat → outcome A) : within R (ask f).
Proof. intros w. unfold ask. destruct (f (tick w)); apply R_bump. Qed.

Lemma within_bind {A B} (m : M A) (f : A → M B) :
  within R m → (∀ a, within R (f a)) → within R (m ≫= f).
Proof.
  intros Hm Hf w. unfold mbind, M_bind. specialize (Hm w).
  destruct (m w) as [a w1|e w1|]; [|done..].
  specialize (Hf a w1). destruct (f a w1); eauto.
Qed.

Lemma within_tryCatch {A} (m : M A) (h : error → M A) :
  within R m → (∀ e, within R (h e)) → within R (tryCatch m h).
Proof.
  intros Hm Hh w. unfold tryCatch. specialize (Hm w).
  destruct (m w) as [a w1|e w1|]; [done| |done].
  specialize (Hh e w1). destruct (h e w1); eauto.
Qed.

Lemma within_forEachM {A} (body : A → M unit) xs :
  (∀ x, within R (body x)) → within R (forEachM body xs).
Proof.
  intros Hbody. induction xs as [|x r IH]; simpl; [apply within_ret|].
  apply within_bind; [apply Hbody | by intros].
Qed.

Lemma within_foldlM {A B} (f : A → B → M A) xs : ∀ a,
  (∀ a x, within R (f a x)) → within R (foldlM f a xs).
Proof.
  induction xs as [|x r IH]; intros a Hf; simpl; [apply within_ret|].
  apply within_bind; [apply Hf | intros; by apply IH].
Qed.

Variable env : Env.

Lemma within_writeFile path content : okPath path → within R (writeFile env path content).
Proof.
  intros Hok w. unfold writeFile, mbind, M_bind, ask, modify.
  destruct (fsWrite env (tick w) path); [|apply R_bump].
  eapply R_trans; [apply (R_bump 1)|]. by apply R_putFile.
Qed.

Ltac within_step :=
  first
    [ apply within_ret | apply within_throw | apply within_hang | apply within_liftO
    | apply within_getWorld | apply within_bump | apply within_logAdd
    | apply within_pushVector | apply within_ask
    | apply within_bind; [|intros]
    | apply within_tryCatch; [|intros]
    | apply within_forEachM; intros
    | apply within_foldlM; intros ].

Lemma within_generateEmbedding text : within R (generateEmbedding env text).
Proof. unfold generateEmbedding. repeat within_step. Qed.

Lemma within_collectionAdd call : within R (collectionAdd env call).
Proof. unfold collectionAdd. repeat within_step. Qed.

Lemma within_searchSimilarSchemes query limit :
  within R (searchSimilarSchemes env query limit).
Proof.
  unfold searchSimilarSchemes, searchBody, collectionQuery.
  apply within_tryCatch; [|intros; apply within_ret].
  apply within_bind; [apply within_generateEmbedding|intros q].
  apply within_bind; [apply within_getWorld|intros w0].
  destruct (collection w0); repeat within_step.
Qed.

Lemma within_addSchemeToVectorDB scheme : within R (addSchemeToVectorDB env scheme).
Proof.
  unfold addSchemeToVectorDB, addSchemeBody.
  apply within_tryCatch; [|intros; apply within_ret].
  apply within_bind; [apply within_liftO|intros text].
  apply within_bind; [apply within_generateEmbedding|intros v].
  apply within_bind; [apply within_liftO|intros md].
  apply within_bind; [apply within_getWorld|intros w0].
  destruct (collection w0); [apply within_collectionAdd|apply within_pushVector].
Qed.

Lemma within_embedBatch batch : ∀ acc, within R (embedBatch env batch acc).
Proof.
  induction batch as [|scheme rest IH]; intros acc; simpl; [apply within_ret|].
  apply within_bind; [apply within_liftO|intros text].
  apply within_bind; [apply within_generateEmbedding|intros v].
  apply within_bind; [apply within_liftO|intros md]. apply IH.
Qed.

Lemma within_chunkLoop schemes batchSize fuel : ∀ start,
  within R (chunkLoop env fuel schemes batchSize start).
Proof.
  induction fuel as [|fuel IH]; intros start; simpl.
  - destruct (_ <? _)%Z; [apply within_hang|apply within_ret].
  - destruct (_ <? _)%Z; [|apply within_ret].
    apply within_bind; [apply within_embedBatch|intros call].
    apply within_bind; [apply within_collectionAdd|intros _]. apply IH.
Qed.

Lemma within_addSchemesToVectorDB schemes batchSize :
  within R (addSchemesToVectorDB env schemes batchSize).
Proof.
  unfold addSchemesToVectorDB.
  apply within_tryCatch; [|intros; apply within_throw].
  destruct schemes as [|s r]; [apply within_ret|].
  apply within_bind; [apply within_getWorld|intros w0].
  destruct (collection w0); [apply within_chunkLoop|].
  apply within_forEachM. intros scheme.
  apply within_bind; [apply within_liftO|intros text].
  apply within_bind; [apply within_generateEmbedding|intros v].
  apply within_bind; [apply within_liftO|intros md]. apply within_pushVector.
Qed.

Lemma within_trainVectorDatabase schemes : within R (trainVectorDatabase env schemes).
Proof.
  unfold trainVectorDatabase.
  apply within_tryCatch; [apply within_addSchemesToVectorDB|intros _].
  apply within_forEachM. intros scheme.
  apply within_tryCatch; [apply within_addSchemeToVectorDB|intros; apply within_ret].
Qed.

Lemma within_fetchMySchemeData : within R (fetchMySchemeData env).
Proof.
  unfold fetchMySchemeData, scrapeMySchemeWebsite.
  apply within_tryCatch; [|intros; apply within_ret].
  apply within_bind.
  - apply within_tryCatch; [|intros; apply within_ret].
    apply within_bind; [apply within_ask|intros [schemes|]]; repeat within_step.
  - intros [schemes|]; repeat within_step.
Qed.

Lemma within_validateTraining : within R (validateTraining env).
Proof.
  unfold validateTraining, msNow.
  apply within_bind; [apply within_ask|intros t0].
  apply within_bind.
  - apply within_foldlM. intros acc query. unfold validateQuery.
    apply within_tryCatch; [|intros; apply within_ret].
    apply within_bind; [apply within_searchSimilarSchemes|intros [|h r]]; apply within_ret.
  - intros acc. repeat within_step.
Qed.

Lemma within_localOverride scraped : within R (localOverride env scraped).
Proof.
  unfold localOverride. destruct (useLocalData env); [|apply within_ret].
  apply within_bind; [apply within_getWorld|intros w0].
  apply within_bind; [apply within_bump|intros _].
  destruct (localData env (tick w0)) as [[|s r]|]; apply within_ret.
Qed.

Hypothesis okFiles : Forall okPath trainingFiles.

Lemma okPath_scraped : okPath scrapedSchemesFile.
Proof. by apply Forall_cons in okFiles as [? _]. Qed.
Lemma okPath_metadata : okPath scrapingMetadataFile.
Proof. by apply Forall_cons in okFiles as [_ [? _]%Forall_cons]. Qed.
Lemma okPath_examples : okPath trainingExamplesFile.
Proof. by apply Forall_cons in okFiles as [_ [_ [? _]%Forall_cons]%Forall_cons]. Qed.
Lemma okPath_results : okPath trainingResultsFile.
Proof.
  by apply Forall_cons in okFiles as [_ [_ [_ [? _]%Forall_cons]%Forall_cons]%Forall_cons].
Qed.

Lemma within_saveDataToFile schemes : within R (saveDataToFile env schemes).
Proof.
  unfold saveDataToFile, isoNow.
  apply within_tryCatch; [|intros; apply within_throw].
  apply within_bind; [apply within_ask|intros _].
  apply within_bind; [apply within_writeFile, okPath_scraped|intros _].
  apply within_bind; [apply within_ask|intros stamp].
  apply within_writeFile, okPath_metadata.
Qed.

Lemma within_fetchAllSchemeData : within R (fetchAllSchemeData env).
Proof.
  unfold fetchAllSchemeData, fetchNSPData, fetchPMKisanData, isoNow.
  apply within_tryCatch; [|intros; apply within_throw].
  apply within_bind; [apply within_fetchMySchemeData|intros a].
  apply within_bind; [repeat within_step|intros b].
  apply within_bind; [repeat within_step|intros c].
  apply within_bind; [apply within_getWorld|intros w0].
  apply within_bind; [apply within_liftO|intros cleaned].
  apply within_bind; [apply within_bump|intros _].
  apply within_bind; [apply within_saveDataToFile|intros _]. apply within_ret.
Qed.

Lemma within_generateTrainingExamples schemes :
  within R (generateTrainingExamples env schemes).
Proof.
  unfold generateTrainingExamples, saveTrainingExamples.
  apply within_bind; [apply within_liftO|intros ex].
  apply within_bind; [|intros; apply within_ret].
  apply within_tryCatch; [apply within_writeFile, okPath_examples|intros; apply within_ret].
Qed.

Lemma within_saveTrainingResults v : within R (saveTrainingResults env v).
Proof.
  unfold saveTrainingResults, isoNow.
  apply within_tryCatch; [|intros; apply within_ret].
  apply within_bind; [apply within_ask|intros stamp].
  apply within_writeFile, okPath_results.
Qed.

Lemma within_trainRAGModel : within R (trainRAGModel env).
Proof.
  unfold trainRAGModel, stagesBeforeSave.
  apply within_tryCatch; [|intros; apply within_throw].
  apply within_bind.
  - apply within_bind; [apply within_fetchAllSchemeData|intros d].
    apply within_bind; [apply within_localOverride|intros d'].
    apply within_bind; [apply within_liftO|intros p].
    apply within_bind; [apply within_generateTrainingExamples|intros ex].
    apply within_bind; [apply within_trainVectorDatabase|intros _].
    apply within_bind; [apply within_validateTraining|intros v]. apply within_ret.
  - intros [[n m] v].
    apply within_bind; [apply within_saveTrainingResults|intros _]. apply within_ret.
Qed.

Lemma within_retrainModel : within R (retrainModel env).
Proof.
  unfold retrainModel, loadScrapedData.
  apply within_tryCatch; [|intros; apply within_throw].
  apply within_bind; [apply within_fetchAllSchemeData|intros fresh].
  apply within_bind.
  - apply within_bind; [apply within_getWorld|intros w0].
    destruct (files w0 !! scrapedSchemesFile) as [[]|]; apply within_ret.
  - intros existing. destruct (hasDataChanged fresh existing);
      [apply within_trainRAGModel|apply within_ret].
Qed.

End Frame.

(** *** The index only grows *)

Lemma extends_refl w : extends w w.
Proof.
  split_and!; [done| |by exists []; rewrite app_nil_r].
  exists [], []. by rewrite !app_nil_r.
Qed.

Lemma extends_trans w1 w2 w3 : extends w1 w2 → extends w2 w3 → extends w1 w3.
Proof.
  intros (Hc1 & (v1 & e1 & Hv1 & He1 & Hl1) & (c1 & Ha1))
         (Hc2 & (v2 & e2 & Hv2 & He2 & Hl2) & (c2 & Ha2)).
  split_and!; [congruence| |].
  - exists (v1 ++ v2), (e1 ++ e2).
    rewrite Hv2, Hv1, He2, He1, <- !app_assoc, !length_app. split_and!; try done. lia.
  - exists (c1 ++ c2). by rewrite Ha2, Ha1, <- app_assoc.
Qed.

Lemma extends_bump n w : extends w (bump n w).
Proof.
  split_and!; [done| |by exists []; simpl; rewrite app_nil_r].
  exists [], []. simpl. by rewrite !app_nil_r.
Qed.

Lemma extends_logAdd call w : extends w (logAdd call w).
Proof.
  split_and!; [done| |by exists [call]]. exists [], []. simpl. by rewrite !app_nil_r.
Qed.

Lemma extends_pushVector entry v w : extends w (pushVector entry v w).
Proof.
  split_and!; [done| |by exists []; simpl; rewrite app_nil_r]. by exists [entry], [v].
Qed.

Lemma extends_putFile path content w : extends w (putFile path content w).
Proof.
  split_and!; [done| |by exists []; simpl; rewrite app_nil_r].
  exists [], []. simpl. by rewrite !app_nil_r.
Qed.

Lemma sameOtherFiles_refl w : sameOtherFiles w w.
Proof. by intros p. Qed.

Lemma sameOtherFiles_trans w1 w2 w3 :
  sameOtherFiles w1 w2 → sameOtherFiles w2 w3 → sameOtherFiles w1 w3.
Proof. intros H1 H2 p Hp. by rewrite H2, H1. Qed.

Lemma sameOtherFiles_putFile path content w :
  path ∈ trainingFiles → sameOtherFiles w (putFile path content w).
Proof.
  intros Hin p Hp. simpl. apply lookup_insert_ne. intros ->. done.
Qed.

Lemma extends_fetchAllSchemeData env : within extends (fetchAllSchemeData env).
Proof.
  apply (within_fetchAllSchemeData extends (λ _, True)).
  - apply extends_refl.
  - apply extends_trans.
  - apply extends_bump.
  - intros. apply extends_putFile.
  - by apply Forall_forall.
Qed.

Lemma extends_generateTrainingExamples env schemes :
  within extends (generateTrainingExamples env schemes).
Proof.
  apply (within_generateTrainingExamples extends (λ _, True)).
  - apply extends_refl.
  - apply extends_trans.
  - apply extends_bump.
  - intros. apply extends_putFile.
  - by apply Forall_forall.
Qed.

Lemma extends_addSchemesToVectorDB env schemes batchSize :
  within extends (addSchemesToVectorDB env schemes batchSize).
Proof.
  apply within_addSchemesToVectorDB.
  - apply extends_refl.
  - apply extends_trans.
  - apply extends_bump.
  - apply extends_logAdd.
  - apply extends_pushVector.
Qed.

(** X8. The index is append-only.  Whatever the services answer and however
    the call ends, training, retraining, searching and adding leave the
    backend as it was, the entries the index held where they were, with as
    many entries added as embeddings, and the earlier [collection.add]
    calls as they were. *)
Theorem index_append_only (env : Env) :
  within extends (trainRAGModel env) ∧
  within extends (retrainModel env) ∧
  (∀ schemes, within extends (trainVectorDatabase env schemes)) ∧
  (∀ schemes batchSize, within extends (addSchemesToVectorDB env schemes batchSize)) ∧
  (∀ scheme, within extends (addSchemeToVectorDB env scheme)) ∧
  (∀ query limit, within extends (searchSimilarSchemes env query limit)).
Proof.
  pose proof extends_refl. pose proof extends_trans. pose proof extends_bump.
  pose proof extends_logAdd. pose proof extends_pushVector.
  assert (∀ path content w, True → extends w (putFile path content w)) as Hput.
  { intros. apply extends_putFile. }
  assert (Forall (λ _ : string, True) trainingFiles) as Hok.
  { by apply Forall_forall. }
  split_and!; intros.
  - by apply (within_trainRAGModel extends (λ _, True)).
  - by apply (within_retrainModel extends (λ _, True)).
  - by apply within_trainVectorDatabase.
  - by apply within_addSchemesToVectorDB.
  - by apply within_addSchemeToVectorDB.
  - by apply within_searchSimilarSchemes.
Qed.

(** X9. Training and retraining write into four files of the data
    directory and no other; searching and adding to the index write no
    file at all. *)
Theorem only_training_files_written (env : Env) :
  within sameOtherFiles (trainRAGModel env) ∧
  within sameOtherFiles (retrainModel env) ∧
  within sameOtherFiles (fetchAllSchemeData env) ∧
  (∀ schemes, within sameFiles (trainVectorDatabase env schemes)) ∧
  (∀ scheme, within sameFiles (addSchemeToVectorDB env scheme)) ∧
  (∀ query limit, within sameFiles (searchSimilarSchemes env query limit)).
Proof.
  pose proof sameOtherFiles_refl. pose proof sameOtherFiles_trans.
  pose proof sameOtherFiles_putFile as Hput.
  assert (Forall (λ p, p ∈ trainingFiles) trainingFiles) as Hok.
  { by apply Forall_forall. }
  assert (∀ w1 w2 w3, sameFiles w1 w2 → sameFiles w2 w3 → sameFiles w1 w3) as Htrans.
  { unfold sameFiles. congruence. }
  split_and!; intros.
  - by apply (within_trainRAGModel sameOtherFiles (λ p, p ∈ trainingFiles)).
  - by apply (within_retrainModel sameOtherFiles (λ p, p ∈ trainingFiles)).
  - by apply (within_fetchAllSchemeData sameOtherFiles (λ p, p ∈ trainingFiles)).
  - by apply within_trainVectorDatabase.
  - by apply within_addSchemeToVectorDB.
  - by apply within_searchSimilarSchemes.
Qed.

Lemma readOnly_trans w1 w2 w3 : readOnly w1 w2 → readOnly w2 w3 → readOnly w1 w3.
Proof. unfold readOnly. intros (?&?&?&?&?) (?&?&?&?&?). split_and!; congruence. Qed.

Lemma readOnly_search env query limit : within readOnly (searchSimilarSchemes env query limit).
Proof. apply within_searchSimilarSchemes; [done|apply readOnly_trans|done]. Qed.

Lemma readOnly_validateTraining env : within readOnly (validateTraining env).
Proof. apply within_validateTraining; [done|apply readOnly_trans|done]. Qed.

(** X10. Searching and validating are read-only: whatever the services
    answer, [searchSimilarSchemes] and [validateTraining] leave the
    backend, the index, the issued calls and the files as they were. *)
Theorem search_is_read_only (env : Env) :
  (∀ query limit, within readOnly (searchSimilarSchemes env query limit)) ∧
  within readOnly (validateTraining env).
Proof. split; [apply readOnly_search|apply readOnly_validateTraining]. Qed.

End FrameFacts.

(** ** The in-memory index *)

Module IndexFacts.
Import VectorDB RAGTrainer IndexSpec.

Lemma hashEmbedding_length dim text : length (hashEmbedding dim text) = dim.
Proof.
  unfold hashEmbedding.
  generalize (splitWhitespace "" false (lower text)). intros ws.
  assert (∀ e : vec, length e = dim →
            length (fold_left (λ embedding word,
                      alter (λ x, PrimFloat.add x 1%float)
                            (Z.to_nat (Z.abs (wordHash word) mod Z.of_nat dim)) embedding)
                    ws e) = dim) as H.
  { induction ws as [|w ws IH]; intros e He; cbn [fold_left]; [done|].
    apply IH. unfold vec in *. by rewrite length_alter. }
  apply H, length_replicate.
Qed.

Lemma cosineSimilarity_same_length {T} `{Arith T} (a b : list T) :
  length a = length b → returns (cosineSimilarity a b).
Proof.
  intros Hl. unfold cosineSimilarity. rewrite Hl, Nat.eqb_refl. simpl.
  destruct (fold_left _ _ _) as [[d na] nb].
  destruct (_ || _); by eexists.
Qed.

Lemma cosineSimilarity_other_length {T} `{Arith T} (a b : list T) :
  length a ≠ length b →
  cosineSimilarity a b = Throw (Error "Vectors must have the same length").
Proof.
  intros Hl. unfold cosineSimilarity.
  by destruct (Nat.eqb_spec (length a) (length b)).
Qed.

(** X11. The hash embeddings have a fixed dimension: 1536 for the fallback of
    [vectorDB.js], 384 for the default provider; two embeddings of the same
    kind can always be compared, and comparing one of each kind throws. *)
Theorem hash_embeddings_dimension (s t : string) :
  ∃ a b a' b',
    generateSimpleEmbedding (JStr s) = Return a ∧ length a = 1536 ∧
    generateSimpleEmbedding (JStr t) = Return b ∧
    simpleLocalLLM (JStr s) = Return a' ∧ length a' = 384 ∧
    simpleLocalLLM (JStr t) = Return b' ∧
    returns (cosineSimilarity a b) ∧ returns (cosineSimilarity a' b') ∧
    cosineSimilarity a' b = Throw (Error "Vectors must have the same length").
Proof.
  exists (hashEmbedding 1536 (lower s)), (hashEmbedding 1536 (lower t)),
         (hashEmbedding 384 (lower s)), (hashEmbedding 384 (lower t)).
  split_and!; try done; try apply hashEmbedding_length.
  - apply cosineSimilarity_same_length. by rewrite !hashEmbedding_length.
  - apply cosineSimilarity_same_length. by rewrite !hashEmbedding_length.
  - apply cosineSimilarity_other_length. by rewrite !hashEmbedding_length.
Qed.


Lemma mapM_throws {A B} (f : A → outcome B) (l : list A) :
  Exists (λ a, throws (f a)) l → throws (mapM f l).
Proof.
  induction 1 as [a l [e He]|a l _ IH]; simpl.
  - rewrite He. by exists e.
  - destruct (f a); [|by eexists]. simpl. destruct IH as [e ->]. by exists e.
Qed.









Section Search.
Variable w : World.
Variable q : vec.

Abbreviation scored :=
  (mapM (λ p : nat * vec,
           similarity ← cosineSimilarity q p.2;
           mret (p.1, similarity))
        (imap (λ index embedding, (index, embedding)) (inMemoryEmbeddings w))).

Lemma scored_throws :
  Exists (λ e, length e ≠ length q) (inMemoryEmbeddings w) → throws scored.
Proof.
  intros Hex. apply mapM_throws.
  apply Exists_exists in Hex as (e & Hin & Hlen).
  apply list_elem_of_lookup_1 in Hin as [i Hi].
  apply Exists_exists. exists (i, e). split.
  - apply list_elem_of_lookup_2 with i. rewrite list_lookup_imap.
    unfold vec. by rewrite Hi.
  - simpl. rewrite cosineSimilarity_other_length by done. by eexists.
Qed.


Lemma searchInMemoryVectors_throws limit :
  Exists (λ e, length e ≠ length q) (inMemoryEmbeddings w) →
  throws (searchInMemoryVectors w q limit).
Proof.
  intros [e He]%scored_throws. unfold searchInMemoryVectors. rewrite He. by exists e.
Qed.


End Search.


Section WithEnv.
Variable env : Env.

Lemma searchSimilarSchemes_in_memory query limit w q w1 :
  collection w = false → generateEmbedding env query w = Ret q w1 →
  searchSimilarSchemes env query limit w =
    match searchInMemoryVectors w q limit with
    | Return hits => Ret hits w1
    | Throw _ => Ret [] w1
    end.
Proof.
  intros Hc Hq. unfold searchSimilarSchemes, tryCatch, searchBody.
  rewrite (bind_Ret _ _ _ _ _ Hq), getWorld_bind.
  destruct (SearchFacts.generateEmbedding_cases env query w) as [[v Hv]|[e He]]; [|congruence].
  assert (w1 = bump 1 w) as -> by congruence.
  change (collection (bump 1 w)) with (collection w). rewrite Hc.
  change (searchInMemoryVectors (bump 1 w) q limit) with (searchInMemoryVectors w q limit).
  unfold liftO. by destruct (searchInMemoryVectors w q limit).
Qed.


(** X13. One vector of another dimension silences the in-memory search: when
    some vector of the index has not the dimension of the query vector, the
    search returns no hit at all, whatever else the index holds. *)
Theorem odd_vector_silences_search (query : jsval) (limit : Z) (w : World) (q : vec) (w1 : World) :
  collection w = false → generateEmbedding env query w = Ret q w1 →
  Exists (λ e, length e ≠ length q) (inMemoryEmbeddings w) →
  searchSimilarSchemes env query limit w = Ret [] w1.
Proof.
  intros Hc Hq Hex.
  rewrite (searchSimilarSchemes_in_memory _ _ _ _ _ Hc Hq).
  by destruct (searchInMemoryVectors_throws w q limit Hex) as [e ->].
Qed.


Lemma canEmbed_textOk scheme : canEmbed scheme = true ↔ RunSpec.textOk scheme.
Proof.
  unfold canEmbed, RunSpec.textOk, returns.
  destruct (createSchemeText scheme); split; try done; eauto. by intros [? ?].
Qed.

(** The body of the in-memory loop of [addSchemesToVectorDB]. *)
Abbreviation memoryAdd := (λ scheme : jsobj,
  schemeText ← liftO (createSchemeText scheme);
  embedding ← generateEmbedding env (JStr schemeText);
  metadata ← liftO (schemeMetadata scheme);
  modify (pushVector (mkVectorEntry (getField scheme "id") schemeText metadata) embedding)).

Lemma appended_nil w : appended [] w w.
Proof. unfold appended. rewrite app_nil_r. simpl. split_and!; first [done|lia]. Qed.

Lemma appended_app ids1 ids2 w1 w2 w3 :
  appended ids1 w1 w2 → appended ids2 w2 w3 → appended (ids1 ++ ids2) w1 w3.
Proof.
  unfold appended. intros (?&?&?&Hi1&L1) (?&?&?&Hi2&L2).
  rewrite Hi2, Hi1, L2, L1, length_app, <- app_assoc. split_and!; first [congruence|lia].
Qed.

Lemma memoryAdd_ok scheme w :
  RunSpec.textOk scheme →
  ∃ w', memoryAdd scheme w = Ret tt w' ∧ appended [getField scheme "id"] w w'.
Proof.
  intros Hok. pose proof Hok as [text Htext].
  destruct (IngestionFacts.textOk_metadata scheme Hok) as [md Hmd].
  destruct (SearchFacts.generateEmbedding_string env text w) as [v Hv].
  rewrite Htext, liftO_bind, (bind_Ret _ _ _ _ _ Hv), Hmd, liftO_bind.
  eexists. split; [done|]. unfold appended, indexIds. simpl.
  rewrite fmap_app, length_app. simpl. split_and!; try done.
Qed.

Lemma memoryAdd_bad scheme w :
  canEmbed scheme = false → ∃ msg, memoryAdd scheme w = Err (TypeError msg) w.
Proof.
  unfold canEmbed. intros Hbad.
  destruct (createSchemeText scheme) as [|e] eqn:Ht; [done|].
  destruct (IngestionFacts.createSchemeText_TypeError _ _ Ht) as [msg ->]. by exists msg.
Qed.

Lemma first_bad (schemes : list jsobj) :
  Forall RunSpec.textOk schemes ∨
  ∃ good bad rest, schemes = good ++ bad :: rest ∧
                   Forall RunSpec.textOk good ∧ canEmbed bad = false.
Proof.
  induction schemes as [|s schemes IH]; [left; constructor|].
  destruct (canEmbed s) eqn:Hs.
  - apply canEmbed_textOk in Hs. destruct IH as [Hok|(good & bad & rest & -> & Hg & Hb)].
    + left. by constructor.
    + right. exists (s :: good), bad, rest. split_and!; try done. by constructor.
  - right. exists [], s, schemes. split_and!; try done.
Qed.

Lemma memoryLoop_ok schemes : ∀ w,
  Forall RunSpec.textOk schemes →
  ∃ w', forEachM memoryAdd schemes w = Ret tt w' ∧
        appended (RunSpec.idOf <$> schemes) w w'.
Proof.
  induction schemes as [|scheme rest IH]; intros w Hok.
  - exists w. split; [done|apply appended_nil].
  - apply Forall_cons in Hok as [Hs Hrest].
    destruct (memoryAdd_ok scheme w Hs) as (w1 & Hrun & Happ).
    destruct (IH w1 Hrest) as (w' & Hloop & Happ').
    exists w'. split.
    + cbn [forEachM]. by rewrite (bind_Ret _ _ _ _ _ Hrun).
    + apply (appended_app [getField scheme "id"] _ w w1 w'); done.
Qed.

Lemma memoryLoop_fails good bad rest : ∀ w,
  Forall RunSpec.textOk good → canEmbed bad = false →
  ∃ e w', forEachM memoryAdd (good ++ bad :: rest) w = Err e w' ∧
          appended (RunSpec.idOf <$> good) w w' ∧ ∃ msg, e = TypeError msg.
Proof.
  induction good as [|scheme good IH]; intros w Hok Hbad.
  - destruct (memoryAdd_bad bad w Hbad) as [msg He]. exists (TypeError msg), w. split.
    + cbn [app forEachM]. by rewrite (bind_Err _ _ _ _ _ He).
    + split; [apply appended_nil|by eexists].
  - apply Forall_cons in Hok as [Hs Hrest].
    destruct (memoryAdd_ok scheme w Hs) as (w1 & Hrun & Happ).
    destruct (IH w1 Hrest Hbad) as (e & w' & Hloop & Happ' & Hmsg).
    exists e, w'. split.
    + cbn [app forEachM]. by rewrite (bind_Ret _ _ _ _ _ Hrun).
    + split; [|done]. apply (appended_app [getField scheme "id"] _ w w1 w'); done.
Qed.

Lemma addSchemeToVectorDB_memory scheme w :
  collection w = false →
  ∃ w', addSchemeToVectorDB env scheme w = Ret tt w' ∧
        appended (if canEmbed scheme then [getField scheme "id"] else []) w w'.
Proof.
  intros Hc. unfold addSchemeToVectorDB, tryCatch, addSchemeBody, canEmbed.
  destruct (createSchemeText scheme) as [text|e] eqn:Htext.
  - assert (RunSpec.textOk scheme) as Hok by (by exists text).
    destruct (IngestionFacts.textOk_metadata scheme Hok) as [md Hmd].
    destruct (SearchFacts.generateEmbedding_string env text w) as [v Hv].
    rewrite liftO_bind, (bind_Ret _ _ _ _ _ Hv), Hmd, liftO_bind, getWorld_bind.
    change (collection (bump 1 w)) with (collection w). rewrite Hc.
    eexists. split; [done|]. unfold appended, indexIds. simpl.
    rewrite fmap_app, length_app. simpl. split_and!; try done.
  - exists w. split; [done|]. apply appended_nil.
Qed.

Lemma fallbackLoop_memory schemes : ∀ w,
  collection w = false →
  ∃ w', forEachM (λ scheme, tryCatch (addSchemeToVectorDB env scheme) (λ _, mret tt))
          schemes w = Ret tt w' ∧
        appended (RunSpec.idOf <$> List.filter canEmbed schemes) w w'.
Proof.
  induction schemes as [|scheme rest IH]; intros w Hc.
  - exists w. split; [done|apply appended_nil].
  - destruct (addSchemeToVectorDB_memory scheme w Hc) as (w1 & Hrun & Happ).
    destruct (IH w1) as (w' & Hloop & Happ').
    { destruct Happ as [-> _]. done. }
    exists w'. split.
    + cbn [forEachM]. unfold mbind, M_bind, tryCatch. rewrite Hrun. exact Hloop.
    + cbn [List.filter]. destruct (canEmbed scheme).
      * apply (appended_app [getField scheme "id"] _ w w1 w'); done.
      * apply (appended_app [] _ w w1 w'); done.
Qed.

Lemma addSchemes_memory_ok (schemes : list jsobj) (batchSize : Z) (w : World) :
  collection w = false → Forall RunSpec.textOk schemes →
  ∃ w', addSchemesToVectorDB env schemes batchSize w = Ret tt w' ∧
        indexIds w' = indexIds w ++ (RunSpec.idOf <$> schemes) ∧
        length (inMemoryEmbeddings w') = length (inMemoryEmbeddings w) + length schemes ∧
        addCalls w' = addCalls w ∧ collection w' = false.
Proof.
  intros Hc Hok. unfold addSchemesToVectorDB. rewrite tryCatch_rethrow.
  destruct schemes as [|s r].
  - exists w. rewrite app_nil_r. simpl. split_and!; first [done|lia].
  - rewrite getWorld_bind, Hc.
    destruct (memoryLoop_ok (s :: r) w Hok) as (w' & Hrun & Hcol & Hcalls & _ & Hids & Hlen).
    exists w'. rewrite length_fmap in Hlen. split_and!; try done. congruence.
Qed.

(** X14. On the in-memory path [addSchemesToVectorDB] takes no account of the
    batch size: it appends one entry for each record, in input order, and
    issues no [collection.add] call; this for every batch size, zero and
    negative ones included. *)
Theorem in_memory_batch_appends (schemes : list jsobj) (batchSize : Z) (w : World) :
  collection w = false → Forall RunSpec.textOk schemes →
  ∃ w', addSchemesToVectorDB env schemes batchSize w = Ret tt w' ∧
        indexIds w' = indexIds w ++ (RunSpec.idOf <$> schemes) ∧
        length (inMemoryEmbeddings w') = length (inMemoryEmbeddings w) + length schemes ∧
        addCalls w' = addCalls w ∧ collection w' = false.
Proof. apply addSchemes_memory_ok. Qed.

(** X15. On the in-memory path a record whose text cannot be built makes
    [trainVectorDatabase] index twice the records that come before it: the
    batch has appended them when it fails, and the fallback goes through
    all records again.  The records after it are indexed once, those among
    them whose text cannot be built not at all. *)
Theorem in_memory_failure_duplicates (good : list jsobj) (bad : jsobj) (rest : list jsobj)
    (w : World) :
  collection w = false → Forall RunSpec.textOk good → canEmbed bad = false →
  ∃ w', trainVectorDatabase env (good ++ bad :: rest) w = Ret tt w' ∧
        indexIds w' = indexIds w ++ (RunSpec.idOf <$> good) ++ (RunSpec.idOf <$> good)
                        ++ (RunSpec.idOf <$> List.filter canEmbed rest).
Proof.
  intros Hc Hok Hbad.
  destruct (memoryLoop_fails good bad rest w Hok Hbad) as (e & w1 & Hrun & Happ & _).
  assert (addSchemesToVectorDB env (good ++ bad :: rest) (defaultBatchSize env) w = Err e w1)
    as Hbatch.
  { unfold addSchemesToVectorDB. rewrite tryCatch_rethrow.
    destruct (good ++ bad :: rest) as [|s r] eqn:Hl; [by destruct good|].
    by rewrite getWorld_bind, Hc. }
  destruct Happ as (Hc1 & _ & _ & Hids1 & _).
  destruct (fallbackLoop_memory (good ++ bad :: rest) w1 ltac:(congruence))
    as (w' & Hloop & _ & _ & _ & Hids & _).
  exists w'. split.
  - unfold trainVectorDatabase, tryCatch. rewrite Hbatch. exact Hloop.
  - rewrite Hids, Hids1, <- !app_assoc. do 2 f_equal.
    rewrite List.filter_app, fmap_app. cbn [List.filter]. rewrite Hbad. f_equal.
    f_equal. clear -Hok. induction Hok as [|s l Hs _ IH]; [done|].
    cbn [List.filter]. apply canEmbed_textOk in Hs. rewrite Hs. by f_equal.
Qed.

End WithEnv.

End IndexFacts.

(** ** The index facts at sample inputs *)

Module IndexSamples.
Import VectorDB RAGTrainer RunSpec IndexSpec IndexFacts.


(** The theorem at an index built while the provider was down, searched
    once it is up again. *)
Lemma odd_vector_silences_search_witness :
  ∃ w1, searchSimilarSchemes flakyEnv (JStr "pm kisan income support") 5 fallbackIndexedWorld
          = Ret [] w1.
Proof.
  destruct (Ret_checked
              (λ q _, existsb (λ e, negb (length e =? length q))
                        (inMemoryEmbeddings fallbackIndexedWorld))
              (generateEmbedding flakyEnv (JStr "pm kisan income support") fallbackIndexedWorld))
    as (q & w1 & Hq & Hr); [vm_cast_no_check (eq_refl true)|].
  exists w1.
  apply (odd_vector_silences_search flakyEnv (JStr "pm kisan income support") 5
           fallbackIndexedWorld q w1).
  - reflexivity.
  - exact Hq.
  - apply existsb_exists in Hr as (e & He & Hne). apply Exists_exists. exists e.
    split; [by apply list_elem_of_In|]. by apply Nat.eqb_neq, negb_true_iff.
Defined.

(** The theorem at three records and a batch size of zero. *)
Lemma in_memory_batch_appends_witness :
  ∃ w', addSchemesToVectorDB quietEnv threeSchemes 0 memoryWorld = Ret tt w' ∧
        indexIds w' = indexIds memoryWorld ++ (idOf <$> threeSchemes) ∧
        length (inMemoryEmbeddings w') = length (inMemoryEmbeddings memoryWorld) + length threeSchemes ∧
        addCalls w' = addCalls memoryWorld ∧ collection w' = false.
Proof.
  apply (in_memory_batch_appends quietEnv threeSchemes 0 memoryWorld).
  - reflexivity.
  - exact IngestionFacts.threeSchemes_textOk.
Defined.

(** The theorem at three records followed by one that has a string where
    its tags should be. *)
Lemma in_memory_failure_duplicates_witness :
  ∃ w', trainVectorDatabase quietEnv
          (threeSchemes ++
           <["tags" := JStr "housing"]> (scheme "s4" "PMAY-G" "Housing" "rural housing") :: [])
          memoryWorld = Ret tt w' ∧
        indexIds w' = indexIds memoryWorld ++ (idOf <$> threeSchemes) ++ (idOf <$> threeSchemes)
                        ++ (idOf <$> List.filter canEmbed []).
Proof.
  apply (in_memory_failure_duplicates quietEnv threeSchemes
           (<["tags" := JStr "housing"]> (scheme "s4" "PMAY-G" "Housing" "rural housing")) []
           memoryWorld).
  - reflexivity.
  - exact IngestionFacts.threeSchemes_textOk.
  - vm_compute. reflexivity.
Defined.

End IndexSamples.

(** ** Acquisition *)

Module AcquisitionFacts.
Import DataScraper Acquisition RAGTrainer AcquisitionSpec.


Lemma strictEq_primitive v : primitive v = true → strictEq v v = true.
Proof. destruct v; simpl; try done; intros _; by apply bool_decide_eq_true. Qed.

Lemma existsb_strictEq v acc : existsb (strictEq v) acc = true → v ∈ acc.
Proof.
  intros (x & Hin & Hx)%existsb_exists. apply RetrainFacts.strictEq_true in Hx as ->.
  by apply list_elem_of_In.
Qed.

Lemma distinctValues_loop values : ∀ acc,
  let out := fold_left (λ acc v, if existsb (strictEq v) acc then acc else acc ++ [v])
               values acc in
  (∀ v, v ∈ out ↔ v ∈ acc ∨ v ∈ values) ∧
  (NoDup acc → Forall (λ v, primitive v = true) values → NoDup out).
Proof.
  induction values as [|x values IH]; intros acc; simpl.
  - split; [|done]. intros v. split; [by left|]. intros [?|H]; [done|].
    by apply elem_of_nil in H.
  - destruct (existsb (strictEq x) acc) eqn:Hx.
    + destruct (IH acc) as [Hin Hnd]. split.
      * intros v. rewrite Hin, elem_of_cons. apply existsb_strictEq in Hx.
        split; [intros [?|?]; [by left|right; by right]|].
        intros [?|[->|?]]; [by left|by left|by right].
      * intros Hacc [_ Hp]%Forall_cons. by apply Hnd.
    + destruct (IH (acc ++ [x])) as [Hin Hnd]. split.
      * intros v. rewrite Hin, elem_of_app, list_elem_of_singleton, elem_of_cons. tauto.
      * intros Hacc [Hpx Hp]%Forall_cons. apply Hnd; [|done].
        apply NoDup_app. split_and!; [done| |apply NoDup_singleton].
        intros y Hy ->%list_elem_of_singleton.
        assert (existsb (strictEq x) acc = true); [|congruence].
        apply existsb_exists. exists x. split; [by apply list_elem_of_In|].
        by apply strictEq_primitive.
Qed.

Lemma distinctValues_spec values :
  (∀ v, v ∈ distinctValues values ↔ v ∈ values) ∧
  (Forall (λ v, primitive v = true) values → NoDup (distinctValues values)).
Proof.
  destruct (distinctValues_loop values []) as [Hin Hnd]. split.
  - intros v. unfold distinctValues. rewrite Hin. split; [intros [H|?]; [|done]|by right].
    by apply elem_of_nil in H.
  - intros Hp. apply Hnd; [constructor|done].
Qed.

Section WithEnv.
Variable env : Env.

Lemma isoNow_run w : isoNow env w = Ret (nowISO env (tick w)) (bump 1 w).
Proof. reflexivity. Qed.

(** [fetchMySchemeData] resolves whatever the site does. *)
Lemma fetchMySchemeData_run w :
  fetchMySchemeData env w =
    match mySchemeApi env (tick w) with
    | Return (Some schemes) =>
        Ret (processMySchemeAPIResponse (λ i, nowISO env (S (tick w) + i)) schemes)
            (bump (length schemes) (bump 1 w))
    | _ =>
        match mySchemePage env (S (tick w)) with
        | Return schemes => Ret schemes (bump 1 (bump 1 w))
        | Throw _ => Ret [] (bump 1 (bump 1 w))
        end
    end.
Proof.
  unfold fetchMySchemeData, scrapeMySchemeWebsite, tryCatch, mbind, M_bind, ask, getWorld,
    modify.
  destruct (mySchemeApi env (tick w)) as [[schemes|]|e]; simpl; try done.
  - by destruct (mySchemePage env (S (tick w))).
  - by destruct (mySchemePage env (S (tick w))).
Qed.




(** X16. [fetchMySchemeData] never rejects: an answer of the API that carries
    schemes is processed, one record for each; without such an answer the
    page is scraped; and when that fails too the result is empty. *)
Theorem fetchMySchemeData_never_rejects (w : World) :
  ∃ data w',
    fetchMySchemeData env w = Ret data w' ∧
    (∀ schemes, mySchemeApi env (tick w) = Return (Some schemes) →
       length data = length schemes ∧
       ∀ i r, data !! i = Some r →
         getField r "id" = JStr ("myscheme-api-" +:+ pretty i) ∧
         getField r "source" = JStr "MyScheme.gov.in (API)") ∧
    (mySchemeApi env (tick w) ≠ Return None →
     (∀ schemes, mySchemeApi env (tick w) ≠ Return (Some schemes)) →
     ∀ e, mySchemePage env (S (tick w)) = Throw e → data = []) ∧
    (∀ schemes, mySchemeApi env (tick w) = Return None →
       mySchemePage env (S (tick w)) = Return schemes → data = schemes).
Proof.
  rewrite fetchMySchemeData_run.
  destruct (mySchemeApi env (tick w)) as [[schemes|]|e] eqn:Hapi.
  - eexists _, _. split; [done|]. split_and!; try done.
    + intros ? [= <-]. split; [apply length_imap|].
      intros i r Hr. unfold processMySchemeAPIResponse in Hr.
      rewrite list_lookup_imap in Hr.
      destruct (schemes !! i) as [scheme|]; [|done]. injection Hr as <-.
      split; [by rewrite getField_insert|].
      by rewrite !getField_insert_ne, getField_insert by done.
    + intros _ H. by destruct (H schemes).
  - destruct (mySchemePage env (S (tick w))) as [schemes|e] eqn:Hpage.
    + eexists _, _. split; [done|]. split_and!; try done. by intros ? _ [= ->].
    + eexists _, _. split; [done|]. by split_and!.
  - destruct (mySchemePage env (S (tick w))) as [schemes|e'] eqn:Hpage.
    + eexists _, _. split; [done|]. by split_and!.
    + eexists _, _. split; [done|]. by split_and!.
Qed.



Lemma writeFile_run path content w :
  writeFile env path content w =
    match fsWrite env (tick w) path with
    | Return _ => Ret tt (putFile path content (bump 1 w))
    | Throw e => Err e (bump 1 w)
    end.
Proof.
  unfold writeFile, mbind, M_bind, ask, modify.
  by destruct (fsWrite env (tick w) path) as [[]|].
Qed.

Lemma saveDataToFile_run schemes w :
  saveDataToFile env schemes w =
    match fsMkdir env (tick w) with
    | Throw e => Err e (bump 1 w)
    | Return _ =>
        match fsWrite env (S (tick w)) scrapedSchemesFile with
        | Throw e => Err e (bump 1 (bump 1 w))
        | Return _ =>
            let w2 := putFile scrapedSchemesFile (FSchemes schemes) (bump 1 (bump 1 w)) in
            match fsWrite env (S (S (S (tick w)))) scrapingMetadataFile with
            | Throw e => Err e (bump 1 (bump 1 w2))
            | Return _ =>
                Ret tt (putFile scrapingMetadataFile
                          (FScrapingMetadata (length schemes) (nowISO env (S (S (tick w))))
                             (distinctValues ((λ s, getField s "source") <$> schemes))
                             (distinctValues ((λ s, getField s "category") <$> schemes)))
                          (bump 1 (bump 1 w2)))
            end
        end
    end.
Proof.
  unfold saveDataToFile. rewrite tryCatch_rethrow.
  unfold mbind at 1, M_bind at 1, ask at 1.
  destruct (fsMkdir env (tick w)) as [[]|]; [|done].
  unfold mbind at 1, M_bind at 1. rewrite writeFile_run.
  change (tick (bump 1 w)) with (S (tick w)).
  destruct (fsWrite env (S (tick w)) scrapedSchemesFile) as [[]|]; [|done].
  unfold mbind at 1, M_bind at 1. rewrite isoNow_run, writeFile_run.
  cbn [tick bump putFile Nat.add].
  by destruct (fsWrite env (S (S (S (tick w)))) scrapingMetadataFile) as [[]|].
Qed.

Lemma saveDataToFile_cases (schemes : list jsobj) (w : World) :
  (∀ u w', saveDataToFile env schemes w = Ret u w' →
     files w' !! scrapedSchemesFile = Some (FSchemes schemes) ∧
     ∃ stamp sources categories,
       files w' !! scrapingMetadataFile
         = Some (FScrapingMetadata (length schemes) stamp sources categories) ∧
       (∀ v, v ∈ sources ↔ ∃ s, s ∈ schemes ∧ getField s "source" = v) ∧
       (∀ v, v ∈ categories ↔ ∃ s, s ∈ schemes ∧ getField s "category" = v)) ∧
  (∀ e w', saveDataToFile env schemes w = Err e w' →
     files w' = files w ∨
     (files w' = <[scrapedSchemesFile := FSchemes schemes]> (files w) ∧
      ∃ t, fsWrite env t scrapingMetadataFile = Throw e)) ∧
  saveDataToFile env schemes w ≠ Hang.
Proof.
  rewrite saveDataToFile_run.
  destruct (fsMkdir env (tick w)) as [[]|e0]; [|split_and!; try done; intros ? ? [= _ <-]; by left].
  destruct (fsWrite env (S (tick w)) scrapedSchemesFile) as [[]|e1];
    [|split_and!; try done; intros ? ? [= _ <-]; by left].
  cbv zeta.
  destruct (fsWrite env (S (S (S (tick w)))) scrapingMetadataFile) as [[]|e2] eqn:Hmeta.
  - split_and!; try done. intros [] w' [= <-]. unfold putFile, bump; cbn [files]. split.
    + rewrite lookup_insert_ne by done. apply lookup_insert_eq.
    + eexists _, _, _. split; [apply lookup_insert_eq|].
      split; intros v; rewrite (proj1 (distinctValues_spec _)), list_elem_of_fmap;
        split; intros (s & ? & ?); by exists s.
  - split_and!; try done. intros e w' [= <- <-]. right. split; [done|]. by eexists.
Qed.


(** X19. What [fetchAllSchemeData] resolves to is what [loadScrapedData]
    then reads, and what [scraping_metadata.json] counts. *)
Theorem fetch_then_load (data : list jsobj) (w w' : World) :
  fetchAllSchemeData env w = Ret data w' →
  loadScrapedData w' = Ret data w' ∧
  ∃ stamp sources categories,
    files w' !! scrapingMetadataFile
      = Some (FScrapingMetadata (length data) stamp sources categories).
Proof.
  intros Hfetch.
  destruct (RetrainFacts.fetchAllSchemeData_Ret env _ _ _ Hfetch) as [Hfile _].
  split; [by apply RetrainFacts.loadScrapedData_saved|].
  unfold fetchAllSchemeData in Hfetch. rewrite tryCatch_rethrow in Hfetch.
  apply bind_Ret_inv in Hfetch as (a & w1 & _ & H).
  apply bind_Ret_inv in H as (b & w2 & _ & H).
  apply bind_Ret_inv in H as (c & w3 & _ & H).
  rewrite getWorld_bind in H.
  apply bind_Ret_inv in H as (cleaned & w4 & Hclean & H).
  apply bind_Ret_inv in H as (_ & w5 & _ & H).
  apply bind_Ret_inv in H as (u & w6 & Hsave & H).
  injection H as -> ->.
  destruct (saveDataToFile_cases data w5) as (Hret & _).
  destruct (Hret _ _ Hsave) as (_ & stamp & sources & categories & Hmeta & _).
  by exists stamp, sources, categories.
Qed.

End WithEnv.
End AcquisitionFacts.

(** ** The acquisition facts at sample inputs *)

Module AcquisitionSamples.
Import VectorDB DataScraper Acquisition RAGTrainer RunSpec AcquisitionSpec AcquisitionFacts.


(** The theorem where the MyScheme site is unreachable and the built-in
    records are all there is. *)
Lemma fetch_then_load_witness :
  ∃ data w',
    loadScrapedData w' = Ret data w' ∧
    ∃ stamp sources categories,
      files w' !! scrapingMetadataFile
        = Some (FScrapingMetadata (length data) stamp sources categories).
Proof.
  destruct (Ret_checked (λ _ _, true) (fetchAllSchemeData quietEnv memoryWorld))
    as (data & w' & Hrun & _); [vm_cast_no_check (eq_refl true)|].
  exists data, w'. exact (fetch_then_load quietEnv data memoryWorld w' Hrun).
Defined.

End AcquisitionSamples.

(** ** The training run *)

Module TrainingFacts.
Import VectorDB Acquisition RAGTrainer RunSpec FrameSpec FrameFacts ProcessSpec ProcessFacts
  IndexSpec IndexFacts AcquisitionFacts.

Section WithEnv.
Variable env : Env.

Lemma searchSimilarSchemes_resolves query limit w :
  ∃ hits w', searchSimilarSchemes env query limit w = Ret hits w'.
Proof.
  pose proof (SearchFacts.searchBody_settles env query limit w) as Hs.
  unfold searchSimilarSchemes, tryCatch.
  destruct (searchBody env query limit w); [by eexists _, _|by eexists _, _|done].
Qed.

Lemma searchSimilarSchemes_empty_index query limit w :
  collection w = false → inMemoryEmbeddings w = [] →
  ∃ w', searchSimilarSchemes env query limit w = Ret [] w'.
Proof.
  intros Hc He. unfold searchSimilarSchemes, tryCatch, searchBody.
  destruct (SearchFacts.generateEmbedding_cases env query w) as [[v Hv]|[e Hv]].
  - rewrite (bind_Ret _ _ _ _ _ Hv), getWorld_bind.
    change (collection (bump 1 w)) with (collection w). rewrite Hc.
    rewrite SearchFacts.searchInMemoryVectors_empty by done. by eexists.
  - rewrite (bind_Err _ _ _ _ _ Hv). by eexists.
Qed.

Lemma validateQuery_run acc query w :
  ∃ acc' w',
    validateQuery env acc query w = Ret acc' w' ∧ readOnly w w' ∧
    acc.1 ≤ acc'.1 ≤ S acc.1 ∧
    (collection w = false → inMemoryEmbeddings w = [] → acc' = acc).
Proof.
  pose proof (readOnly_search env (JStr query) 3 w) as Hro.
  destruct (searchSimilarSchemes_resolves (JStr query) 3 w) as (hits & w' & Hrun).
  rewrite Hrun in Hro.
  unfold validateQuery, tryCatch. rewrite (bind_Ret _ _ _ _ _ Hrun).
  destruct hits as [|h hits].
  - exists acc, w'. split_and!; try done; lia.
  - eexists _, w'. split; [reflexivity|]. split_and!; try done; simpl; try lia.
    intros Hc He. destruct (searchSimilarSchemes_empty_index (JStr query) 3 w Hc He) as [w2 H2].
    congruence.
Qed.

Lemma validateLoop_run queries : ∀ acc w,
  ∃ acc' w',
    foldlM (validateQuery env) acc queries w = Ret acc' w' ∧ readOnly w w' ∧
    acc.1 ≤ acc'.1 ≤ acc.1 + length queries ∧
    (collection w = false → inMemoryEmbeddings w = [] → acc' = acc).
Proof.
  induction queries as [|query queries IH]; intros acc w.
  - exists acc, w. split_and!; try done; simpl; lia.
  - destruct (validateQuery_run acc query w) as (acc1 & w1 & Hrun & Hro & Hle & He).
    destruct (IH acc1 w1) as (acc' & w' & Hloop & Hro' & Hle' & He').
    exists acc', w'. split_and!.
    + cbn [foldlM]. by rewrite (bind_Ret _ _ _ _ _ Hrun).
    + by eapply readOnly_trans.
    + lia.
    + simpl. lia.
    + intros Hc Hemp. destruct Hro as (Hc1 & _ & He1 & _).
      rewrite He' by congruence. by apply He.
Qed.

Lemma validateTraining_run w :
  ∃ v w',
    validateTraining env w = Ret v w' ∧ readOnly w w' ∧
    totalTestQueries v = 4 ∧ successfulRetrievals v ≤ 4 ∧
    (collection w = false → inMemoryEmbeddings w = [] →
       successfulRetrievals v = 0 ∧ averageRelevanceScore v = 0%float).
Proof.
  unfold validateTraining.
  destruct (validateLoop_run testQueries (0, 0%float) (bump 1 w))
    as (acc & w1 & Hloop & Hro & Hle & He).
  unfold msNow. unfold mbind at 1, M_bind at 1, ask at 1.
  rewrite (bind_Ret _ _ _ _ _ Hloop).
  unfold mbind, M_bind, ask.
  eexists _, _. split; [reflexivity|]. split_and!.
  - destruct Hro as (?&?&?&?&?). by split_and!.
  - done.
  - simpl in *. lia.
  - intros Hc Hemp. rewrite (He Hc Hemp). split; reflexivity.
Qed.

(** X20. [validateTraining] always resolves and changes nothing: it reports
    four test queries, of which at most four retrieved something; on an
    empty in-memory index none did, and the average relevance is 0. *)
Theorem validateTraining_resolves (w : World) :
  ∃ v w',
    validateTraining env w = Ret v w' ∧ readOnly w w' ∧
    totalTestQueries v = 4 ∧ successfulRetrievals v ≤ 4 ∧
    (collection w = false → inMemoryEmbeddings w = [] →
       successfulRetrievals v = 0 ∧ averageRelevanceScore v = 0%float).
Proof. apply validateTraining_run. Qed.

Lemma saveTrainingResults_run v w :
  saveTrainingResults env v w =
    match fsWrite env (S (tick w)) trainingResultsFile with
    | Return _ =>
        Ret tt (putFile trainingResultsFile
                  (FResults (mkTrainingResults 0
                     (PrimFloat.div (natToFloat (successfulRetrievals v))
                                    (natToFloat (totalTestQueries v)))
                     (nowISO env (tick w)) "1.0.0" v))
                  (bump 1 (bump 1 w)))
    | Throw _ => Ret tt (bump 1 (bump 1 w))
    end.
Proof.
  unfold saveTrainingResults, tryCatch. unfold mbind, M_bind. rewrite isoNow_run.
  rewrite writeFile_run. change (tick (bump 1 w)) with (S (tick w)).
  by destruct (fsWrite env (S (tick w)) trainingResultsFile) as [[]|].
Qed.




Lemma generateTrainingExamples_run schemes w :
  generateTrainingExamples env schemes w =
    match allExamples schemes with
    | Throw e => Err e w
    | Return examples =>
        match fsWrite env (tick w) trainingExamplesFile with
        | Return _ =>
            Ret examples (putFile trainingExamplesFile (FExamples examples) (bump 1 w))
        | Throw _ => Ret examples (bump 1 w)
        end
    end.
Proof.
  unfold generateTrainingExamples, saveTrainingExamples.
  destruct (allExamples schemes) as [examples|e]; [|done].
  rewrite liftO_bind. unfold mbind, M_bind, tryCatch. rewrite writeFile_run.
  by destruct (fsWrite env (tick w) trainingExamplesFile) as [[]|].
Qed.


Lemma trainVectorDatabase_chroma schemes (c : nat) w :
  0 < c → defaultBatchSize env = Z.of_nat c → collection w = true →
  Forall textOk schemes →
  ∃ w2, trainVectorDatabase env schemes w = Ret tt w2.
Proof.
  intros Hc Hdefault Hcol Hok. apply IngestionFacts.trainVectorDatabase_resolves. lia.
Qed.

Lemma trainVectorDatabase_memory schemes w :
  collection w = false → Forall textOk schemes →
  ∃ w2, trainVectorDatabase env schemes w = Ret tt w2.
Proof.
  intros Hcol Hok. rewrite IngestionFacts.trainVectorDatabase_run.
  destruct (addSchemes_memory_ok env schemes (defaultBatchSize env) w Hcol Hok)
    as (w' & -> & _). by eexists.
Qed.

(** X23. Training completes whenever acquisition does and the data are in
    order: if [fetchAllSchemeData] resolves with records whose objectives
    are strings, no local dataset is configured, and the index is the
    in-memory one or the batch size is positive, then [trainRAGModel]
    resolves, reporting as many schemes as were fetched and eight training
    examples for each. *)
Theorem training_completes (w : World) (data : list jsobj) (w1 : World) :
  fetchAllSchemeData env w = Ret data w1 →
  useLocalData env = false →
  Forall (λ s, textual (getField s "objective") = true) data →
  collection w = false ∨ (0 < defaultBatchSize env)%Z →
  ∃ v w',
    trainRAGModel env w = Ret (TrainingCompleted (length data) (8 * length data) v) w'.
Proof.
  intros Hfetch Hlocal Hobj Hbackend.
  destruct (RetrainFacts.fetchAllSchemeData_Ret env _ _ _ Hfetch)
    as (_ & genId & stamp & raw & Hclean).
  pose proof (cleaned_regular_data _ _ _ _ _ _ Hclean Hobj) as Hreg.
  destruct (regular_pipeline data) as (processed & examples & Hp & Hex & Hl1 & Hl2 & Hok).
  { eapply Forall_impl; [exact Hreg|]. by intros s [? _]. }
  pose proof (extends_fetchAllSchemeData env w) as Hext1. rewrite Hfetch in Hext1.
  pose proof (extends_generateTrainingExamples env processed w1) as Hext2.
  assert (∃ w2, generateTrainingExamples env processed w1 = Ret examples w2) as [w2 Hgen].
  { rewrite generateTrainingExamples_run, Hex.
    destruct (fsWrite env (tick w1) trainingExamplesFile); by eexists. }
  rewrite Hgen in Hext2.
  assert (collection w2 = collection w) as Hcol.
  { destruct Hext1 as [? _], Hext2 as [? _]. congruence. }
  assert (∃ w3, trainVectorDatabase env processed w2 = Ret tt w3) as [w3 Htrain].
  { destruct (collection w) eqn:Hc.
    - destruct Hbackend as [?|Hpos]; [done|].
      apply (trainVectorDatabase_chroma processed (Z.to_nat (defaultBatchSize env)));
        [lia|lia|done|done].
    - by apply trainVectorDatabase_memory. }
  destruct (validateTraining_run w3) as (v & w4 & Hval & _).
  assert (stagesBeforeSave env w = Ret (length data, 8 * length data, v) w4) as Hstages.
  { unfold stagesBeforeSave. rewrite (bind_Ret _ _ _ _ _ Hfetch).
    unfold localOverride. rewrite Hlocal.
    unfold mbind at 1, M_bind at 1, mret at 1, M_ret at 1.
    rewrite Hp, liftO_bind, (bind_Ret _ _ _ _ _ Hgen), (bind_Ret _ _ _ _ _ Htrain).
    rewrite (bind_Ret _ _ _ _ _ Hval). by rewrite Hl1, Hl2. }
  rewrite PipelineFacts.trainRAGModel_run, Hstages, saveTrainingResults_run.
  destruct (fsWrite env _ trainingResultsFile); by eexists _, _.
Qed.

End WithEnv.
End TrainingFacts.

(** ** The training facts at sample inputs *)

Module TrainingSamples.
Import VectorDB DataScraper Acquisition RAGTrainer RunSpec ProcessSpec TrainingFacts.


(** The theorem at a first training run on the in-memory index. *)
Lemma training_completes_witness :
  ∃ (data : list jsobj) v w',
    trainRAGModel quietEnv memoryWorld
      = Ret (TrainingCompleted (length data) (8 * length data) v) w'.
Proof.
  destruct (Ret_checked (λ data _, forallb (λ s, textual (getField s "objective")) data)
              (fetchAllSchemeData quietEnv memoryWorld))
    as (data & w1 & Hrun & Hr); [vm_cast_no_check (eq_refl true)|].
  exists data. apply (training_completes quietEnv memoryWorld data w1).
  - exact Hrun.
  - reflexivity.
  - apply Forall_forall. intros s Hs. rewrite forallb_forall in Hr.
    by apply Hr, list_elem_of_In.
  - left. reflexivity.
Defined.

End TrainingSamples.

(** ** The change test *)

Module ChangeFacts.
Import Acquisition RAGTrainer RunSpec AcquisitionSpec AcquisitionFacts ChangeSpec.

Lemma find_Some_elem {A} (p : A → bool) (l : list A) (x : A) :
  List.find p l = Some x → x ∈ l ∧ p x = true.
Proof. intros [Hin Hp]%find_some. split; [by apply list_elem_of_In|done]. Qed.

Lemma hasDataChanged_false newData existingData :
  hasDataChanged newData existingData = false ↔
  length newData = length existingData ∧
  ∀ n, n ∈ newData →
    ∃ e, List.find (λ s, strictEq (getField s "id") (getField n "id")) existingData = Some e ∧
         strictEq (getField e "lastUpdated") (getField n "lastUpdated") = true.
Proof.
  unfold hasDataChanged.
  destruct (Nat.eqb_spec (length newData) (length existingData)) as [Hl|Hl]; simpl.
  2:{ split; [done|]. by intros [? _]. }
  split.
  - intros Hex. split; [done|]. intros n Hn.
    destruct (List.find _ existingData) as [e|] eqn:Hfind.
    + exists e. split; [done|].
      destruct (strictEq (getField e "lastUpdated") (getField n "lastUpdated")) eqn:Hs; [done|].
      assert (existsb (λ newScheme,
                match List.find (λ s, strictEq (getField s "id") (getField newScheme "id"))
                        existingData with
                | None => true
                | Some existingScheme =>
                    negb (strictEq (getField existingScheme "lastUpdated")
                                   (getField newScheme "lastUpdated"))
                end) newData = true); [|congruence].
      apply existsb_exists. exists n. split; [by apply list_elem_of_In|].
      by rewrite Hfind, Hs.
    + assert (existsb (λ newScheme,
                match List.find (λ s, strictEq (getField s "id") (getField newScheme "id"))
                        existingData with
                | None => true
                | Some existingScheme =>
                    negb (strictEq (getField existingScheme "lastUpdated")
                                   (getField newScheme "lastUpdated"))
                end) newData = true); [|congruence].
      apply existsb_exists. exists n. split; [by apply list_elem_of_In|].
      by rewrite Hfind.
  - intros [_ Hall]. apply not_true_is_false.
    intros (n & Hn & Hbad)%existsb_exists. apply list_elem_of_In in Hn.
    destruct (Hall n Hn) as (e & Hfind & Hs). by rewrite Hfind, Hs in Hbad.
Qed.

Lemma hasDataChanged_versions newData existingData :
  NoDup (idOf <$> newData) →
  Forall (λ s, primitive (getField s "id") = true ∧
               primitive (getField s "lastUpdated") = true) newData →
  hasDataChanged newData existingData = false ↔
  (versionOf <$> newData) ≡ₚ (versionOf <$> existingData).
Proof.
  intros Hnd Hprim. rewrite hasDataChanged_false. split.
  - intros [Hl Hall]. apply submseteq_length_Permutation; [|by rewrite !length_fmap, Hl].
    apply NoDup_submseteq.
    + apply (NoDup_fmap_1 fst). rewrite <- list_fmap_compose. exact Hnd.
    + intros v (n & -> & Hn)%list_elem_of_fmap.
      destruct (Hall n Hn) as (e & [He Hid]%find_Some_elem & Hs).
      apply RetrainFacts.strictEq_true in Hid, Hs.
      apply list_elem_of_fmap. exists e. split; [|done].
      unfold versionOf. by rewrite Hid, Hs.
  - intros Hperm. split.
    + apply Permutation_length in Hperm. by rewrite !length_fmap in Hperm.
    + intros n Hn.
      assert (versionOf n ∈ versionOf <$> existingData) as (e & Hv & He)%list_elem_of_fmap.
      { rewrite <- Hperm. by apply list_elem_of_fmap_2. }
      injection Hv as Hid Hstamp.
      rewrite Forall_forall in Hprim. destruct (Hprim n Hn) as [Hpid Hpst].
      exists e. split.
      * apply (RetrainFacts.find_first_with_key idOf); try done.
        -- assert (idOf <$> existingData ≡ₚ idOf <$> newData) as ->; [|done].
           change idOf with (fst ∘ versionOf). rewrite !list_fmap_compose.
           by rewrite Hperm.
        -- rewrite <- Hid. by apply strictEq_primitive.
        -- intros y _ Hy. apply RetrainFacts.strictEq_true in Hy. unfold idOf. congruence.
      * rewrite <- Hstamp. by apply strictEq_primitive.
Qed.

(** X24. When the ids of the fresh records are all different (and ids and
    timestamps are primitive values), [hasDataChanged] answers [false]
    exactly when the two datasets hold the same pairs of id and
    [lastUpdated], in whatever order. *)
Theorem hasDataChanged_false_iff (newData existingData : list jsobj) :
  NoDup (idOf <$> newData) →
  Forall (λ s, primitive (getField s "id") = true ∧
               primitive (getField s "lastUpdated") = true) newData →
  hasDataChanged newData existingData = false ↔
  (versionOf <$> newData) ≡ₚ (versionOf <$> existingData).
Proof. apply hasDataChanged_versions. Qed.

End ChangeFacts.

(** ** The change test at sample inputs *)

Module ChangeSamples.
Import Acquisition RAGTrainer RunSpec AcquisitionSpec ChangeSpec ChangeFacts.

(** The theorem at three records and the same three in reverse order. *)
Lemma hasDataChanged_false_iff_witness :
  hasDataChanged threeSchemes (reverse threeSchemes) = false ↔
  (versionOf <$> threeSchemes) ≡ₚ (versionOf <$> reverse threeSchemes).
Proof.
  apply (hasDataChanged_false_iff threeSchemes (reverse threeSchemes)).
  - assert (idOf <$> threeSchemes = [JStr "s1"; JStr "s2"; JStr "s3"]) as ->
      by (vm_compute; reflexivity).
    repeat (apply NoDup_cons; split;
            [rewrite ?elem_of_cons, elem_of_nil; intuition discriminate|]).
    apply NoDup_nil_2.
  - repeat constructor; vm_compute; reflexivity.
Defined.

End ChangeSamples.

(** ** CSV datasets *)

Module CsvFacts.
Import Csv CsvSpec.

Lemma append_assoc (a b c : string) : (a +:+ b) +:+ c = a +:+ (b +:+ c).
Proof.
  induction a as [|x a IH]; [done|].
  change (String x ((a +:+ b) +:+ c) = String x (a +:+ (b +:+ c))). by rewrite IH.
Qed.

Lemma append_nil_r (a : string) : a +:+ "" = a.
Proof.
  induction a as [|x a IH]; [done|].
  change (String x (a +:+ "") = String x a). by rewrite IH.
Qed.

Lemma addChar_append field c f : addChar field c +:+ f = field +:+ String c f.
Proof. unfold addChar. by rewrite append_assoc. Qed.

Lemma loop_plain f : ∀ rest rows row field,
  plain f = true →
  parseLoop (f +:+ rest) rows row field false = parseLoop rest rows row (field +:+ f) false.
Proof.
  induction f as [|c f IH]; intros rest rows row field Hp.
  - by rewrite append_nil_r.
  - cbn [plain] in Hp. apply andb_true_iff in Hp as [Hc Hf].
    unfold plainChar in Hc. rewrite !andb_true_iff, !negb_true_iff in Hc.
    destruct Hc as [[[Hq Hcomma] Hlf] Hcr].
    change (String c f +:+ rest) with (String c (f +:+ rest)). cbn [parseLoop].
    rewrite Hq, Hcomma, Hlf, Hcr. rewrite IH by done. by rewrite addChar_append.
Qed.

Lemma loop_escape f : ∀ rest rows row field,
  noQuoteAhead rest →
  parseLoop (escape f +:+ String dquote rest) rows row field true
    = parseLoop rest rows row (field +:+ f) false.
Proof.
  induction f as [|c f IH]; intros rest rows row field Hrest.
  - rewrite append_nil_r. change (escape "" +:+ String dquote rest) with (String dquote rest).
    cbn [parseLoop]. rewrite bool_decide_eq_true_2 by done.
    destruct rest as [|next rest']; [done|].
    simpl in Hrest. by rewrite bool_decide_eq_false_2.
  - cbn [escape]. case_bool_decide as Hc.
    + subst c.
      change (String dquote (String dquote (escape f)) +:+ String dquote rest)
        with (String dquote (String dquote (escape f +:+ String dquote rest))).
      cbn [parseLoop]. rewrite !bool_decide_eq_true_2 by done.
      rewrite IH by done. by rewrite addChar_append.
    + change (String c (escape f) +:+ String dquote rest)
        with (String c (escape f +:+ String dquote rest)).
      cbn [parseLoop]. rewrite bool_decide_eq_false_2 by done.
      rewrite IH by done. by rewrite addChar_append.
Qed.

Lemma loop_cell c rest rows row field :
  writable c → noQuoteAhead rest →
  parseLoop (cell c +:+ rest) rows row field false
    = parseLoop rest rows row (field +:+ c.2) false.
Proof.
  intros Hw Hrest. destruct c as [[] f]; unfold cell; cbn [fst snd].
  - change (String dquote (escape f +:+ String dquote "") +:+ rest)
      with (String dquote ((escape f +:+ String dquote "") +:+ rest)).
    rewrite append_assoc. change (String dquote "" +:+ rest) with (String dquote rest).
    cbn [parseLoop]. rewrite bool_decide_eq_true_2 by done. by apply loop_escape.
  - apply loop_plain. by apply Hw.
Qed.

Lemma loop_row cells : ∀ rest rows row,
  cells ≠ [] → Forall writable cells → noQuoteAhead rest →
  parseLoop (sepBy "," (cell <$> cells) +:+ rest) rows row "" false
    = parseLoop rest rows (row ++ removelast (snd <$> cells)) (List.last (snd <$> cells) "")
        false.
Proof.
  induction cells as [|c cells IH]; intros rest rows row Hne Hw Hrest; [done|].
  apply Forall_cons in Hw as [Hc Hw].
  destruct cells as [|c' cells].
  - cbn [fmap list_fmap sepBy removelast List.last]. rewrite app_nil_r.
    by rewrite loop_cell.
  - change (sepBy "," (cell <$> c :: c' :: cells))
      with (cell c +:+ "," +:+ sepBy "," (cell <$> c' :: cells)).
    rewrite !append_assoc. rewrite loop_cell; [|done|by simpl].
    change ("," +:+ ?x) with (String comma x).
    cbn [parseLoop]. rewrite bool_decide_eq_false_2 by done.
    rewrite bool_decide_eq_true_2 by done.
    rewrite IH; [|done..].
    change (snd <$> c :: c' :: cells) with (c.2 :: (snd <$> c' :: cells)).
    change (removelast (c.2 :: (snd <$> c' :: cells)))
      with (c.2 :: removelast (snd <$> c' :: cells)).
    change (List.last (c.2 :: (snd <$> c' :: cells)) "")
      with (List.last (snd <$> c' :: cells) "").
    by rewrite <- app_assoc.
Qed.

Lemma loop_eol eol rest rows row field :
  eol = unixEol ∨ eol = dosEol →
  parseLoop (eol +:+ rest) rows row field false
    = parseLoop rest (rows ++ [row ++ [field]]) [] "" false.
Proof. by intros [-> | ->]. Qed.

Lemma eol_noQuoteAhead eol rest : eol = unixEol ∨ eol = dosEol → noQuoteAhead (eol +:+ rest).
Proof. by intros [-> | ->]. Qed.

Lemma removelast_last {A} (l : list A) d : l ≠ [] → removelast l ++ [List.last l d] = l.
Proof. intros H. symmetry. by apply app_removelast_last. Qed.

Lemma loop_rows eol table : ∀ rest rows,
  eol = unixEol ∨ eol = dosEol →
  table ≠ [] → Forall (λ row, row ≠ []) table → Forall (Forall writable) table →
  noQuoteAhead rest →
  parseLoop (encode eol table +:+ rest) rows [] "" false
    = parseLoop rest (rows ++ fields (removelast table))
        (removelast (snd <$> List.last table []))
        (List.last (snd <$> List.last table []) "") false.
Proof.
  induction table as [|r table IH]; intros rest rows Heol Hne Hrows Hw Hrest; [done|].
  apply Forall_cons in Hrows as [Hr Hrows]. apply Forall_cons in Hw as [Hwr Hw].
  destruct table as [|r' table].
  - unfold encode. cbn [fmap list_fmap sepBy removelast List.last fields].
    rewrite loop_row by done. by rewrite app_nil_r.
  - change (encode eol (r :: r' :: table))
      with (sepBy "," (cell <$> r) +:+ eol +:+ encode eol (r' :: table)).
    rewrite !append_assoc.
    rewrite loop_row; [|done|done|by apply eol_noQuoteAhead].
    rewrite loop_eol by done. rewrite IH by done.
    cbn [app]. rewrite removelast_last by (by destruct r).
    change (removelast (r :: r' :: table)) with (r :: removelast (r' :: table)).
    change (List.last (r :: r' :: table) []) with (List.last (r' :: table) []).
    unfold fields. rewrite fmap_cons. by rewrite <- app_assoc.
Qed.

Lemma parseCSV_encoded eol table :
  eol = unixEol ∨ eol = dosEol →
  Forall (λ row, row ≠ []) table → Forall (Forall writable) table →
  (snd <$> List.last table [] ≠ [""] → parseCSV (encode eol table) = fields table) ∧
  (table ≠ [] → parseCSV (encode eol table +:+ eol) = fields table).
Proof.
  intros Heol Hrows Hw.
  destruct (decide (table = [])) as [->|Hne]; [done|].
  assert (List.last table [] ≠ []) as Hlast.
  { rewrite Forall_forall in Hrows. apply Hrows.
    apply list_elem_of_In. pose proof (removelast_last table [] Hne) as <-.
    apply in_or_app. right. rewrite removelast_last by done. by left. }
  assert (snd <$> List.last table [] ≠ []) as Hl by (by destruct (List.last table [])).
  assert (fields (removelast table) ++ [snd <$> List.last table []] = fields table) as Hfields.
  { unfold fields. change [snd <$> List.last table []]
      with ((λ row : list (bool * string), snd <$> row) <$> [List.last table []]).
    by rewrite <- fmap_app, removelast_last. }
  split.
  - intros Hnot. unfold parseCSV.
    rewrite <- (append_nil_r (encode eol table)), loop_rows by done.
    cbn [parseLoop app]. rewrite removelast_last by done.
    assert ((1 <? length (snd <$> List.last table [])) ||
            negb (bool_decide (head (snd <$> List.last table []) = Some "")) = true) as ->.
    { destruct (snd <$> List.last table []) as [|f [|f' l]]; [done| |done].
      simpl. rewrite bool_decide_eq_false_2; [done|]. intros [= ->]. done. }
    exact Hfields.
  - intros _. unfold parseCSV.
    rewrite <- (append_nil_r (encode eol table +:+ eol)), append_assoc.
    rewrite loop_rows; [|done..|by apply eol_noQuoteAhead].
    rewrite loop_eol by done. cbn [parseLoop app]. rewrite removelast_last by done.
    cbn [length Nat.ltb Nat.leb head orb].
    rewrite bool_decide_eq_true_2 by done. exact Hfields.
Qed.

(** X25. [parseCSV] reads back what a CSV writer wrote.  For a table whose
    rows have at least one field each, written with commas between the
    fields and LF or CR LF between the rows, each field between quotes with
    its quotes doubled, or bare when it holds no quote, comma, CR or LF:
    the rows parsed are the rows written, fields with commas, quotes and
    line breaks included.  A line break after the last row adds no row;
    without it a last row made of one empty field is lost, and so is
    excepted. *)
Theorem parseCSV_round_trip (eol : string) (table : list (list (bool * string))) :
  eol = unixEol ∨ eol = dosEol →
  Forall (λ row, row ≠ []) table → Forall (Forall writable) table →
  (snd <$> List.last table [] ≠ [""] → parseCSV (encode eol table) = fields table) ∧
  (table ≠ [] → parseCSV (encode eol table +:+ eol) = fields table).
Proof. apply parseCSV_encoded. Qed.

(** The exception is needed: a lone row of one empty field, written between
    quotes, is read as no row at all. *)
Lemma parseCSV_lone_empty_field : parseCSV (encode unixEol [[(true, "")]]) = [].
Proof. reflexivity. Qed.

Lemma length_omap_le {A B} (f : A → option B) (l : list A) : length (omap f l) ≤ length l.
Proof.
  induction l as [|x l IH]; [done|]. cbn [omap list_omap].
  destruct (f x); simpl; lia.
Qed.

Section Parse.
Variable lowerOf : string → string.
Variable trimOf : string → string.
Variable splitOf : string → list string.
Variable genId : nat → string.
Variable stamp : nat → string.

Lemma schemeOfRow_regular header r cols scheme :
  schemeOfRow trimOf splitOf genId stamp header r cols = Some scheme →
  ProcessSpec.regular scheme ∧
  (∃ name, getField scheme "name" = JStr name ∧ name ≠ "") ∧
  getField scheme "source" = JStr "Local CSV".
Proof.
  unfold schemeOfRow. cbv zeta. case_bool_decide as Hname; [done|]. intros [= <-].
  match goal with |- context [getField ?x "source"] => set (o := x) end.
  assert (∃ v, getField o "name" = JStr v ∧ v ≠ "") as Hn.
  { eexists. split; [|exact Hname]. unfold o.
    rewrite !getField_insert_ne by done. apply getField_insert. }
  assert (isString (getField o "category") = true) as Hc.
  { unfold o. rewrite !getField_insert_ne by done. by rewrite getField_insert. }
  assert (ProcessSpec.textual (getField o "objective") = true) as Ho.
  { unfold o. rewrite !getField_insert_ne by done. by rewrite getField_insert. }
  assert (ProcessSpec.joinable (getField o "eligibility") = true) as He.
  { unfold o. rewrite !getField_insert_ne by done. by rewrite getField_insert. }
  assert (ProcessSpec.joinable (getField o "documentsRequired") = true) as Hd.
  { unfold o. rewrite !getField_insert_ne by done. by rewrite getField_insert. }
  assert (ProcessSpec.joinable (getField o "applicationProcedure") = true) as Hp.
  { unfold o. rewrite !getField_insert_ne by done. by rewrite getField_insert. }
  assert (ProcessSpec.joinable (getField o "tags") = true) as Ht.
  { unfold o. rewrite !getField_insert_ne by done. by rewrite getField_insert. }
  assert (getField o "source" = JStr "Local CSV") as Hs.
  { unfold o. rewrite !getField_insert_ne by done. by rewrite getField_insert. }
  assert (getField o "searchableText" = JUndefined) as Hst.
  { unfold o. by rewrite !getField_insert_ne by done. }
  assert (getField o "eligibilityHindi" = JUndefined) as Heh.
  { unfold o. by rewrite !getField_insert_ne by done. }
  clearbody o.
  unfold ProcessSpec.regular, ProcessSpec.listFields. rewrite !Forall_cons.
  rewrite Hst, Heh. destruct Hn as (v & Hv & Hne). rewrite Hv.
  split_and!; try done. by exists v.
Qed.

Lemma parseCsvToSchemes_regular csvText :
  Forall (λ scheme,
            ProcessSpec.regular scheme ∧
            (∃ name, getField scheme "name" = JStr name ∧ name ≠ "") ∧
            getField scheme "source" = JStr "Local CSV")
         (parseCsvToSchemes lowerOf trimOf splitOf genId stamp csvText).
Proof.
  unfold parseCsvToSchemes. destruct (parseCSV csvText) as [|first dataRows]; [constructor|].
  cbv zeta. apply Forall_forall. intros scheme ([r cols] & _ & Hrow)%list_elem_of_omap.
  by eapply schemeOfRow_regular.
Qed.

(** X26. A local CSV dataset never makes steps 2 to 4 throw: whatever the
    text of the file, the records that [parseCsvToSchemes] makes of it all
    have a name that is not empty and the source 'Local CSV', there is at
    most one for each row after the header, and processing them, building
    their training examples and building their texts all succeed. *)
Theorem csv_dataset_passes_the_pipeline (csvText : string) :
  let data := parseCsvToSchemes lowerOf trimOf splitOf genId stamp csvText in
  length data ≤ length (parseCSV csvText) - 1 ∧
  Forall (λ scheme, (∃ name, getField scheme "name" = JStr name ∧ name ≠ "") ∧
                    getField scheme "source" = JStr "Local CSV") data ∧
  ∃ processed examples,
    RAGTrainer.processTrainingData data = Return processed ∧
    RAGTrainer.allExamples processed = Return examples ∧
    length examples = 8 * length data ∧
    Forall RunSpec.textOk processed.
Proof.
  intros data. pose proof (parseCsvToSchemes_regular csvText) as Hall. fold data in Hall.
  split_and!.
  - unfold data, parseCsvToSchemes. destruct (parseCSV csvText) as [|first dataRows]; [done|].
    cbv zeta. etrans; [apply length_omap_le|]. rewrite length_imap. simpl. lia.
  - eapply Forall_impl; [exact Hall|]. by intros s (_ & ? & ?).
  - destruct (ProcessFacts.regular_pipeline data) as (processed & examples & ? & ? & ? & ? & ?).
    { eapply Forall_impl; [exact Hall|]. by intros s (? & _). }
    by exists processed, examples.
Qed.

End Parse.
End CsvFacts.

(** ** The CSV facts at a sample table *)

Module CsvSamples.
Import Csv CsvSpec CsvFacts.

(** The theorem at a table of two rows written with CR LF. *)
Lemma parseCSV_round_trip_witness :
  (snd <$> List.last sampleTable [] ≠ [""] →
     parseCSV (encode dosEol sampleTable) = fields sampleTable) ∧
  (sampleTable ≠ [] → parseCSV (encode dosEol sampleTable +:+ dosEol) = fields sampleTable).
Proof.
  apply (parseCSV_round_trip dosEol sampleTable).
  - right. reflexivity.
  - repeat constructor; discriminate.
  - repeat constructor; intros; try discriminate; vm_compute; reflexivity.
Defined.

End CsvSamples.

(** ** Start-up *)

Module StartupFacts.
Import VectorDB Acquisition Startup StartupSpec IndexSpec IndexFacts FrameSpec FrameFacts.

Section WithEnv.
Variable env : Env.
Variable init : InitEnv.

(** The first part of start-up: getting hold of the collection. *)
Abbreviation connect :=
  (tryCatch
     (_ ← ask (getCollection init); modify setCollection)
     (λ _, _ ← isoNow env; _ ← ask (createCollection init); modify setCollection)).

Lemma connect_run w :
  connect w =
    match getCollection init (tick w) with
    | Return _ => Ret tt (setCollection (bump 1 w))
    | Throw _ =>
        match createCollection init (S (S (tick w))) with
        | Return _ => Ret tt (setCollection (bump 1 (bump 1 (bump 1 w))))
        | Throw e => Err e (bump 1 (bump 1 (bump 1 w)))
        end
    end.
Proof.
  unfold tryCatch, mbind, M_bind, ask, modify, isoNow. simpl.
  destruct (getCollection init (tick w)) as [[]|]; [done|]. simpl.
  by destruct (createCollection init (S (S (tick w)))) as [[]|].
Qed.


Lemma populateInMemory_ok w :
  Forall RunSpec.textOk (getAllSchemes init) →
  ∃ w', initializeInMemoryVectorDB env init w = Ret tt w' ∧
        appended (RunSpec.idOf <$> getAllSchemes init) w w'.
Proof. apply (memoryLoop_ok env). Qed.

Lemma populateInMemory_cases w :
  (∃ w', initializeInMemoryVectorDB env init w = Ret tt w') ∨
  (∃ msg w', initializeInMemoryVectorDB env init w = Err (TypeError msg) w' ∧
             Exists (λ s, canEmbed s = false) (getAllSchemes init)).
Proof.
  unfold initializeInMemoryVectorDB, populateInMemoryVectorDB.
  destruct (first_bad (getAllSchemes init)) as [Hok|(good & bad & rest & -> & Hg & Hb)].
  - left. destruct (memoryLoop_ok env _ w Hok) as (w' & Hrun & _). by exists w'.
  - right. destruct (memoryLoop_fails env good bad rest w Hg Hb)
      as (e & w' & Hrun & _ & msg & ->).
    exists msg, w'. split; [done|]. apply Exists_app. right. by left.
Qed.

Lemma embedBatch_settles batch : ∀ acc w, embedBatch env batch acc w ≠ Hang.
Proof.
  induction batch as [|scheme rest IH]; intros acc w; [done|].
  cbn [embedBatch]. destruct (createSchemeText scheme) as [text|]; [|done].
  rewrite liftO_bind.
  destruct (SearchFacts.generateEmbedding_string env text w) as [v Hv].
  rewrite (bind_Ret _ _ _ _ _ Hv).
  destruct (schemeMetadata scheme) as [md|]; [|done].
  rewrite liftO_bind. apply IH.
Qed.

Lemma populateVectorDB_settles w : populateVectorDB env init w ≠ Hang.
Proof.
  unfold populateVectorDB. pose proof (embedBatch_settles (getAllSchemes init)
                                         (mkAddCall [] [] [] []) w) as Hs.
  unfold mbind, M_bind. destruct (embedBatch env _ _ w) as [call w1|e w1|]; [|done..].
  rewrite IngestionFacts.collectionAdd_run. by destruct (chromaAdd env (tick w1) call).
Qed.

Lemma initializeVectorDB_run w :
  initializeVectorDB env init w =
    match connect w with
    | Ret _ w1 =>
        match (count ← ask (countCollection init);
               if (count =? 0)%Z then populateVectorDB env init else mret tt) w1 with
        | Ret a w2 => Ret a w2
        | Err _ w2 => initializeInMemoryVectorDB env init w2
        | Hang => Hang
        end
    | Err _ w1 => initializeInMemoryVectorDB env init w1
    | Hang => Hang
    end.
Proof.
  unfold initializeVectorDB. unfold tryCatch at 1. unfold mbind at 1, M_bind at 1.
  by destruct (tryCatch _ _ w).
Qed.

(** X27. [initializeVectorDB] rejects for one reason only: the database
    holds a scheme whose text cannot be built, so that the in-memory
    fallback itself throws (a TypeError).  No failure of ChromaDB makes it
    reject, and when the text of every scheme can be built it resolves. *)
Theorem initializeVectorDB_outcomes (w : World) :
  initializeVectorDB env init w ≠ Hang ∧
  (∀ e w', initializeVectorDB env init w = Err e w' →
     (∃ msg, e = TypeError msg) ∧ Exists (λ s, canEmbed s = false) (getAllSchemes init)) ∧
  (Forall RunSpec.textOk (getAllSchemes init) →
     ∃ w', initializeVectorDB env init w = Ret tt w').
Proof.
  assert (∀ w0, initializeInMemoryVectorDB env init w0 ≠ Hang ∧
            (∀ e w', initializeInMemoryVectorDB env init w0 = Err e w' →
               (∃ msg, e = TypeError msg) ∧
               Exists (λ s, canEmbed s = false) (getAllSchemes init)) ∧
            (Forall RunSpec.textOk (getAllSchemes init) →
               ∃ w', initializeInMemoryVectorDB env init w0 = Ret tt w')) as Hmem.
  { intros w0. split_and!.
    - by destruct (populateInMemory_cases w0) as [[w' ->]|(msg & w' & -> & _)].
    - intros e w' He.
      destruct (populateInMemory_cases w0) as [[w1 H1]|(msg & w1 & H1 & Hbad)]; [congruence|].
      rewrite H1 in He. injection He as <- _. split; [by eexists|done].
    - intros Hok. destruct (populateInMemory_ok w0 Hok) as (w' & -> & _). by eexists. }
  rewrite initializeVectorDB_run, connect_run.
  set (body := λ w0 : World,
         (count ← ask (countCollection init);
          if (count =? 0)%Z then populateVectorDB env init else mret tt) w0).
  assert (∀ w0, body w0 ≠ Hang) as Hbody.
  { intros w0. unfold body, mbind, M_bind, ask.
    destruct (countCollection init (tick w0)) as [count|]; [|done].
    destruct (count =? 0)%Z; [|done].
    pose proof (populateVectorDB_settles (bump 1 w0)).
    by destruct (populateVectorDB env init (bump 1 w0)). }
  assert (∀ w0, match body w0 with
                | Ret a w1 => Ret a w1
                | Err _ w1 => initializeInMemoryVectorDB env init w1
                | Hang => Hang
                end ≠ Hang ∧
                (∀ e w', match body w0 with
                         | Ret a w1 => Ret a w1
                         | Err _ w1 => initializeInMemoryVectorDB env init w1
                         | Hang => Hang
                         end = Err e w' →
                   (∃ msg, e = TypeError msg) ∧
                   Exists (λ s, canEmbed s = false) (getAllSchemes init)) ∧
                (Forall RunSpec.textOk (getAllSchemes init) →
                   ∃ w', match body w0 with
                         | Ret a w1 => Ret a w1
                         | Err _ w1 => initializeInMemoryVectorDB env init w1
                         | Hang => Hang
                         end = Ret tt w')) as Hrest.
  { intros w0. specialize (Hbody w0).
    destruct (body w0) as [[] w1|e w1|]; [|apply Hmem|done].
    split_and!; [done|done|]. intros _. by eexists. }
  destruct (getCollection init (tick w)) as [[]|]; [apply Hrest|].
  destruct (createCollection init (S (S (tick w)))) as [[]|]; [apply Hrest|apply Hmem].
Qed.

Lemma search_ignores_index query limit w :
  collection w = true →
  hitsOf (searchSimilarSchemes env query limit w) =
  hitsOf (searchSimilarSchemes env query limit (withoutIndex w)).
Proof.
  intros Hc.
  unfold searchSimilarSchemes, tryCatch, searchBody, generateEmbedding, tryCatch,
    collectionQuery, mbind, M_bind, ask, liftO, getWorld.
  change (tick (withoutIndex w)) with (tick w).
  destruct (llmEmbedding env (tick w) query) as [v|]; simpl; rewrite ?Hc.
  - destruct (chromaQuery env _ v limit) as [r|]; [|done].
    by destruct (chromaHits r).
  - destruct (generateSimpleEmbedding query) as [v|]; [|done]. simpl. rewrite Hc.
    destruct (chromaQuery env _ v limit) as [r|]; [|done].
    by destruct (chromaHits r).
Qed.

(** X28. When ChromaDB hands out the collection and then fails to count it,
    start-up falls back to the in-memory index and fills it with every
    scheme of the database, but [collection] stays set: every later search
    goes to ChromaDB, and what it finds does not depend on the index that
    start-up has just built. *)
Theorem startup_fallback_is_unused (w : World) (e : error) :
  getCollection init (tick w) = Return tt →
  countCollection init (S (tick w)) = Throw e →
  Forall RunSpec.textOk (getAllSchemes init) →
  ∃ w', initializeVectorDB env init w = Ret tt w' ∧
        collection w' = true ∧
        indexIds w' = indexIds w ++ (RunSpec.idOf <$> getAllSchemes init) ∧
        ∀ query limit,
          hitsOf (searchSimilarSchemes env query limit w') =
          hitsOf (searchSimilarSchemes env query limit (withoutIndex w')).
Proof.
  intros Hget Hcount Hok.
  rewrite initializeVectorDB_run, connect_run, Hget.
  unfold mbind at 1, M_bind at 1, ask at 1.
  change (tick (setCollection (bump 1 w))) with (S (tick w)). rewrite Hcount.
  destruct (populateInMemory_ok (bump 1 (setCollection (bump 1 w))) Hok)
    as (w' & -> & Hc & _ & _ & Hids & _).
  exists w'. split_and!; [done|by rewrite Hc|by rewrite Hids|].
  intros query limit. apply search_ignores_index. by rewrite Hc.
Qed.

End WithEnv.
End StartupFacts.

(** ** Start-up at a sample database *)

Module StartupSamples.
Import VectorDB RunSpec IndexSpec Startup StartupSpec StartupFacts.

(** The theorem where the collection exists and cannot be counted. *)
Lemma startup_fallback_is_unused_witness :
  ∃ w', initializeVectorDB quietEnv countFailsInit memoryWorld = Ret tt w' ∧
        collection w' = true ∧
        indexIds w' = indexIds memoryWorld ++ (idOf <$> getAllSchemes countFailsInit) ∧
        ∀ query limit,
          hitsOf (searchSimilarSchemes quietEnv query limit w') =
          hitsOf (searchSimilarSchemes quietEnv query limit (withoutIndex w')).
Proof.
  apply (startup_fallback_is_unused quietEnv countFailsInit memoryWorld
           (Error "Internal Server Error")).
  - reflexivity.
  - reflexivity.
  - exact IngestionFacts.threeSchemes_textOk.
Defined.

End StartupSamples.
